(** * quiz-solver: a shallow embedding of the solve loop and its helpers

    The development follows the Python sources under [app/]:
    - [Py]         the fragment of the Python runtime and library the code
                   relies on: text, regular expressions, dictionaries,
                   base64 and UTF-8, numbers, objects, exceptions;
    - [Types]      [app/types.py];
    - [Settings]   [app/settings.py];
    - [Effects]    the calls to the outside (clock, browsers, fetcher,
                   language-model backends, scoring endpoint) and the
                   monad that records them;
    - [Utils]      [app/utils.py]      ([async_retry]);
    - [Parser]     [app/parser.py]     (class [QuizParser]);
    - [LLM]        [app/llm.py]        (class [LLMEngine]);
    - [Submitter]  [app/submitter.py]  (class [AnswerSubmitter]);
    - [Solver]     [app/solver.py]     (class [QuizSolver]);
    - [Text]       more of the runtime: text operations and [re.sub];
    - [QuizParser] [app/parser.py]     (the methods behind [Extractors]);
    - [LLMEngine]  [app/llm.py]        ([setup_models], [_build_prompt],
                                        [validate_answer]);
    - [Payload]    [app/submitter.py]  ([_compress_payload]);
    - [Fetcher]    [app/fetcher.py]    (the choice of the processor).
    The properties follow the definitions.

    A Python [str] is a [string] whose characters are read as code points
    0..255; the runtime functions below are written for that range.  A
    [float] is a binary64 value; a timestamp is an exact rational. *)

From Stdlib Require Import ZArith QArith List String Ascii Bool Arith Lia.
From Stdlib Require Import SpecFloat DecimalString.
Import ListNotations.
Open Scope string_scope.
Open Scope nat_scope.

(* ================================================================== *)
(** * The Python runtime fragment                                      *)
(* ================================================================== *)
Module Py.

(** ** Characters *)

Definition code (c : ascii) : nat := nat_of_ascii c.

Definition LF : ascii := ascii_of_nat 10.
Definition DQUOTE : ascii := ascii_of_nat 34.
Definition SQUOTE : ascii := ascii_of_nat 39.

(** [str.isspace] on one code point below 256: TAB..CR, FS..US, SPACE,
    NEL and NBSP.  The [\s] class of [re] (on [str] patterns) is the same
    set. *)
Definition is_space (c : ascii) : bool :=
  let n := code c in
  ((9 <=? n) && (n <=? 13)) || ((28 <=? n) && (n <=? 32))
  || (n =? 133) || (n =? 160).

(** [\d] on code points below 256: the ten ASCII digits. *)
Definition is_digit (c : ascii) : bool :=
  let n := code c in (48 <=? n) && (n <=? 57).

(** [str.lower] on one code point below 256: A-Z, and the Latin-1 capitals
    U+00C0..U+00DE except the multiplication sign U+00D7. *)
Definition lower_char (c : ascii) : ascii :=
  let n := code c in
  if ((65 <=? n) && (n <=? 90))
     || ((192 <=? n) && (n <=? 222) && negb (n =? 215))
  then ascii_of_nat (n + 32) else c.

(** ** Text *)

Fixpoint lower (s : string) : string :=
  match s with
  | EmptyString => EmptyString
  | String c s' => String (lower_char c) (lower s')
  end.

(** [prefix p s]: [s.startswith(p)]. *)
Fixpoint starts_with (p s : string) : bool :=
  match p, s with
  | EmptyString, _ => true
  | String a p', String b s' => Ascii.eqb a b && starts_with p' s'
  | String _ _, EmptyString => false
  end.

(** [sub in s]. *)
Fixpoint contains (sub s : string) : bool :=
  starts_with sub s
  || match s with
     | EmptyString => false
     | String _ s' => contains sub s'
     end.

(** [any(w in s for w in words)]. *)
Definition any_in (words : list string) (s : string) : bool :=
  existsb (fun w => contains w s) words.

Fixpoint lstrip (s : string) : string :=
  match s with
  | String c s' => if is_space c then lstrip s' else s
  | EmptyString => EmptyString
  end.

(** Drops trailing white space: a character is kept when it is not white
    space or when something is kept after it. *)
Fixpoint rstrip (s : string) : string :=
  match s with
  | EmptyString => EmptyString
  | String c s' =>
      match rstrip s' with
      | EmptyString => if is_space c then EmptyString else String c EmptyString
      | r => String c r
      end
  end.

(** [s.strip()]. *)
Definition strip (s : string) : string := rstrip (lstrip s).

(** [sep.join(parts)]. *)
Fixpoint join (sep : string) (parts : list string) : string :=
  match parts with
  | [] => EmptyString
  | [p] => p
  | p :: rest => p ++ sep ++ join sep rest
  end.

Fixpoint take (n : nat) (s : string) : string :=
  match n, s with
  | S n', String c s' => String c (take n' s')
  | _, _ => EmptyString
  end.

(** ** Regular expressions

    The patterns of the sources are sequences of one-character classes,
    each with a quantifier, and at most one capture group.  [re] matches
    them greedily and backtracks; so does [match_atoms]. *)

Inductive quant := One | Opt | Star | Plus.

Record atom := Atom { cls : ascii -> bool; qt : quant }.

Record regex := Regex {
  before : list atom;          (* what precedes the group *)
  group  : option (list atom); (* the capture group, if the pattern has one *)
  after  : list atom           (* what follows it *)
}.

Section Matching.
Context {R : Type}.

(** [x*]: as many characters of the class as possible, then fewer. *)
Fixpoint match_star (p : ascii -> bool) (s : string)
         (k : string -> option R) : option R :=
  match s with
  | String c s' =>
      if p c then
        match match_star p s' k with
        | Some r => Some r
        | None => k s
        end
      else k s
  | EmptyString => k s
  end.

Definition match_one (p : ascii -> bool) (s : string)
           (k : string -> option R) : option R :=
  match s with
  | String c s' => if p c then k s' else None
  | EmptyString => None
  end.

Definition match_opt (p : ascii -> bool) (s : string)
           (k : string -> option R) : option R :=
  match match_one p s k with
  | Some r => Some r
  | None => k s
  end.

Fixpoint match_atoms (items : list atom) (s : string)
         (k : string -> option R) : option R :=
  match items with
  | [] => k s
  | Atom p q :: rest =>
      let k' := fun s' => match_atoms rest s' k in
      match q with
      | One => match_one p s k'
      | Opt => match_opt p s k'
      | Star => match_star p s k'
      | Plus => match_one p s (fun s' => match_star p s' k')
      end
  end.
End Matching.

(** A match anchored at the start of [s]: the text [findall] reports (the
    group when there is one, the whole match otherwise) and the number of
    characters the match consumed. *)
Definition match_at (r : regex) (s : string) : option (string * nat) :=
  match_atoms (before r) s (fun s1 =>
    match group r with
    | Some g =>
        match_atoms g s1 (fun s2 =>
          match_atoms (after r) s2 (fun s3 =>
            Some (take (length s1 - length s2) s1, length s - length s3)))
    | None =>
        match_atoms (after r) s1 (fun s3 =>
          Some (take (length s - length s3) s, length s - length s3))
    end).

(** [re.findall]: scan from the left; after a match resume behind it (an
    empty match still advances by one character).  [skip] counts the
    characters of the last match that are still to be passed over. *)
Fixpoint findall_from (r : regex) (skip : nat) (s : string) : list string :=
  match skip with
  | S n =>
      match s with
      | String _ s' => findall_from r n s'
      | EmptyString => []
      end
  | O =>
      match match_at r s with
      | Some (g, n) =>
          g :: match s with
               | String _ s' => findall_from r (n - 1) s'
               | EmptyString => []
               end
      | None =>
          match s with
          | String _ s' => findall_from r 0 s'
          | EmptyString => []
          end
      end
  end.

Definition findall (r : regex) (text : string) : list string :=
  findall_from r 0 text.

(** Pattern atoms.  [lit] spells a literal; [ilit] spells it under
    [re.IGNORECASE]. *)
Definition is_char (c : ascii) : ascii -> bool := Ascii.eqb c.
Definition is_ichar (c : ascii) : ascii -> bool :=
  fun x => Ascii.eqb (lower_char x) (lower_char c).
Definition none_of (l : list ascii) : ascii -> bool :=
  fun x => negb (existsb (Ascii.eqb x) l).
Definition one_of (l : list ascii) : ascii -> bool :=
  fun x => existsb (Ascii.eqb x) l.

Fixpoint lit (s : string) : list atom :=
  match s with
  | EmptyString => []
  | String c s' => Atom (is_char c) One :: lit s'
  end.

Fixpoint ilit (s : string) : list atom :=
  match s with
  | EmptyString => []
  | String c s' => Atom (is_ichar c) One :: ilit s'
  end.

(** ** Dictionaries with [str] keys, in insertion order *)

Definition dict (V : Type) := list (string * V).

Fixpoint dict_get {V} (d : dict V) (k : string) : option V :=
  match d with
  | [] => None
  | (k', v) :: d' => if String.eqb k k' then Some v else dict_get d' k
  end.

(** [d[k] = v]: replaces the value of an existing key in place, appends a
    new key. *)
Fixpoint dict_set {V} (d : dict V) (k : string) (v : V) : dict V :=
  match d with
  | [] => [(k, v)]
  | (k', v') :: d' =>
      if String.eqb k k' then (k', v) :: d' else (k', v') :: dict_set d' k v
  end.

Definition keys {V} (d : dict V) : list string := map fst d.

(** ** Bytes, base64 and UTF-8

    A [bytes] object is a [string] too, one character per byte. *)

Definition bytes := string.

Definition byte_of (n : N) : ascii := ascii_of_N n.   (* keeps the low 8 bits *)
Definition val (c : ascii) : N := N_of_ascii c.

Definition b64_alphabet : string :=
  "ABCDEFGHIJKLMNOPQRSTUVWXYZabcdefghijklmnopqrstuvwxyz0123456789+/".

Definition BASE64_PAD : ascii := "="%char.

(** [table_b2a_base64]. *)
Definition b2a (v : N) : ascii :=
  match get (N.to_nat v) b64_alphabet with
  | Some c => c
  | None => BASE64_PAD
  end.

Fixpoint index_of (c : ascii) (s : string) : option N :=
  match s with
  | EmptyString => None
  | String x s' =>
      if Ascii.eqb c x then Some 0%N
      else option_map N.succ (index_of c s')
  end.

(** [table_a2b_base64]: the value of a character of the alphabet, [None]
    for every other character. *)
Definition a2b (c : ascii) : option N := index_of c b64_alphabet.

(** [base64.b64encode]: three bytes make four characters; one or two
    trailing bytes are padded with [=]. *)
Fixpoint b64encode (data : bytes) : string :=
  match data with
  | EmptyString => EmptyString
  | String a EmptyString =>
      String (b2a (N.shiftr (val a) 2))
     (String (b2a (N.shiftl (N.land (val a) 3) 4)) "==")
  | String a (String b EmptyString) =>
      String (b2a (N.shiftr (val a) 2))
     (String (b2a (N.lor (N.shiftl (N.land (val a) 3) 4) (N.shiftr (val b) 4)))
     (String (b2a (N.shiftl (N.land (val b) 15) 2)) "="))
  | String a (String b (String c rest)) =>
      String (b2a (N.shiftr (val a) 2))
     (String (b2a (N.lor (N.shiftl (N.land (val a) 3) 4) (N.shiftr (val b) 4)))
     (String (b2a (N.lor (N.shiftl (N.land (val b) 15) 2) (N.shiftr (val c) 6)))
     (String (b2a (N.land (val c) 63)) (b64encode rest))))
  end.

(** [binascii.a2b_base64] in its default, non-strict mode, as a scan with
    the three registers of the C loop: the position in the current quad,
    the bits left over from the previous character, and the count of pad
    characters seen since the last data character.  Characters outside
    the alphabet are skipped; a pad sequence that completes a quad ends
    the scan; data that stops inside a quad is an error ([None]). *)
Fixpoint a2b_base64 (quad_pos : nat) (leftchar : N) (pads : nat)
         (s : string) : option bytes :=
  match s with
  | EmptyString => if quad_pos =? 0 then Some EmptyString else None
  | String this_ch s' =>
      if Ascii.eqb this_ch BASE64_PAD then
        if 2 <=? quad_pos then
          if 4 <=? quad_pos + S pads then Some EmptyString
          else a2b_base64 quad_pos leftchar (S pads) s'
        else a2b_base64 quad_pos leftchar pads s'
      else
        match a2b this_ch with
        | None => a2b_base64 quad_pos leftchar pads s'
        | Some v =>
            match quad_pos with
            | 0 => a2b_base64 1 v 0 s'
            | 1 =>
                option_map
                  (String (byte_of (N.lor (N.shiftl leftchar 2) (N.shiftr v 4))))
                  (a2b_base64 2 (N.land v 15) 0 s')
            | 2 =>
                option_map
                  (String (byte_of (N.lor (N.shiftl leftchar 4) (N.shiftr v 2))))
                  (a2b_base64 3 (N.land v 3) 0 s')
            | _ =>
                option_map
                  (String (byte_of (N.lor (N.shiftl leftchar 6) v)))
                  (a2b_base64 0 0 0 s')
            end
        end
  end.

Fixpoint is_ascii (s : string) : bool :=
  match s with
  | EmptyString => true
  | String c s' => (code c <? 128) && is_ascii s'
  end.

(** [base64.b64decode(s)] for a [str] argument: the text must be ASCII
    ([ValueError] otherwise), then [binascii.a2b_base64].  [None] stands
    for either exception. *)
Definition b64decode (s : string) : option bytes :=
  if is_ascii s then a2b_base64 0 0 0 s else None.

(** [str.encode()] (UTF-8) of a text of code points below 256. *)
Fixpoint encode (s : string) : bytes :=
  match s with
  | EmptyString => EmptyString
  | String c s' =>
      if (val c <? 128)%N then String c (encode s')
      else String (byte_of (N.lor 192 (N.shiftr (val c) 6)))
          (String (byte_of (N.lor 128 (N.land (val c) 63))) (encode s'))
  end.

(** [bytes.decode('utf-8')].  The decoded text may hold any code point, so
    it is a list of code points; [None] is [UnicodeDecodeError]. *)
Definition wide := list N.

Definition is_cont (c : ascii) : bool := (128 <=? val c)%N && (val c <? 192)%N.
Definition in_range (lo hi : N) (c : ascii) : bool :=
  (lo <=? val c)%N && (val c <=? hi)%N.
Definition low6 (c : ascii) : N := N.land (val c) 63.

Fixpoint decode (data : bytes) : option wide :=
  match data with
  | EmptyString => Some []
  | String b0 r0 =>
      if (val b0 <? 128)%N then option_map (cons (val b0)) (decode r0)
      else
        match r0 with
        | EmptyString => None
        | String b1 r1 =>
            if in_range 194 223 b0 then
              if is_cont b1 then
                option_map
                  (cons (N.lor (N.shiftl (N.land (val b0) 31) 6) (low6 b1)))
                  (decode r1)
              else None
            else
              match r1 with
              | EmptyString => None
              | String b2 r2 =>
                  if in_range 224 239 b0 then
                    if (if (val b0 =? 224)%N then in_range 160 191 b1
                        else if (val b0 =? 237)%N then in_range 128 159 b1
                        else is_cont b1) && is_cont b2
                    then
                      option_map
                        (cons (N.lor (N.shiftl (N.land (val b0) 15) 12)
                                 (N.lor (N.shiftl (low6 b1) 6) (low6 b2))))
                        (decode r2)
                    else None
                  else
                    match r2 with
                    | EmptyString => None
                    | String b3 r3 =>
                        if in_range 240 244 b0
                           && (if (val b0 =? 240)%N then in_range 144 191 b1
                               else if (val b0 =? 244)%N then in_range 128 143 b1
                               else is_cont b1)
                           && is_cont b2 && is_cont b3
                        then
                          option_map
                            (cons (N.lor (N.shiftl (N.land (val b0) 7) 18)
                                     (N.lor (N.shiftl (low6 b1) 12)
                                        (N.lor (N.shiftl (low6 b2) 6) (low6 b3)))))
                            (decode r3)
                        else None
                    end
              end
        end
  end.

(** [lower] and [in] on a decoded text.  Below 256 the case mapping is that
    of [lower_char]; above, code points are left as they are: whatever
    [str.lower] makes of them, it is never an ASCII character, which is
    all that a search for an ASCII literal can see. *)
Definition wide_lower_char (n : N) : N :=
  if (n <? 256)%N then val (lower_char (byte_of n)) else n.

Definition wide_lower (t : wide) : wide := map wide_lower_char t.

Fixpoint wide_starts_with (p : string) (t : wide) : bool :=
  match p, t with
  | EmptyString, _ => true
  | String a p', n :: t' => (val a =? n)%N && wide_starts_with p' t'
  | String _ _, [] => false
  end.

Fixpoint wide_contains (sub : string) (t : wide) : bool :=
  wide_starts_with sub t
  || match t with
     | [] => false
     | _ :: t' => wide_contains sub t'
     end.

(** ** Numbers

    A Python [int] is a [Z]; a [float] is a binary64 value. *)

Definition float := spec_float.

(** [x.is_integer()]. *)
Definition is_integer (x : float) : bool :=
  match x with
  | S754_zero _ => true
  | S754_finite _ m e =>
      (0 <=? e)%Z || (Z.land (Zpos m) (Z.ones (- e)) =? 0)%Z
  | S754_infinity _ | S754_nan => false
  end.

(** [int(x)]: truncation; [None] for an infinity ([OverflowError]) and for
    a NaN ([ValueError]). *)
Definition int_of_float (x : float) : option Z :=
  match x with
  | S754_zero _ => Some 0%Z
  | S754_finite s m e =>
      let a := Z.shiftl (Zpos m) e in Some (if s then (- a)%Z else a)
  | S754_infinity _ | S754_nan => None
  end.

(** [str(n)] for an [int]. *)
Definition str_of_int (n : Z) : string := NilZero.string_of_int (Z.to_int n).

(** ** Objects *)

#[local] Set Warnings "-register-all".
Inductive pyval :=
| PNone
| PBool (b : bool)
| PInt (n : Z)
| PFloat (x : float)
| PStr (s : string)
| PList (items : list pyval)
| PDict (items : list (string * pyval)).

(** [bool(v)]. *)
Definition truthy (v : pyval) : bool :=
  match v with
  | PNone => false
  | PBool b => b
  | PInt n => negb (n =? 0)%Z
  | PFloat (S754_zero _) => false
  | PFloat _ => true
  | PStr s => negb (String.eqb s EmptyString)
  | PList [] => false
  | PList (_ :: _) => true
  | PDict [] => false
  | PDict (_ :: _) => true
  end.

(** [repr] of a [str] (code points below 256): single quotes unless the
    text has a single quote and no double quote; backslash, the quote and
    the unprintable characters escaped. *)
Definition printable (c : ascii) : bool :=
  let n := code c in
  ((32 <=? n) && (n <? 127)) || ((161 <=? n) && negb (n =? 173)).

Definition hex_digit (n : N) : ascii :=
  match get (N.to_nat n) "0123456789abcdef" with
  | Some c => c
  | None => "0"%char
  end.

Definition one (c : ascii) : string := String c EmptyString.

Definition escape (quote c : ascii) : string :=
  if Ascii.eqb c quote || Ascii.eqb c "\"%char then String "\"%char (one c)
  else if code c =? 9 then "\t"
  else if code c =? 10 then "\n"
  else if code c =? 13 then "\r"
  else if printable c then one c
  else "\x" ++ one (hex_digit (N.shiftr (val c) 4))
            ++ one (hex_digit (N.land (val c) 15)).

Definition repr_str (s : string) : string :=
  let quote :=
    if contains (one SQUOTE) s && negb (contains (one DQUOTE) s)
    then DQUOTE else SQUOTE in
  one quote
  ++ String.concat EmptyString (map (escape quote) (list_ascii_of_string s))
  ++ one quote.

Section Repr.
(** [repr] of a [float], the shortest decimal that reads back as the same
    value, is left to the runtime. *)
Variable float_repr : float -> string.

Fixpoint repr (v : pyval) : string :=
  match v with
  | PNone => "None"
  | PBool true => "True"
  | PBool false => "False"
  | PInt n => str_of_int n
  | PFloat x => float_repr x
  | PStr s => repr_str s
  | PList items => "[" ++ join ", " (map repr items) ++ "]"
  | PDict items =>
      "{" ++ join ", "
               (map (fun kv : string * pyval =>
                       let (k, v) := kv in repr_str k ++ ": " ++ repr v)
                    items)
          ++ "}"
  end.
End Repr.

(** [r'-?\d+\.?\d*'], the pattern with which [llm.py] and [solver.py]
    look for a number. *)
Definition number_pattern : regex :=
  Regex [ Atom (is_char "-") Opt; Atom is_digit Plus;
          Atom (is_char ".") Opt; Atom is_digit Star ] None [].

(** [r'\d+'] *)
Definition digits_pattern : regex := Regex [Atom is_digit Plus] None [].

(** [int(num) if num.is_integer() else num], [num] a float; [None] stands
    for an exception. *)
Definition int_if_whole (num : float) : option pyval :=
  if is_integer num then option_map PInt (int_of_float num)
  else Some (PFloat num).

(** The binary64 value nearest to [n / d] (ties to even): how a decimal
    literal such as [0.7] is read. *)
Definition nearest_float (neg : bool) (n d : Z) : float :=
  match n, d with
  | Zpos p, Zpos q =>
      SFdiv 53 1024 (S754_finite neg p 0) (S754_finite false q 0)
  | _, _ => S754_zero neg
  end.

Definition fadd : float -> float -> float := SFadd 53 1024.
Definition fsub : float -> float -> float := SFsub 53 1024.
Definition flt : float -> float -> bool := SFltb.

(** Reads the decimal digits at the head of [s] into [acc]: the number
    read, how many digits it took, and the rest of the text. *)
Fixpoint read_digits (s : string) (acc : Z) (count : nat)
  : Z * nat * string :=
  match s with
  | String c s' =>
      if is_digit c
      then read_digits s' (10 * acc + Z.of_nat (code c - 48))%Z (S count)
      else (acc, count, s)
  | EmptyString => (acc, count, s)
  end.

(** [float(s)] for a text [s] of the form [-?\d+\.?\d*], the form of the
    tokens of [number_pattern]; [None] for any other text. *)
Definition float_of_decimal (s : string) : option float :=
  let (neg, body) :=
    match s with
    | String "-"%char r => (true, r)
    | _ => (false, s)
    end in
  let '(i, ni, r) := read_digits body 0 0 in
  let '(n, nf, r') :=
    match r with
    | String "."%char r1 => read_digits r1 i 0
    | _ => (i, 0, r)
    end in
  match ni + nf, r' with
  | S _, EmptyString => Some (nearest_float neg n (10 ^ Z.of_nat nf))
  | _, _ => None
  end.

(** [int(s)] for a text of the form [-?\d+]; [None] for any other text. *)
Definition int_of_decimal (s : string) : option Z :=
  let (neg, body) :=
    match s with
    | String "-"%char r => (true, r)
    | _ => (false, s)
    end in
  match read_digits body 0 0 with
  | (n, S _, EmptyString) => Some (if neg then (- n)%Z else n)
  | _ => None
  end.

(** The number a text of decimal digits spells. *)
Definition int_of_digits (s : string) : Z := fst (fst (read_digits s 0 0)).

(** ** Exceptions *)

(** An exception: its class and [str(e)]. *)
Record exn := Exn { exn_class : string; exn_text : string }.

(** What a call gives: a value, or the exception it raises. *)
Inductive result (A : Type) :=
| Ok (a : A)
| Raise (e : exn).
Arguments Ok {A} a.
Arguments Raise {A} e.

(** ** The runtime

    What the embedding takes from the interpreter and its library without
    defining it.  The interpreter refuses some conversions: [str] and
    [repr] of an [int] with more digits than its limit on conversions
    between [int] and [str] (4300 by default; ValueError), and so [str] of
    a list or dict that holds such an [int], or of one nested deeper than the
    recursion limit (RecursionError); [int] of a text with more digits than
    the limit (ValueError).  Which exception a conversion raises, and when,
    is the runtime's: a function of the value. *)
Record Runtime := {
  (** [repr(x)] of a float. *)
  float_repr : float -> string;
  (** The exception [repr(v)] raises for an [int], a list or a dict, if it
      raises. *)
  repr_error : pyval -> option exn;
  (** [float(s)] and [int(s)] of a text; [None] is [ValueError]. *)
  float_of_str : string -> option float;
  int_of_str : string -> option Z;
  (** The exception [int(s)] raises for a text of decimal digits, if it
      raises. *)
  int_error : string -> option exn;
  (** [json.loads(s)]; [None] is any exception it raises. *)
  json_loads : string -> option pyval;
  (** The exception [json.loads(s)] raises, when it raises: a
      JSONDecodeError for a text that is not JSON; another one otherwise
      (ValueError for a number beyond the digit limit, RecursionError for a
      text nested too deep). *)
  json_error : string -> exn;
  (** [json.dumps(v)], with [ensure_ascii] at its default: an ASCII text,
      or the exception raised (ValueError for an [int] beyond the digit
      limit). *)
  json_dumps : pyval -> result string;
  (** Whether [int] has the method [is_integer] (Python 3.12 and later). *)
  int_has_is_integer : bool;
  (** [sys.getsizeof("")]: the bytes of an empty ASCII [str] object. *)
  str_header_size : N
}.

(** [str(v)], and what an f-string makes of [{v}]. *)
Definition str (rt : Runtime) (v : pyval) : result string :=
  match v with
  | PStr s => Ok s
  | PNone | PBool _ | PFloat _ => Ok (repr (float_repr rt) v)
  | PInt _ | PList _ | PDict _ =>
      match repr_error rt v with
      | Some e => Raise e
      | None => Ok (repr (float_repr rt) v)
      end
  end.

(** [int(s)] for a token of [digits_pattern]. *)
Definition int_of_token (rt : Runtime) (s : string) : result Z :=
  match int_error rt s with
  | Some e => Raise e
  | None => Ok (int_of_digits s)
  end.

(** [sys.getsizeof(s)] of an ASCII text: one byte per character after the
    object header. *)
Definition getsizeof (rt : Runtime) (s : string) : Z :=
  (Z.of_N (str_header_size rt) + Z.of_nat (length s))%Z.

(** ** A runtime to run examples with

    Its [float] and [int] read plain decimal literals
    ([-12], [3.50]); its [json.loads] knows [null], [true], [false] and
    plain integers; its [json.dumps] is the library's on values without
    finite floats; its float [repr] is a placeholder; its limit on the
    digits of a conversion between [int] and [str] is the interpreter's
    default, and it knows no limit on nesting.  Outside these inputs the
    functions give up where the interpreter would not; the examples of this
    file stay inside them, and every theorem holds for all runtimes. *)

(** [sys.get_int_max_str_digits()] by default. *)
Definition default_max_str_digits : nat := 4300.

(** Whether [n] has more decimal digits than [limit], the sign apart. *)
Definition too_long (limit : nat) (n : Z) : bool :=
  limit <? length (str_of_int (Z.abs n)).

(** Whether [repr(v)] meets an [int] with more than [limit] digits. *)
Fixpoint holds_too_long (limit : nat) (v : pyval) : bool :=
  match v with
  | PInt n => too_long limit n
  | PList items => existsb (holds_too_long limit) items
  | PDict items =>
      existsb (fun kv : string * pyval => holds_too_long limit (snd kv)) items
  | _ => false
  end.

(** The ValueError of [str(n)], and that of [int(s)] for a text of
    [digits] digits. *)
Definition digit_limit_to_str (limit : nat) : exn :=
  Exn "ValueError"
      ("Exceeds the limit (" ++ str_of_int (Z.of_nat limit)
       ++ " digits) for integer string conversion; "
       ++ "use sys.set_int_max_str_digits() to increase the limit").

Definition digit_limit_to_int (limit digits : nat) : exn :=
  Exn "ValueError"
      ("Exceeds the limit (" ++ str_of_int (Z.of_nat limit)
       ++ " digits) for integer string conversion: value has "
       ++ str_of_int (Z.of_nat digits) ++ " digits; "
       ++ "use sys.set_int_max_str_digits() to increase the limit").

(** The digits of a text. *)
Fixpoint count_digits (s : string) : nat :=
  match s with
  | EmptyString => 0
  | String c s' => (if is_digit c then 1 else 0) + count_digits s'
  end.

(** The exception of [int(s)] under the limit, if any. *)
Definition int_limit_error (limit : nat) (s : string) : option exn :=
  if limit <? count_digits s
  then Some (digit_limit_to_int limit (count_digits s)) else None.

(** A JSON integer: a plain decimal literal without a leading zero. *)
Definition json_int (s : string) : option Z :=
  match s with
  | String "0"%char (String _ _) => None
  | String "-"%char (String "0"%char (String _ _)) => None
  | _ => int_of_decimal s
  end.

Definition scalar_json (s : string) : option pyval :=
  if String.eqb s "null" then Some PNone
  else if String.eqb s "true" then Some (PBool true)
  else if String.eqb s "false" then Some (PBool false)
  else
    match json_int s with
    | Some n =>
        if default_max_str_digits <? count_digits s then None
        else Some (PInt n)
    | None => None
    end.

(** [json.dumps] with its defaults, floats apart: every character outside
    the range from the space to the tilde is escaped. *)
Definition json_escape (c : ascii) : string :=
  let n := val c in
  if Ascii.eqb c DQUOTE || Ascii.eqb c "\"%char then String "\"%char (one c)
  else if (n =? 10)%N then "\n"
  else if (n =? 13)%N then "\r"
  else if (n =? 9)%N then "\t"
  else if (n =? 8)%N then "\b"
  else if (n =? 12)%N then "\f"
  else if (32 <=? n)%N && (n <=? 126)%N then one c
  else "\u00" ++ one (hex_digit (N.shiftr n 4))
               ++ one (hex_digit (N.land n 15)).

Definition json_str (s : string) : string :=
  one DQUOTE
  ++ String.concat EmptyString (map json_escape (list_ascii_of_string s))
  ++ one DQUOTE.

Fixpoint json_text (v : pyval) : string :=
  match v with
  | PNone => "null"
  | PBool true => "true"
  | PBool false => "false"
  | PInt n => str_of_int n
  | PFloat S754_nan => "NaN"
  | PFloat (S754_infinity false) => "Infinity"
  | PFloat (S754_infinity true) => "-Infinity"
  | PFloat _ => "<float>"
  | PStr s => json_str s
  | PList items => "[" ++ join ", " (map json_text items) ++ "]"
  | PDict items =>
      "{" ++ join ", "
               (map (fun kv : string * pyval =>
                       let (k, v) := kv in json_str k ++ ": " ++ json_text v)
                    items)
          ++ "}"
  end.

(** The exception of the example [json.loads]: the ValueError of the digit
    limit for an integer with too many digits, else the JSONDecodeError of a
    text that does not begin a JSON value. *)
Definition scalar_json_error (s : string) : exn :=
  match json_int s with
  | Some _ =>
      digit_limit_to_int default_max_str_digits (count_digits s)
  | None => Exn "JSONDecodeError" "Expecting value: line 1 column 1 (char 0)"
  end.

Definition example_runtime : Runtime := {|
  float_repr := fun _ => "<float>";
  repr_error := fun v =>
    if holds_too_long default_max_str_digits v
    then Some (digit_limit_to_str default_max_str_digits) else None;
  float_of_str := float_of_decimal;
  int_of_str := fun s =>
    match int_limit_error default_max_str_digits s with
    | Some _ => None
    | None => int_of_decimal s
    end;
  int_error := int_limit_error default_max_str_digits;
  json_loads := scalar_json;
  json_error := scalar_json_error;
  json_dumps := fun v =>
    if holds_too_long default_max_str_digits v
    then Raise (digit_limit_to_str default_max_str_digits)
    else Ok (json_text v);
  int_has_is_integer := true;
  str_header_size := 49
|}.

End Py.

(* ================================================================== *)
(** * app/types.py                                                     *)
(* ================================================================== *)
Module Types.

Inductive AnswerType := NUMBER | STRING | BOOLEAN | JSON | BASE64_FILE.

Definition AnswerType_eqb (a b : AnswerType) : bool :=
  match a, b with
  | NUMBER, NUMBER | STRING, STRING | BOOLEAN, BOOLEAN
  | JSON, JSON | BASE64_FILE, BASE64_FILE => true
  | _, _ => false
  end.

Record QuizRequest := mkQuizRequest {
  email : string;
  secret : string;
  request_url : string            (* [url] *)
}.

(** [QuizResponse]: the verdict of the scoring endpoint. *)
Record QuizResponse := mkQuizResponse {
  correct : bool;
  url     : option string;
  reason  : option string
}.

Record AnswerSubmission := mkAnswerSubmission {
  submission_email : string;
  submission_secret : string;
  submission_url : string;
  answer : Py.pyval
}.

Record ParsedQuestion := mkParsedQuestion {
  question_text : string;
  submit_url : string;
  resources : list string;
  expected_type : AnswerType;
  instructions : option string
}.

(** [ProcessingResult]; its [metadata] is never read by the embedded code. *)
Record ProcessingResult := mkProcessingResult {
  content : string
}.

Record LLMReasoningRequest := mkLLMReasoningRequest {
  question : string;
  context : string;
  request_type : AnswerType;      (* [expected_type] *)
  attempt_number : Z
}.

Record LLMReasoningResponse := mkLLMReasoningResponse {
  reasoning : string;
  response_answer : Py.pyval;     (* [answer] *)
  confidence : Py.float
}.

(** The dict both browsers return for a page. *)
Record PageContent := mkPageContent {
  html : string;
  visible_text : string;
  scripts : string;
  full_html : string
}.

End Types.

(* ================================================================== *)
(** * app/settings.py                                                  *)
(* ================================================================== *)
Module Settings.

(** The fields of [Settings] the embedded code reads; the environment may
    override their defaults. *)
Record Settings := mkSettings {
  MAX_QUIZ_ATTEMPTS : Z;
  RETRY_DELAY : Q
}.

Definition defaults : Settings :=
  {| MAX_QUIZ_ATTEMPTS := 3; RETRY_DELAY := 2 |}.

End Settings.

(* ================================================================== *)
(** * Effects

    The code talks to a clock, two browsers, a resource fetcher, the
    language-model backends and the scoring endpoint.  A run is a function
    of the [World]: every call to the outside is recorded as an [event],
    and the world answers it from the events so far.  A computation threads
    the record of events and the one piece of state the embedded classes
    keep between calls: whether the submitter holds an HTTP session
    (making the session object is no call to the outside). *)
(* ================================================================== *)
Module Effects.
Import Py Types.

Inductive component := Browser | FallbackBrowser | Fetcher | Submitter.

Inductive event :=
| Clock                                          (* time.time() *)
| PageGet (u : string)                           (* browser.get_page_content *)
| FallbackGet (u : string)                       (* fallback_browser.get_page_content *)
| Fetch (u : string) (headers : dict string)     (* fetcher.fetch_resource *)
| Generate (model_name prompt : string)          (* model.generate_content *)
| Post (u : string) (payload : pyval)            (* session.post(u, json=payload) *)
| Sleep (seconds : Q)                            (* asyncio.sleep *)
| Close (c : component).

Definition history := list event.

(** What [generate_content] hands back: the text, and whether the response
    carries a prompt feedback with no block reason. *)
Record Generation := mkGeneration {
  text : string;
  feedback_clear : bool
}.

Record World := {
  (** Seconds since the epoch, as an exact rational. *)
  time_time : history -> Q;
  browser_page : string -> history -> result PageContent;
  fallback_page : string -> history -> result PageContent;
  fetched : string -> dict string -> history -> result ProcessingResult;
  generated : string -> string -> history -> result Generation;
  (** Status (an HTTP status code: three digits) and body of the response
      to a POST. *)
  posted : string -> pyval -> history -> result (Z * string);
  closed : component -> history -> result unit;
  (** [QuizResponse] built from a decoded body, and [AnswerSubmission]
      built from its four fields: pydantic's validation. *)
  quiz_response : pyval -> result QuizResponse;
  answer_submission :
    string -> string -> string -> pyval -> result AnswerSubmission
}.

Record state := mkState {
  events : history;
  session : bool                  (* AnswerSubmitter.session is not None *)
}.

Definition M (A : Type) : Type := state -> result A * state.

Definition ret {A} (a : A) : M A := fun s => (Ok a, s).
Definition raise {A} (e : exn) : M A := fun s => (Raise e, s).

Definition bind {A B} (m : M A) (k : A -> M B) : M B :=
  fun s =>
    match m s with
    | (Ok a, s') => k a s'
    | (Raise e, s') => (Raise e, s')
    end.

(** [try: m  except Exception as e: handler e]. *)
Definition try_except {A} (m : M A) (handler : exn -> M A) : M A :=
  fun s =>
    match m s with
    | (Ok a, s') => (Ok a, s')
    | (Raise e, s') => handler e s'
    end.

(** A pure computation that may raise. *)
Definition lift {A} (r : result A) : M A := fun s => (r, s).

(** A call to the outside: the world answers from the events so far, and
    the call is recorded. *)
Definition perform {A} (ev : event) (answer : history -> result A) : M A :=
  fun s => (answer (events s), mkState (events s ++ [ev])%list (session s)).

Definition get_session_flag : M bool := fun s => (Ok (session s), s).
Definition set_session_flag (b : bool) : M unit :=
  fun s => (Ok tt, mkState (events s) b).

Declare Scope monad_scope.
Delimit Scope monad_scope with monad.
Notation "x <- m ;; k" := (bind m (fun x => k))
  (at level 61, m at next level, right associativity) : monad_scope.
Notation "m ;; k" := (bind m (fun _ => k))
  (at level 61, right associativity) : monad_scope.

Section Calls.
Variable w : World.

Definition now : M Q := perform Clock (fun h => Ok (time_time w h)).
Definition sleep (seconds : Q) : M unit :=
  perform (Sleep seconds) (fun _ => Ok tt).
Definition browser_get_page_content (u : string) : M PageContent :=
  perform (PageGet u) (browser_page w u).
Definition fallback_get_page_content (u : string) : M PageContent :=
  perform (FallbackGet u) (fallback_page w u).
Definition fetch_resource (u : string) (headers : dict string)
  : M ProcessingResult :=
  perform (Fetch u headers) (fetched w u headers).
Definition generate_content (model_name prompt : string) : M Generation :=
  perform (Generate model_name prompt) (generated w model_name prompt).
Definition post (u : string) (payload : pyval) : M (Z * string) :=
  perform (Post u payload) (posted w u payload).
Definition close (c : component) : M unit :=
  perform (Close c) (closed w c).
End Calls.

(** The initial state of a run. *)
Definition start : state := mkState [] false.

End Effects.

(* ================================================================== *)
(** * app/utils.py                                                     *)
(* ================================================================== *)
Module Utils.
Import Py Effects.
Local Open Scope monad_scope.

Section Retry.
Context {A : Type}.
Variable max_attempts : nat.
Variable backoff : Q.
Variable func : M A.

(** The loop of [async_retry]'s wrapper from iteration [attempt] on, with
    [todo] iterations left.  The call is repeated only when it raises;
    between two calls the wrapper sleeps [current_delay] and multiplies
    it by [backoff]; after the last call the last exception is raised. *)
Fixpoint retry_from (todo attempt : nat) (current_delay : Q)
         (last_exception : option exn) : M A :=
  match todo with
  | O =>
      match last_exception with
      | Some e => raise e
      | None => raise (Exn "TypeError"
                           "exceptions must derive from BaseException")
      end
  | S todo' =>
      try_except func (fun e =>
        if attempt <? max_attempts - 1 then
          sleep current_delay ;;
          retry_from todo' (S attempt) (current_delay * backoff)%Q (Some e)
        else
          retry_from todo' (S attempt) current_delay (Some e))
  end.
End Retry.

(** [@async_retry(max_attempts, delay, backoff)] applied to [func]. *)
Definition async_retry {A} (max_attempts : nat) (delay backoff : Q)
           (func : M A) : M A :=
  retry_from max_attempts backoff func max_attempts 0 delay None.

(** The default of the decorator's [backoff] parameter. *)
Definition default_backoff : Q := 2.

End Utils.

(* ================================================================== *)
(** * app/parser.py                                                    *)
(* ================================================================== *)
Module Parser.
Import Py Types.

(** The pieces the header patterns are spelled with. *)
Definition ws_star : list atom := [Atom is_space Star].       (* \s*      *)
Definition ws_plus : list atom := [Atom is_space Plus].       (* \s+      *)
Definition rest_of_line : list atom := [Atom (none_of [LF]) Plus]. (* [^\n]+ *)
Definition token : list atom :=                               (* [^\s\n]+ *)
  [Atom (fun c => negb (is_space c) && negb (Ascii.eqb c LF)) Plus].
Definition dash_or_ws_opt : list atom :=                      (* [-\s]?   *)
  [Atom (fun c => Ascii.eqb c "-"%char || is_space c) Opt].

(** [patterns] of [extract_api_headers], compiled with [re.IGNORECASE]. *)
Definition authorization_patterns : list regex :=
  [ Regex (ilit "Authorization:" ++ ws_star) (Some rest_of_line) [];
    Regex (ilit "Use Authorization:" ++ ws_star) (Some rest_of_line) [];
    Regex (ilit "Bearer" ++ ws_plus) (Some token) [];
    Regex (ilit "Authorization" ++ ws_plus ++ ilit "header:" ++ ws_star)
          (Some rest_of_line) [] ]%list.

Definition api_key_patterns : list regex :=
  [ Regex (ilit "X-API-Key:" ++ ws_star) (Some rest_of_line) [];
    Regex (ilit "API" ++ dash_or_ws_opt ++ ilit "key:" ++ ws_star)
          (Some rest_of_line) [];
    Regex (ilit "Use API key:" ++ ws_star) (Some rest_of_line) [] ]%list.

Definition content_type_patterns : list regex :=
  [ Regex (ilit "Content-Type:" ++ ws_star) (Some rest_of_line) [] ]%list.

Definition patterns : list (string * list regex) :=
  [ ("Authorization", authorization_patterns);
    ("X-API-Key", api_key_patterns);
    ("Content-Type", content_type_patterns) ].

(** The value stored for a match [m] of a pattern of [header_name]. *)
Definition header_value (header_name m : string) : string :=
  if String.eqb header_name "Authorization"
     && negb (contains "bearer" (lower m))
  then "Bearer " ++ strip m
  else strip m.

(** The body of [for match in matches]: it runs for the first match and then
    leaves that loop by [break]; with no match it does not run at all. *)
Definition for_match_in (header_name : string) (matches : list string)
           (headers : dict string) : dict string :=
  match matches with
  | m :: _ => dict_set headers header_name (header_value header_name m)
  | [] => headers
  end.

(** The body of [for pattern in pattern_list]. *)
Definition for_pattern (text header_name : string) (headers : dict string)
           (pattern : regex) : dict string :=
  for_match_in header_name (findall pattern text) headers.

Definition extract_api_headers (text : string) : dict string :=
  fold_left
    (fun headers (entry : string * list regex) =>
       let (header_name, pattern_list) := entry in
       fold_left (for_pattern text header_name) pattern_list headers)
    patterns [].

(** What "first match wins" asks of one header: the value of the first
    pattern of the list that matches, [None] when none does. *)
Fixpoint first_matching (text header_name : string)
         (pattern_list : list regex) : option string :=
  match pattern_list with
  | [] => None
  | p :: rest =>
      match findall p text with
      | m :: _ => Some (header_value header_name m)
      | [] => first_matching text header_name rest
      end
  end.

(** What the loops compute: the value of the last pattern that matches. *)
Fixpoint last_matching (text header_name : string)
         (pattern_list : list regex) : option string :=
  match pattern_list with
  | [] => None
  | p :: rest =>
      match last_matching text header_name rest with
      | Some v => Some v
      | None =>
          match findall p text with
          | m :: _ => Some (header_value header_name m)
          | [] => None
          end
      end
  end.

Definition numeric_words : list string :=
  ["sum"; "count"; "total"; "number"; "how many"; "average"; "mean";
   "maximum"; "max"; "minimum"; "min"; "sequence"; "next number"; "compute"].
Definition yes_no_words : list string :=
  ["true"; "false"; "whether"; "is it"; "answer with"; "yes or no"; "yes/no";
   "prime number"].
Definition json_words : list string := ["json"; "object"; "array"; "dictionary"].
Definition file_words : list string := ["file"; "attachment"; "upload"; "base64"].

Definition _determine_answer_type (text : string) : AnswerType :=
  let text_lower := lower text in
  if contains "is 97 a prime number" text_lower
     && contains "answer with 'yes' or 'no'" text_lower
  then STRING
  else if any_in numeric_words text_lower then NUMBER
  else if any_in yes_no_words text_lower then STRING
  else if any_in json_words text_lower then JSON
  else if any_in file_words text_lower then BASE64_FILE
  else STRING.

(** The methods of [QuizParser] that are not embedded; each is a pure
    function of its arguments.  [_extract_submit_url] joins a relative URL
    with the base URL, and [urljoin] raises ValueError for some texts. *)
Record Extractors := {
  _combine_text_sources : PageContent -> string;
  extract_base64_content : string -> string;
  (** base URL, text, markup *)
  _extract_submit_url : string -> string -> string -> result string;
  _extract_resources : string -> string -> list string;
  _extract_question_text : string -> string
}.

Definition parse_page_content (x : Extractors) (base_url : string)
           (page_content : PageContent) : result ParsedQuestion :=
  let full_text := _combine_text_sources x page_content in
  let base64_content := extract_base64_content x (scripts page_content) in
  let full_text :=
    if negb (String.eqb base64_content EmptyString)
    then full_text ++ String LF (String LF "Decoded Instructions:")
                   ++ String LF base64_content
    else full_text in
  match _extract_submit_url x base_url full_text (html page_content) with
  | Raise e => Raise e
  | Ok submit_url =>
      Ok {| question_text := _extract_question_text x full_text;
            submit_url := submit_url;
            resources := _extract_resources x full_text (html page_content);
            expected_type := _determine_answer_type full_text;
            instructions :=
              if negb (String.eqb base64_content EmptyString)
              then Some base64_content else None |}
  end.

End Parser.


(* ================================================================== *)
(** * app/llm.py                                                       *)
(* ================================================================== *)
Module LLM.
Import Py Types Effects Utils.
Local Open Scope monad_scope.

(** An entry of [LLMEngine.models], without the client object. *)
Record Model := mkModel { model_name : string; role : string }.

(** [l[start:stop]] and [l[start:]] for indices that are not negative. *)
Definition slice {A} (start stop : nat) (l : list A) : list A :=
  firstn (stop - start) (skipn start l).
Definition slice_from {A} (start : nat) (l : list A) : list A := skipn start l.

Section Engine.
Variable rt : Runtime.
Variable w : World.
(** [self.models], as [setup_models] left it. *)
Variable models : list Model.
(** [_build_prompt] is not embedded: the prompt only travels to the
    backend. *)
Variable _build_prompt : LLMReasoningRequest -> Z -> string.

Definition _parse_llm_response (response_text : string)
           (expected_type : AnswerType) : LLMReasoningResponse :=
  let cleaned_text := strip response_text in
  let parsed : option pyval :=      (* [None]: an exception in the [try] *)
    match expected_type with
    | NUMBER =>
        match findall number_pattern cleaned_text with
        | first :: _ =>
            match float_of_decimal first with
            | Some num => int_if_whole num
            | None => None
            end
        | [] => Some (PInt 0)
        end
    | BOOLEAN =>
        Some (PBool (existsb (String.eqb (lower cleaned_text))
                             ["true"; "yes"; "1"; "correct"]))
    | JSON =>
        (* The module does not import [re], and the [import re] of the
           NUMBER branch makes the name local to the function: here it is
           unbound, [re.search] raises, and the bare [except] answers. *)
        Some (PDict [("error", PStr "Invalid JSON format")])
    | BASE64_FILE => Some (PStr cleaned_text)
    | STRING => Some (PStr cleaned_text)
    end in
  match parsed with
  | Some answer =>
      {| reasoning := response_text; response_answer := answer;
         confidence := nearest_float false 8 10 |}
  | None =>
      {| reasoning := response_text; response_answer := PStr cleaned_text;
         confidence := nearest_float false 5 10 |}
  end.

Definition _calculate_confidence (response : Generation) (answer : pyval)
  : float :=
  let confidence := nearest_float false 7 10 in
  let confidence :=
    if feedback_clear response
    then fadd confidence (nearest_float false 2 10) else confidence in
  let confidence :=
    if negb (truthy answer)
       || match answer with
          | PStr s => length (strip s) <? 2
          | _ => false
          end
    then fsub confidence (nearest_float false 3 10) else confidence in
  let low := nearest_float false 1 10 in
  let high := nearest_float false 1 1 in
  let capped := if flt confidence high then confidence else high in
  if flt low capped then capped else low.

(** [sum(map(int, numbers))] from the running [total] on: the first
    [int] that raises ends it. *)
Fixpoint sum_ints (numbers : list string) (total : Z) : result Z :=
  match numbers with
  | [] => Ok total
  | n :: rest =>
      match int_of_token rt n with
      | Ok v => sum_ints rest (total + v)%Z
      | Raise e => Raise e
      end
  end.

Definition _fallback_reasoning (request : LLMReasoningRequest)
  : result LLMReasoningResponse :=
  let question_lower := lower (question request) in
  let default :=
    {| reasoning := "Fallback: All models failed, using default response";
       response_answer :=
         match request_type request with
         | STRING => PStr "Unknown"
         | _ => PInt 0
         end;
       confidence := nearest_float false 1 10 |} in
  if contains "sum" question_lower && contains "value" question_lower then
    match findall digits_pattern (context request) with
    | [] => Ok default
    | numbers =>
        match sum_ints numbers 0 with
        | Ok total =>
            Ok {| reasoning := "Fallback: Summed all numbers found in context";
                  response_answer := PInt total;
                  confidence := nearest_float false 3 10 |}
        | Raise e => Raise e
        end
    end
  else Ok default.

(** The backends an attempt may try. *)
Definition models_to_try (attempt : Z) : list Model :=
  if (attempt =? 0)%Z then slice 0 2 models
  else if (attempt =? 1)%Z then slice 1 3 models
  else slice_from 2 models.

(** The [for] loop of [reason_about_question] from position [model_index]
    of a window of [n] backends.  Falling off the end of the loop, the
    function returns [None]; an exception of the fallback, raised in the
    handler, leaves the function. *)
Fixpoint try_models (request : LLMReasoningRequest) (prompt : string)
         (n model_index : nat) (rest : list Model)
  : M (option LLMReasoningResponse) :=
  match rest with
  | [] => ret None
  | m :: rest' =>
      try_except
        (response <- generate_content w (model_name m) prompt ;;
         let result :=
           _parse_llm_response (text response) (request_type request) in
         ret (Some {| reasoning := reasoning result;
                      response_answer := response_answer result;
                      confidence :=
                        _calculate_confidence response
                                              (response_answer result) |}))
        (fun e =>
           if model_index =? n - 1 then
             fallback <- lift (_fallback_reasoning request) ;;
             ret (Some fallback)
           else try_models request prompt n (S model_index) rest')
  end.

(** The function under the decorator. *)
Definition reason_about_question_body (request : LLMReasoningRequest)
           (attempt : Z) : M (option LLMReasoningResponse) :=
  let prompt := _build_prompt request attempt in
  let window := models_to_try attempt in
  try_models request prompt (List.length window) 0 window.

(** [@async_retry(max_attempts=3, delay=1)] *)
Definition reason_about_question (request : LLMReasoningRequest)
           (attempt : Z) : M (option LLMReasoningResponse) :=
  async_retry 3 1 default_backoff (reason_about_question_body request attempt).

End Engine.
End LLM.

(* ================================================================== *)
(** * app/submitter.py                                                 *)
(* ================================================================== *)
Module Submitter.
Import Py Types Effects Utils.
Local Open Scope monad_scope.

Section AnswerSubmitter.
Variable rt : Runtime.
Variable w : World.

(** [get_session]: the session object is made on first use and kept. *)
Definition get_session : M unit :=
  has <- get_session_flag ;;
  if has then ret tt else set_session_flag true.

(** [close]: closes the session, if there is one, and forgets it. *)
Definition close_session : M unit :=
  has <- get_session_flag ;;
  if has then (Effects.close w Effects.Submitter ;; set_session_flag false)
  else ret tt.

Definition payload_of (submission : AnswerSubmission) : pyval :=
  PDict [ ("email", PStr (submission_email submission));
          ("secret", PStr (submission_secret submission));
          ("url", PStr (submission_url submission));
          ("answer", answer submission) ].

Definition _get_payload_size (payload : pyval) : result Z :=
  match json_dumps rt payload with
  | Ok text => Ok (getsizeof rt text)
  | Raise e => Raise e
  end.

Definition _validate_payload_size (payload : pyval) : result bool :=
  match _get_payload_size payload with
  | Ok payload_size => Ok (payload_size <? 1000000)%Z
  | Raise e => Raise e
  end.

Definition size_verdict : QuizResponse :=
  {| correct := false; url := None;
     reason := Some "Payload size exceeds 1MB limit" |}.

(** The function under the decorator. *)
Definition submit_answer_body (submission : AnswerSubmission)
           (submit_url : string) : M QuizResponse :=
  get_session ;;
  try_except
    (let payload := payload_of submission in
     valid <- lift (_validate_payload_size payload) ;;
     if negb valid then ret size_verdict
     else
       response <- post w submit_url payload ;;
       let (status, response_text) := response in
       if (status =? 200)%Z then
         match json_loads rt response_text with
         | Some data => lift (quiz_response w data)
         | None =>
             let e := json_error rt response_text in
             if String.eqb (exn_class e) "JSONDecodeError" then
               ret {| correct := contains "correct" (lower response_text);
                      url := None;
                      reason := Some response_text |}
             else raise e
         end
       else
         ret {| correct := false; url := None;
                reason := Some ("HTTP " ++ str_of_int status ++ ": "
                                        ++ response_text) |})
    (fun e =>
       ret {| correct := false; url := None; reason := Some (exn_text e) |}).

(** [@async_retry(max_attempts=3, delay=1)] *)
Definition submit_answer (submission : AnswerSubmission)
           (submit_url : string) : M QuizResponse :=
  async_retry 3 1 default_backoff (submit_answer_body submission submit_url).

End AnswerSubmitter.
End Submitter.

(* ================================================================== *)
(** * app/solver.py                                                    *)
(* ================================================================== *)
Module Solver.
Import Py Types Effects Utils Parser LLM Submitter.
Local Open Scope monad_scope.

Section Coercion.
Variable rt : Runtime.

(** Whether the text is the base64 form of a UTF-8 text that holds
    "hello world" in any case: the [try] block of the BASE64_FILE
    branch, [false] when it ends without returning (an exception
    swallowed by [except: pass], or the test failing). *)
Definition already_encoded (answer : string) : bool :=
  match b64decode answer with
  | Some decoded =>
      match decode decoded with
      | Some decoded_text =>
          wide_contains "hello world" (wide_lower decoded_text)
      | None => false
      end
  | None => false
  end.

(** [f(str(answer))] inside a [try]; [None] stands for the exception of
    [str]. *)
Definition with_str (answer : pyval) (f : string -> pyval) : option pyval :=
  match str rt answer with
  | Ok s => Some (f s)
  | Raise _ => None
  end.

(** The body of the [try] of [_enforce_answer_type]; [None] stands for
    an exception. *)
Definition enforce_body (answer : pyval) (expected_type : AnswerType)
  : option pyval :=
  match expected_type with
  | NUMBER =>
      match answer with
      | PBool _ | PInt _ => Some answer
      | PFloat x =>
          if is_integer x then option_map PInt (int_of_float x)
          else Some answer
      | PStr s =>
          match findall number_pattern s with
          | first :: _ =>
              match float_of_decimal first with
              | Some num => int_if_whole num
              | None => None
              end
          | [] => Some (PInt 0)
          end
      | PNone | PList _ | PDict _ =>
          (* num = float(answer) if answer else 0: float() of these
             objects is a TypeError; then num.is_integer() on the int 0 *)
          if truthy answer then None
          else if int_has_is_integer rt then Some (PInt 0)
          else None
      end
  | BASE64_FILE =>
      match answer with
      | PStr s =>
          if already_encoded s then Some answer
          else if contains "hello world" (lower s)
          then Some (PStr (b64encode (encode s)))
          else Some (PStr (b64encode (encode s)))
      | _ => with_str answer (fun s => PStr (b64encode (encode s)))
      end
  | BOOLEAN =>
      match answer with
      | PBool _ => Some answer
      | PStr s =>
          Some (PBool (existsb (String.eqb (lower s))
                               ["true"; "yes"; "1"; "correct"]))
      | _ => Some (PBool (truthy answer))
      end
  | JSON =>
      match answer with
      | PDict _ | PList _ => Some answer
      | PStr s =>
          match json_loads rt s with
          | Some v => Some v
          | None => Some (PDict [("answer", PStr s)])
          end
      | _ => with_str answer (fun s => PDict [("answer", PStr s)])
      end
  | STRING => with_str answer PStr
  end.

(** [QuizSolver._enforce_answer_type]: an exception of the body is
    answered by [str(answer)], and an exception of that [str] leaves the
    function. *)
Definition _enforce_answer_type (answer : pyval)
           (expected_type : AnswerType) : result pyval :=
  match enforce_body answer expected_type with
  | Some v => Ok v
  | None =>
      match str rt answer with
      | Ok s => Ok (PStr s)
      | Raise e => Raise e
      end
  end.

End Coercion.

(** How a run of [solve_chain] ends: the loop was left with this value of
    [current_url]; or an exception reached the handler of [solve_chain];
    or the fuel of the model ran out first. *)
Inductive chain_end :=
| Halted (current_url : option string)
| Stopped (e : exn)
| OutOfFuel.

(** How one pass through the body of the loop ends. *)
Inductive page_end :=
| Break
| Next (current_url : option string).

Section QuizSolver.
Variable rt : Runtime.
Variable w : World.
Variable settings : Settings.Settings.
Variable x : Extractors.
(** The engine's models and prompt builder. *)
Variable models : list Model.
Variable _build_prompt : LLMReasoningRequest -> Z -> string.
(** The arguments of [QuizSolver(request, start_time)]. *)
Variable request : QuizRequest.
Variable start_time : Q.

(** Truth value of a [str] or [None]. *)
Definition is_set (u : option string) : bool :=
  match u with
  | Some v => negb (String.eqb v EmptyString)
  | None => false
  end.

Definition _is_timed_out : M bool :=
  t <- now w ;; ret (negb (Qle_bool (t - start_time) 180)).

Definition _get_question_content (current_url : string)
  : M (option ParsedQuestion) :=
  page <-
    try_except
      (p <- browser_get_page_content w current_url ;; ret (Some p))
      (fun _ =>
         try_except
           (p <- fallback_get_page_content w current_url ;; ret (Some p))
           (fun _ => ret None)) ;;
  match page with
  | Some page_content =>
      (* the dict of a page is never empty *)
      try_except
        (question <- lift (parse_page_content x current_url page_content) ;;
         ret (Some question))
        (fun _ => ret None)
  | None => ret None
  end.

(** [str(headers)] *)
Definition headers_text (headers : dict string) : string :=
  repr (float_repr rt)
       (PDict (map (fun kv : string * string => (fst kv, PStr (snd kv)))
                   headers)).

(** What one resource adds to [context_parts]. *)
Definition resource_parts (headers : dict string) (resource_url : string)
  : M (list string) :=
  try_except
    (result <- fetch_resource w resource_url headers ;;
     ret (List.app
            ["Resource: " ++ resource_url]
            (List.app
               match headers with
               | [] => []
               | _ => ["Headers used: " ++ headers_text headers]
               end
               ["Content: " ++ content result; "---"])))
    (fun e =>
       ret ["Error fetching " ++ resource_url ++ ": " ++ exn_text e]).

Fixpoint for_resources (headers : dict string) (resources : list string)
         (context_parts : list string) : M (list string) :=
  match resources with
  | [] => ret context_parts
  | resource_url :: rest =>
      parts <- resource_parts headers resource_url ;;
      for_resources headers rest (context_parts ++ parts)%list
  end.

Definition _process_resources (current_url : string)
           (resources : list string) : M string :=
  match resources with
  | [] => ret "No external resources required."
  | _ =>
      headers <-
        try_except
          (page_content <- fallback_get_page_content w current_url ;;
           ret (extract_api_headers (visible_text page_content)))
          (fun _ => ret []) ;;
      context_parts <-
        for_resources headers resources ["EXTERNAL RESOURCES:"] ;;
      ret (join (one LF) context_parts)
  end.

Definition _reason_about_answer (question : ParsedQuestion)
           (context : string) (attempt : Z) : M pyval :=
  let reasoning_request :=
    {| Types.question := question_text question;
       Types.context := context;
       request_type := expected_type question;
       attempt_number := attempt + 1 |} in
  result <-
    reason_about_question rt w models _build_prompt reasoning_request
                          attempt ;;
  match result with
  | Some r =>
      (* the log line formats result.answer *)
      lift (str rt (response_answer r)) ;;
      enforced_answer <-
        lift (_enforce_answer_type rt (response_answer r)
                                   (expected_type question)) ;;
      (* the log line formats enforced_answer *)
      lift (str rt enforced_answer) ;;
      ret enforced_answer
  | None =>
      raise (Exn "AttributeError"
                 "'NoneType' object has no attribute 'answer'")
  end.

Definition _submit_answer (current_url : string) (question : ParsedQuestion)
           (answer : pyval) : M QuizResponse :=
  let final_answer :=
    match expected_type question, answer with
    | NUMBER, PStr s =>
        let converted :=
          if contains "." s then option_map PFloat (float_of_str rt s)
          else option_map PInt (int_of_str rt s) in
        match converted with
        | Some v => v
        | None => answer
        end
    | _, _ => answer
    end in
  submission <-
    lift (answer_submission w (email request) (secret request)
                            current_url final_answer) ;;
  (* the log line formats final_answer *)
  lift (str rt final_answer) ;;
  submit_answer rt w submission (submit_url question).

(** The [for] loop of [_solve_with_retries] from [attempt] on, with
    [todo] attempts left. *)
Fixpoint attempts_from (current_url : string) (question : ParsedQuestion)
         (context : string) (todo : nat) (attempt : Z)
         (last_result : option QuizResponse) : M (option QuizResponse) :=
  match todo with
  | O => ret last_result
  | S todo' =>
      answer <- _reason_about_answer question context attempt ;;
      result <- _submit_answer current_url question answer ;;
      if correct result then ret (Some result)
      else
        (if (attempt <? Settings.MAX_QUIZ_ATTEMPTS settings - 1)%Z
         then sleep (Settings.RETRY_DELAY settings) else ret tt) ;;
        attempts_from current_url question context todo' (attempt + 1)
                      (Some result)
  end.

Definition _solve_with_retries (current_url : string)
           (question : ParsedQuestion) (context : string)
  : M (option QuizResponse) :=
  attempts_from current_url question context
                (Z.to_nat (Settings.MAX_QUIZ_ATTEMPTS settings)) 0 None.

(** Step 4 of the loop body: the next value of [current_url]. *)
Definition decide_next (final_result : QuizResponse) : option string :=
  if correct final_result && is_set (url final_result) then url final_result
  else if negb (correct final_result) && is_set (url final_result)
  then url final_result
  else None.

(** The body of the [while] loop for the page at [current_url]. *)
Definition solve_page (current_url : string) : M page_end :=
  question <- _get_question_content current_url ;;
  match question with
  | None => ret Break
  | Some q =>
      context <- _process_resources current_url (resources q) ;;
      final_result <- _solve_with_retries current_url q context ;;
      match final_result with
      | Some r => ret (Next (decide_next r))
      | None =>
          raise (Exn "AttributeError"
                     "'NoneType' object has no attribute 'correct'")
      end
  end.

(** [while self.current_url and not self._is_timed_out()], with [fuel]
    passes at most; [None] when the fuel runs out. *)
Fixpoint while_loop (fuel : nat) (current_url : option string)
  : M (option (option string)) :=
  match fuel with
  | O => ret None
  | S fuel' =>
      match current_url with
      | Some u =>
          if is_set current_url then
            timed_out <- _is_timed_out ;;
            if timed_out then ret (Some current_url)
            else
              r <- solve_page u ;;
              match r with
              | Break => ret (Some current_url)
              | Next u' => while_loop fuel' u'
              end
          else ret (Some current_url)
      | None => ret (Some current_url)
      end
  end.

Definition _cleanup : M unit :=
  try_except
    (Effects.close w Browser ;;
     Effects.close w FallbackBrowser ;;
     Effects.close w Fetcher ;;
     close_session w)
    (fun _ => ret tt).

Definition solve_chain (fuel : nat) : M chain_end :=
  r <- try_except
         (u <- while_loop fuel (Some (request_url request)) ;;
          ret (match u with
               | Some current_url => Halted current_url
               | None => OutOfFuel
               end))
         (fun e => ret (Stopped e)) ;;
  _cleanup ;;
  ret r.

End QuizSolver.

End Solver.

(* ================================================================== *)
(** * More of the Python runtime: text, [re.sub]                       *)
(* ================================================================== *)
Module Text.
Import Py.

(** [s.endswith(suffix)]: [suffix] is [s] or a suffix of its tail. *)
Fixpoint ends_with (suffix s : string) : bool :=
  String.eqb suffix s
  || match s with
     | EmptyString => false
     | String _ s' => ends_with suffix s'
     end.

(** [s[n:]] *)
Fixpoint drop (n : nat) (s : string) : string :=
  match n, s with
  | S n', String _ s' => drop n' s'
  | _, _ => s
  end.

(** [s.find(sub)]; [None] is -1. *)
Fixpoint str_find (sub s : string) : option nat :=
  if starts_with sub s then Some 0
  else
    match s with
    | EmptyString => None
    | String _ s' => option_map S (str_find sub s')
    end.

(** [s.split(sep)] for a separator of one character. *)
Fixpoint str_split (sep : ascii) (s : string) : list string :=
  match s with
  | EmptyString => [EmptyString]
  | String c s' =>
      if Ascii.eqb c sep then EmptyString :: str_split sep s'
      else
        match str_split sep s' with
        | line :: lines => String c line :: lines
        | [] => [String c EmptyString]
        end
  end.

(** [s.strip(chars)] *)
Fixpoint lstrip_chars (chars : list ascii) (s : string) : string :=
  match s with
  | String c s' => if one_of chars c then lstrip_chars chars s' else s
  | EmptyString => EmptyString
  end.

Fixpoint rstrip_chars (chars : list ascii) (s : string) : string :=
  match s with
  | EmptyString => EmptyString
  | String c s' =>
      match rstrip_chars chars s' with
      | EmptyString =>
          if one_of chars c then EmptyString else String c EmptyString
      | r => String c r
      end
  end.

Definition strip_chars (chars : list ascii) (s : string) : string :=
  rstrip_chars chars (lstrip_chars chars s).

(** ** [re.sub]

    [sub_from m repl skip s]: [m t] is the length of the match of the
    pattern at the head of [t], if there is one; every match is replaced by
    [repl], the scan resuming behind it, and the characters between matches
    are kept.  The patterns of the sources match no empty text; a match of
    length 0 counts as none here. *)
Fixpoint sub_from (m : string -> option nat) (repl : string) (skip : nat)
         (s : string) : string :=
  match skip with
  | S n =>
      match s with
      | String _ s' => sub_from m repl n s'
      | EmptyString => EmptyString
      end
  | O =>
      match s with
      | EmptyString => EmptyString
      | String c s' =>
          match m s with
          | Some (S n) => repl ++ sub_from m repl n s'
          | _ => String c (sub_from m repl 0 s')
          end
      end
  end.

(** The length of the match of [r] at the head of [s]. *)
Definition match_length (r : regex) (s : string) : option nat :=
  option_map snd (match_at r s).

(** [re.sub(r, repl, s)] *)
Definition re_sub (r : regex) (repl s : string) : string :=
  sub_from (match_length r) repl 0 s.

(** A match of [opening.*?closing] under [re.DOTALL] at the head of [s]:
    [opening], then the shortest text that [closing] follows. *)
Definition lazy_block (opening closing s : string) : option nat :=
  if starts_with opening s then
    option_map (fun i => length opening + i + length closing)
               (str_find closing (drop (length opening) s))
  else None.

(** [sep.join(parts)] on decoded texts. *)
Fixpoint wide_join (sep : wide) (parts : list wide) : wide :=
  match parts with
  | [] => []
  | [p] => p
  | p :: rest => (p ++ sep ++ wide_join sep rest)%list
  end.

End Text.

(* ================================================================== *)
(** * app/parser.py: the methods behind [Extractors]                   *)
(* ================================================================== *)
Module QuizParser.
Import Py Types Text.

(** [\s+] *)
Definition spaces : regex := Regex [Atom is_space Plus] None [].

(** [<[^>]+>] *)
Definition tag : regex :=
  Regex [ Atom (is_char "<") One; Atom (none_of [">"%char]) Plus;
          Atom (is_char ">") One ] None [].

(** [<script.*?</script>|<style.*?</style>] under [re.DOTALL]: the first
    alternative, then the second. *)
Definition script_or_style (s : string) : option nat :=
  match lazy_block "<script" "</script>" s with
  | Some n => Some n
  | None => lazy_block "<style" "</style>" s
  end.

Definition _extract_text_from_html (html : string) : string :=
  let text := sub_from script_or_style EmptyString 0 html in
  let text := re_sub tag " " text in
  let text := re_sub spaces " " text in
  strip text.

Definition _combine_text_sources (page_content : PageContent) : string :=
  let texts :=
    if negb (String.eqb (visible_text page_content) EmptyString)
    then [visible_text page_content] else [] in
  let texts :=
    if negb (String.eqb (html page_content) EmptyString)
    then (texts ++ [_extract_text_from_html (html page_content)])%list
    else texts in
  join (one LF) texts.

(** *** Base64 in scripts *)

Definition quote_char : ascii -> bool := one_of [SQUOTE; DQUOTE].

(** [atob_pattern]: the word atob, an opening parenthesis and a quote
    (single or double); the group, one or more characters that are not
    quotes; a quote and a closing parenthesis. *)
Definition atob_pattern : regex :=
  Regex (lit "atob(" ++ [Atom quote_char One])%list
        (Some [Atom (none_of [SQUOTE; DQUOTE]) Plus])
        [Atom quote_char One; Atom (is_char ")") One].

(** [[A-Za-z0-9+/=]] *)
Definition base64_char (c : ascii) : bool :=
  let n := code c in
  ((65 <=? n) && (n <=? 90)) || ((97 <=? n) && (n <=? 122))
  || ((48 <=? n) && (n <=? 57))
  || Ascii.eqb c "+" || Ascii.eqb c "/" || Ascii.eqb c "=".

(** [base64_pattern]: a quote; the group, [[A-Za-z0-9+/=]{20,}={0,2}]; a
    quote.  [x{20,}] is twenty [x] and [x*]; [={0,2}] is [=?=?], which
    tries two, one and no [=] in this order. *)
Definition base64_pattern : regex :=
  Regex [Atom quote_char One]
        (Some (repeat (Atom base64_char One) 20
               ++ [ Atom base64_char Star;
                    Atom (is_char "=") Opt; Atom (is_char "=") Opt ])%list)
        [Atom quote_char One].

(** The body of both loops: a match that does not decode is skipped. *)
Definition decoded_matches (matches : list string) : list wide :=
  flat_map
    (fun m =>
       match b64decode m with
       | Some data =>
           match decode data with
           | Some decoded => [decoded]
           | None => []
           end
       | None => []
       end)
    matches.

(** [extract_base64_content]; the decoded text may hold any code point. *)
Definition extract_base64_content (script_content : string) : wide :=
  let decoded_content := decoded_matches (findall atob_pattern script_content) in
  let decoded_content :=
    (decoded_content
     ++ decoded_matches (findall base64_pattern script_content))%list in
  wide_join [10%N] decoded_content.

(** *** URLs *)

Definition _is_likely_submit_url (url : string) : bool :=
  any_in ["submit"; "answer"; "check"; "verify"; "solution"] (lower url).

Definition _is_resource_url (url : string) : bool :=
  let has_resource_indicator :=
    any_in [".csv"; ".pdf"; ".json"; ".xlsx"; ".txt"; "/api/"; "download";
            "data"; "/table-page"; "/secret-page"] (lower url) in
  let not_submit_url :=
    negb (any_in ["submit"; "answer"; "check"] (lower url)) in
  has_resource_indicator && not_submit_url.

(** One or more characters that are neither white space nor one of
    [<], [>] and the two quotes: the class that ends every URL pattern. *)
Definition url_chars : list atom :=
  [Atom (fun c => negb (is_space c)
                  && none_of ["<"%char; ">"%char; DQUOTE; SQUOTE] c) Plus].

(** [https?://] followed by [url_chars] *)
Definition url_pattern : regex :=
  Regex (lit "http" ++ [Atom (is_char "s") Opt] ++ lit "://" ++ url_chars)%list
        None [].

(** [href=], an optional quote, and the group: one or more characters
    that are no quote, no space and no [>]. *)
Definition href_pattern : regex :=
  Regex (lit "href=" ++ [Atom quote_char Opt])%list
        (Some [Atom (none_of [SQUOTE; DQUOTE; " "%char; ">"%char]) Plus])
        [].

(** [url_patterns] of [_extract_submit_url], compiled with
    [re.IGNORECASE]. *)
Definition url_patterns : list regex :=
  [ Regex (ilit "Post your answer to" ++ [Atom is_space Plus])%list
          (Some url_chars) [];
    Regex (ilit "submit to" ++ [Atom is_space Plus])%list (Some url_chars) [];
    Regex (ilit "POST to" ++ [Atom is_space Plus])%list (Some url_chars) [];
    Regex (ilit "endpoint:" ++ [Atom is_space Star])%list (Some url_chars) [];
    Regex (ilit "url:" ++ [Atom is_space Star])%list (Some url_chars) [];
    Regex (ilit "Submit your answer to:" ++ [Atom is_space Star])%list
          (Some url_chars) [] ].

Section Urls.
(** [urllib.parse.urljoin] is left to the library; it raises ValueError
    for some texts (a bracket in the host part that is no IPv6 address). *)
Variable urljoin : string -> string -> result string.
(** [list(set(l))]: the elements of [l], each once, in the order in which
    the interpreter's set yields them. *)
Variable list_of_set : list string -> list string.
(** [self.base_url] *)
Variable base_url : string.

Definition _normalize_url (url : string) : result string :=
  if starts_with "http" url then Ok url else urljoin base_url url.

(** [for match in matches] of [_extract_submit_url]; [Some] is a
    [return], or the exception of [_normalize_url]. *)
Fixpoint submit_url_in_matches (matches : list string)
  : option (result string) :=
  match matches with
  | [] => None
  | m :: rest =>
      let url :=
        strip_chars [DQUOTE; SQUOTE; ","%char; "."%char; "!"%char; ";"%char]
                    m in
      if _is_likely_submit_url url then Some (_normalize_url url)
      else submit_url_in_matches rest
  end.

Fixpoint submit_url_in_patterns (patterns : list regex) (text : string)
  : option (result string) :=
  match patterns with
  | [] => None
  | pattern :: rest =>
      match submit_url_in_matches (findall pattern text) with
      | Some url => Some url
      | None => submit_url_in_patterns rest text
      end
  end.

Fixpoint submit_url_in_urls (urls : list string) : option (result string) :=
  match urls with
  | [] => None
  | url :: rest =>
      if _is_likely_submit_url url then Some (_normalize_url url)
      else submit_url_in_urls rest
  end.

Definition _extract_submit_url (text html : string) : result string :=
  match submit_url_in_patterns url_patterns text with
  | Some url => url
  | None =>
      match submit_url_in_urls (findall url_pattern text) with
      | Some url => url
      | None => Ok base_url
      end
  end.

Definition _extract_resources (text html : string) : list string :=
  let resources := filter _is_resource_url (findall url_pattern text) in
  let resources :=
    (resources
     ++ filter (fun url => starts_with "http" url && _is_resource_url url)
               (findall href_pattern html))%list in
  list_of_set resources.

End Urls.

(** *** The question text *)

(** One pass of the loop of [_extract_question_text]: the flag
    [in_json_example] and the lines kept so far. *)
Definition question_line (st : bool * list string) (line : string)
  : bool * list string :=
  let (in_json_example, clean_lines) := st in
  let '(in_json_example, continue) :=
    if starts_with "{" (strip line) || contains "your-email" line
    then (true, false)
    else if in_json_example && starts_with "}" (strip line)
    then (false, true)
    else (in_json_example, false) in
  if continue then (in_json_example, clean_lines)
  else if negb in_json_example
          && negb (String.eqb (strip line) EmptyString)
          && negb (starts_with "{" (strip line))
  then (in_json_example, (clean_lines ++ [strip line])%list)
  else (in_json_example, clean_lines).

Definition _extract_question_text (text : string) : string :=
  let lines := str_split LF text in
  let clean_lines := snd (fold_left question_line lines (false, [])) in
  join (one LF) (firstn 10 clean_lines).

End QuizParser.

(* ================================================================== *)
(** * app/llm.py: the models, the prompt, the validation               *)
(* ================================================================== *)
Module LLMEngine.
Import Py Types Effects Utils LLM.
Local Open Scope monad_scope.

(** [expected_type.value] *)
Definition type_value (t : AnswerType) : string :=
  match t with
  | NUMBER => "number"
  | STRING => "string"
  | BOOLEAN => "boolean"
  | JSON => "json"
  | BASE64_FILE => "base64_file"
  end.

(** *** [setup_models] *)

(** The fields of [Settings] that [setup_models] reads. *)
Record ModelSettings := mkModelSettings {
  GEMINI_MODEL_PRIMARY : string;
  GEMINI_MODEL_FALLBACKS : list string
}.

Definition default_models : ModelSettings :=
  {| GEMINI_MODEL_PRIMARY := "gemini-2.0-flash-lite";
     GEMINI_MODEL_FALLBACKS :=
       ["gemini-2.0-flash"; "gemini-2.5-flash"; "gemini-2.5-pro"] |}.

Section Setup.
Variable settings : ModelSettings.
(** The names that [genai.list_models()] yields, or the exception of
    [genai.configure] or of the listing. *)
Variable available : result (list string).
(** Whether [genai.GenerativeModel(name)] returns (it builds the client
    object; [false] is an exception). *)
Variable constructs : string -> bool.

Definition model_configs : list (string * string) :=
  ((GEMINI_MODEL_PRIMARY settings, "primary")
   :: map (fun model => (model, "fallback")) (GEMINI_MODEL_FALLBACKS settings)).

Definition full_model_name (model_name : string) : string :=
  if negb (starts_with "models/" model_name) then "models/" ++ model_name
  else model_name.

(** The loop over [model_configs]: a model that is not listed, or whose
    client cannot be built, is passed over. *)
Definition load_configured (available_model_names : list string)
  : list Model :=
  fold_left
    (fun models (config : string * string) =>
       let (model_name, role) := config in
       if existsb (String.eqb (full_model_name model_name))
                  available_model_names
       then if constructs model_name
            then (models ++ [mkModel model_name role])%list
            else models
       else models)
    model_configs [].

(** The loop over the listed names when no configured model was loaded:
    the first flash model whose client can be built. *)
Fixpoint load_emergency (available_model_names : list string) : list Model :=
  match available_model_names with
  | [] => []
  | model_name :: rest =>
      if contains "gemini" model_name && contains "flash" model_name then
        if constructs model_name then [mkModel model_name "emergency"]
        else load_emergency rest
      else load_emergency rest
  end.

(** [setup_models]: [self.models] when it returns. *)
Definition setup_models : result (list Model) :=
  match available with
  | Raise e => Raise e
  | Ok available_model_names =>
      let models := load_configured available_model_names in
      let models :=
        match models with
        | [] => load_emergency available_model_names
        | _ => models
        end in
      match models with
      | [] => Raise (Exn "Exception" "No Gemini models available")
      | _ => Ok models
      end
  end.

End Setup.

(** *** [_build_prompt] *)

Definition type_instruction (yes_no : bool) (t : AnswerType) : string :=
  match t with
  | NUMBER => "You MUST respond with ONLY a number. No explanation, no text, just the numerical answer."
  | STRING =>
      if yes_no
      then "You MUST respond with ONLY 'yes' or 'no'. No other text."
      else "You MUST respond with ONLY a string answer. No additional text."
  | BOOLEAN => "You MUST respond with ONLY 'true' or 'false'. No other text."
  | JSON => "You MUST respond with valid JSON only. No other text."
  | BASE64_FILE => "You MUST respond with the file content or instructions for file generation."
  end.

Definition yes_no_phrases : list string :=
  ["answer 'yes' or 'no'"; "answer with 'yes'"; "yes or no"; "yes/no"].

Definition _build_prompt (request : LLMReasoningRequest) (attempt : Z)
  : string :=
  let attempt_context :=
    if (0 <? attempt)%Z
    then String LF ("NOTE: This is attempt " ++ str_of_int (attempt + 1)
                    ++ ". Previous attempts were incorrect. Please reconsider carefully and double-check your reasoning.")
    else EmptyString in
  let question_lower := lower (question request) in
  let yes_no := any_in yes_no_phrases question_lower in
  let additional_instruction :=
    if yes_no
    then "You MUST respond with ONLY 'yes' or 'no'. Do not use numbers, do not use true/false."
    else if contains "table" question_lower && contains "sum" question_lower
    then "Extract the numbers from the table and compute the sum. Return ONLY the total sum as a number."
    else if contains "table" question_lower
    then "Extract the relevant data from the table. Return ONLY the answer."
    else if contains "json" question_lower && contains "sum" question_lower
    then "Extract the numbers from the JSON and compute the sum. Return ONLY the number."
    else if contains "json" question_lower && contains "max" question_lower
    then "Extract the numbers from the JSON and find the maximum value. Return ONLY the number."
    else if contains "json" question_lower && contains "average" question_lower
    then "Extract the numbers from the JSON and compute the average. Return ONLY the number."
    else if contains "pdf" question_lower
    then "Extract the number from the PDF text as described. Return ONLY the number."
    else EmptyString in
  join (one LF)
    [ EmptyString;
      "        QUESTION: " ++ question request;
      "        ";
      "        CONTEXT AND DATA: " ++ context request;
      "        ";
      "        INSTRUCTIONS:";
      "        1. Analyze the question and available data carefully";
      "        2. Perform any necessary calculations or reasoning";
      "        3. " ++ type_instruction yes_no (request_type request);
      "        4. " ++ additional_instruction;
      "        5. " ++ attempt_context;
      "        6. Be precise and accurate";
      "        ";
      "        IMPORTANT: Your response must be ONLY the answer in the required format. No additional text, no explanations, no markdown.";
      "        ";
      "        Required output type: " ++ type_value (request_type request);
      "        ";
      "        ANSWER:";
      "        " ].

(** *** [validate_answer] *)

Section Validation.
Variable rt : Runtime.
Variable w : World.
Variable models : list Model.

(** The prompt, with [answer_text] for the answer as [str] renders it. *)
Definition validation_prompt (question answer_text : string)
           (expected_type : AnswerType) : string :=
  join (one LF)
    [ EmptyString;
      "            Question: " ++ question;
      "            Proposed Answer: " ++ answer_text;
      "            Expected Type: " ++ type_value expected_type;
      "            ";
      "            Does this answer seem reasonable and correct for the question? ";
      "            Respond with ONLY 'true' or 'false'.";
      "            " ].

Definition validate_answer (question : string) (answer : pyval)
           (expected_type : AnswerType) : M bool :=
  try_except
    (answer_text <- lift (str rt answer) ;;
     let prompt := validation_prompt question answer_text expected_type in
     match models with
     | [] => raise (Exn "IndexError" "list index out of range")
     | model :: _ =>
         response <- generate_content w (model_name model) prompt ;;
         let validation := lower (strip (text response)) in
         ret (existsb (String.eqb validation) ["true"; "yes"])
     end)
    (fun _ => ret true).

End Validation.

End LLMEngine.

(* ================================================================== *)
(** * app/submitter.py: [_compress_payload]                            *)
(* ================================================================== *)
Module Payload.
Import Py.

(** The length above which a [str] answer is cut, and the mark that
    replaces what is cut off. *)
Definition kept : nat := 500 * 1000.
Definition mark : string := "...[truncated]".

(** [_compress_payload], on the entries of the payload. *)
Definition _compress_payload (payload : dict pyval) : dict pyval :=
  match dict_get payload "answer" with
  | Some (PStr answer) =>
      if kept <? length answer
      then dict_set payload "answer" (PStr (take kept answer ++ mark))
      else payload
  | _ => payload
  end.

End Payload.

(* ================================================================== *)
(** * app/fetcher.py: the choice of the processor                      *)
(* ================================================================== *)
Module Fetcher.
Import Py Text.

(** The methods a fetched resource is handed to.  [R] is what such a call
    gives: the awaited [ProcessingResult]. *)
Record Processors (R : Type) := {
  _process_csv : bytes -> R;
  _process_pdf : bytes -> R;
  _process_json : bytes -> R;
  _process_excel : bytes -> R;
  _process_image : bytes -> R;
  _process_html : bytes -> string -> R;
  _process_xml : bytes -> R;
  _process_text : bytes -> R
}.
Arguments _process_csv {R}.
Arguments _process_pdf {R}.
Arguments _process_json {R}.
Arguments _process_excel {R}.
Arguments _process_image {R}.
Arguments _process_html {R}.
Arguments _process_xml {R}.
Arguments _process_text {R}.

Section Dispatch.
Context {R : Type}.
Variable self : Processors R.

(** [any(url.endswith(ext) for ext in exts)] *)
Definition ends_with_any (exts : list string) (url : string) : bool :=
  existsb (fun ext => ends_with ext url) exts.

Definition _auto_detect_process (content : bytes) (url : string) : R :=
  if ends_with ".xlsx" url || ends_with ".xls" url
  then _process_excel self content
  else if ends_with ".csv" url then _process_csv self content
  else if ends_with ".pdf" url then _process_pdf self content
  else if ends_with ".json" url then _process_json self content
  else if ends_with_any [".png"; ".jpg"; ".jpeg"; ".gif"; ".bmp"] url
  then _process_image self content
  else if ends_with ".txt" url then _process_text self content
  else _process_text self content.

(** The branch of [fetch_resource] on the response: [content_type] is the
    header already in lower case, [content] the body. *)
Definition fetch_resource_dispatch (content_type : string) (content : bytes)
           (url : string) : R :=
  if contains "csv" content_type || ends_with ".csv" url
  then _process_csv self content
  else if contains "pdf" content_type || ends_with ".pdf" url
  then _process_pdf self content
  else if contains "json" content_type || ends_with ".json" url
  then _process_json self content
  else if contains "spreadsheet" content_type || contains "excel" content_type
          || ends_with_any [".xlsx"; ".xls"] url
  then _process_excel self content
  else if contains "image" content_type
          || ends_with_any [".png"; ".jpg"; ".jpeg"; ".gif"] url
  then _process_image self content
  else if contains "html" content_type || ends_with ".html" url
          || contains "/table-page" url || contains "/secret-page" url
  then _process_html self content url
  else if contains "xml" content_type || ends_with ".xml" url
  then _process_xml self content
  else if contains "text" content_type || ends_with ".txt" url
  then _process_text self content
  else _auto_detect_process content url.

End Dispatch.
End Fetcher.

(* ================================================================== *)
(** * Properties                                                       *)
(* ================================================================== *)

(** ** Text and dictionaries *)
Section PyFacts.
Import Py.

Lemma starts_with_app (p s : string) :
  starts_with p s = true <-> exists q, s = p ++ q.
Proof.
  revert s; induction p as [|a p IH]; intros s; simpl.
  - split; [intros _; now exists s | reflexivity].
  - destruct s as [|b s]; simpl.
    + split; [discriminate | intros [q Hq]; discriminate].
    + rewrite andb_true_iff, Ascii.eqb_eq, IH. split.
      * intros [-> [q ->]]. now exists q.
      * intros [q Hq]. injection Hq as -> ->. split; [reflexivity | now exists q].
Qed.

(** [contains] decides the substring relation. *)
Lemma contains_spec (sub s : string) :
  contains sub s = true <-> exists p q, s = p ++ sub ++ q.
Proof.
  induction s as [|c s IH]; simpl.
  - rewrite orb_false_r, starts_with_app. split.
    + intros [q Hq]. now exists EmptyString, q.
    + intros [p [q Hq]]. destruct p; simpl in Hq; [now exists q | discriminate].
  - rewrite orb_true_iff, starts_with_app, IH. split.
    + intros [[q Hq] | [p [q Hq]]].
      * now exists EmptyString, q.
      * exists (String c p), q. simpl. now rewrite Hq.
    + intros [p [q Hq]]. destruct p as [|a p]; simpl in Hq.
      * left. now exists q.
      * right. injection Hq as _ Hq. now exists p, q.
Qed.

Lemma dict_get_set_same {V} (d : dict V) k v :
  dict_get (dict_set d k v) k = Some v.
Proof.
  induction d as [|[k' v'] d IH]; simpl.
  - now rewrite String.eqb_refl.
  - destruct (String.eqb k k') eqn:E; simpl; rewrite E; [reflexivity | exact IH].
Qed.

Lemma dict_get_set_other {V} (d : dict V) k k' v :
  k' <> k -> dict_get (dict_set d k v) k' = dict_get d k'.
Proof.
  intros Hne. induction d as [|[k0 v0] d IH]; simpl.
  - destruct (String.eqb k' k) eqn:E; [apply String.eqb_eq in E; contradiction | reflexivity].
  - destruct (String.eqb k k0) eqn:E; simpl.
    + apply String.eqb_eq in E; subst k0.
      destruct (String.eqb k' k) eqn:E'; [apply String.eqb_eq in E'; contradiction | reflexivity].
    + now rewrite IH.
Qed.

(** Assignment never duplicates a key. *)
Lemma keys_dict_set {V} (d : dict V) k v :
  NoDup (keys d) -> NoDup (keys (dict_set d k v)).
Proof.
  unfold keys. induction d as [|[k' v'] d IH]; simpl; intros Hnd.
  - constructor; [intros [] | constructor].
  - inversion Hnd as [|? ? Hnotin Hnd']; subst.
    destruct (String.eqb k k') eqn:E; simpl.
    + constructor; assumption.
    + constructor; [| now apply IH].
      intros Hin. apply Hnotin. clear - Hin E.
      induction d as [|[k0 v0] d IH]; simpl in *.
      * destruct Hin as [<- | []]. now rewrite String.eqb_refl in E.
      * destruct (String.eqb k k0) eqn:E0; simpl in Hin.
        -- exact Hin.
        -- destruct Hin as [H | H]; [now left | right; now apply IH].
Qed.

End PyFacts.

(** ** app/parser.py *)
Section ParserFacts.
Import Py Types Parser.

(** The loop over one header's patterns leaves under that header the value
    of the last pattern that matches; the other headers are untouched. *)
Lemma for_pattern_fold_same text name pattern_list headers :
  dict_get (fold_left (for_pattern text name) pattern_list headers) name
  = match last_matching text name pattern_list with
    | Some v => Some v
    | None => dict_get headers name
    end.
Proof.
  revert headers. induction pattern_list as [|p rest IH]; intros headers; simpl.
  - reflexivity.
  - rewrite IH. destruct (last_matching text name rest); [reflexivity|].
    unfold for_pattern, for_match_in.
    destruct (findall p text); [reflexivity | apply dict_get_set_same].
Qed.

Lemma for_pattern_fold_other text name name' pattern_list headers :
  name' <> name ->
  dict_get (fold_left (for_pattern text name) pattern_list headers) name'
  = dict_get headers name'.
Proof.
  intros Hne. revert headers.
  induction pattern_list as [|p rest IH]; intros headers; simpl; [reflexivity|].
  rewrite IH. unfold for_pattern, for_match_in.
  destruct (findall p text); [reflexivity | now apply dict_get_set_other].
Qed.

Lemma for_pattern_fold_keys text name pattern_list headers :
  NoDup (keys headers) ->
  NoDup (keys (fold_left (for_pattern text name) pattern_list headers)).
Proof.
  revert headers. induction pattern_list as [|p rest IH]; intros headers H; simpl.
  - exact H.
  - apply IH. unfold for_pattern, for_match_in.
    destruct (findall p text); [exact H | now apply keys_dict_set].
Qed.

(** Every header of the result holds the value of the LAST pattern of its
    list that matches the text. *)
Lemma extract_api_headers_last_matching text name pattern_list :
  In (name, pattern_list) patterns ->
  dict_get (extract_api_headers text) name
  = last_matching text name pattern_list.
Proof.
  unfold extract_api_headers, patterns. cbn [fold_left In].
  intros [H | [H | [H | []]]]; injection H as <- <-;
    repeat first
      [ rewrite for_pattern_fold_same
      | rewrite for_pattern_fold_other by discriminate ];
    match goal with |- context [last_matching ?t ?n ?l] =>
      destruct (last_matching t n l) end; reflexivity.
Qed.

(** At most one value per header name. *)
Lemma extract_api_headers_keys text : NoDup (keys (extract_api_headers text)).
Proof.
  unfold extract_api_headers, patterns. cbn [fold_left].
  repeat apply for_pattern_fold_keys. constructor.
Qed.

(** An instruction text with a token line followed by a bearer line. *)
Definition two_tokens : string :=
  "Authorization: Token xyz" ++ String LF "Bearer abc".

(** C8 (as the code runs): on [two_tokens] the first pattern of the
    Authorization list matches and yields "Bearer Token xyz", yet the
    header returned is "Bearer abc", the value of the third pattern: a later
    matching pattern overwrites an earlier one, so the first matching
    pattern does not win. *)
Theorem extract_api_headers_later_pattern_overwrites :
  first_matching two_tokens "Authorization" authorization_patterns
    = Some "Bearer Token xyz"
  /\ extract_api_headers two_tokens = [("Authorization", "Bearer abc")].
Proof. split; vm_compute; reflexivity. Qed.

Lemma _determine_answer_type_cases text :
  In (_determine_answer_type text) [NUMBER; STRING; JSON; BASE64_FILE].
Proof.
  unfold _determine_answer_type.
  repeat match goal with
         | |- context [if ?b then _ else _] => destruct b
         end; simpl; tauto.
Qed.

End ParserFacts.

(** ** base64 and UTF-8 round trips *)
Section Codecs.
Import Py.

Definition all_bytes : list ascii := map ascii_of_nat (seq 0 256).

Lemma in_all_bytes (c : ascii) : In c all_bytes.
Proof.
  unfold all_bytes. rewrite <- (ascii_nat_embedding c).
  apply in_map, in_seq. pose proof (nat_ascii_bounded c). lia.
Qed.

(** A property checked on the 256 bytes holds of every byte. *)
Lemma by_cases1 (P : ascii -> bool) :
  forallb P all_bytes = true -> forall a, P a = true.
Proof. intros H a. rewrite forallb_forall in H. apply H, in_all_bytes. Qed.

Lemma by_cases2 (P : ascii -> ascii -> bool) :
  forallb (fun a => forallb (P a) all_bytes) all_bytes = true ->
  forall a b, P a b = true.
Proof.
  intros H a b. rewrite forallb_forall in H.
  specialize (H a (in_all_bytes a)). now apply by_cases1.
Qed.

(** The four sextets of a group of three bytes. *)
Definition s1 (a : ascii) : N := N.shiftr (val a) 2.
Definition s2 (a b : ascii) : N :=
  N.lor (N.shiftl (N.land (val a) 3) 4) (N.shiftr (val b) 4).
Definition s3 (b c : ascii) : N :=
  N.lor (N.shiftl (N.land (val b) 15) 2) (N.shiftr (val c) 6).
Definition s4 (c : ascii) : N := N.land (val c) 63.

(** [ch] is the data character of value [v]. *)
Definition is_data (ch : ascii) (v : N) : bool :=
  negb (Ascii.eqb ch BASE64_PAD) && (code ch <? 128)
  && match a2b ch with Some w => N.eqb w v | None => false end.

Lemma is_data_elim ch v :
  is_data ch v = true ->
  Ascii.eqb ch BASE64_PAD = false /\ (code ch <? 128) = true /\ a2b ch = Some v.
Proof.
  unfold is_data. rewrite !andb_true_iff, negb_true_iff.
  intros [[H1 H2] H3]. repeat split; trivial.
  destruct (a2b ch); [apply N.eqb_eq in H3; now subst | discriminate].
Qed.

Definition check1 (a : ascii) : bool :=
  is_data (b2a (s1 a)) (s1 a)
  && is_data (b2a (s4 a)) (s4 a)
  && is_data (b2a (N.shiftl (N.land (val a) 3) 4)) (N.shiftl (N.land (val a) 3) 4)
  && is_data (b2a (N.shiftl (N.land (val a) 15) 2)) (N.shiftl (N.land (val a) 15) 2)
  && Ascii.eqb (byte_of (N.lor (N.shiftl (s1 a) 2)
                           (N.shiftr (N.shiftl (N.land (val a) 3) 4) 4))) a
  && N.eqb (N.land (N.shiftl (N.land (val a) 3) 4) 15) 0
  && Ascii.eqb (byte_of (N.lor (N.shiftl (N.shiftr (val a) 4) 4)
                           (N.shiftr (N.shiftl (N.land (val a) 15) 2) 2))) a
  && Ascii.eqb (byte_of (N.lor (N.shiftl (N.shiftr (val a) 6) 6) (s4 a))) a.

Definition check2 (a b : ascii) : bool :=
  is_data (b2a (s2 a b)) (s2 a b)
  && is_data (b2a (s3 a b)) (s3 a b)
  && Ascii.eqb (byte_of (N.lor (N.shiftl (s1 a) 2) (N.shiftr (s2 a b) 4))) a
  && N.eqb (N.land (s2 a b) 15) (N.shiftr (val b) 4)
  && Ascii.eqb (byte_of (N.lor (N.shiftl (N.shiftr (val a) 4) 4)
                           (N.shiftr (s3 a b) 2))) a
  && N.eqb (N.land (s3 a b) 3) (N.shiftr (val b) 6).

Lemma check1_all a : check1 a = true.
Proof. apply by_cases1. vm_compute. reflexivity. Qed.

Lemma check2_all a b : check2 a b = true.
Proof. apply by_cases2. vm_compute. reflexivity. Qed.


(** One step of the decoder on a data character and on a pad. *)
Lemma a2b_base64_data q l p ch v s :
  is_data ch v = true ->
  a2b_base64 q l p (String ch s)
  = match q with
    | 0 => a2b_base64 1 v 0 s
    | 1 => option_map (String (byte_of (N.lor (N.shiftl l 2) (N.shiftr v 4))))
                      (a2b_base64 2 (N.land v 15) 0 s)
    | 2 => option_map (String (byte_of (N.lor (N.shiftl l 4) (N.shiftr v 2))))
                      (a2b_base64 3 (N.land v 3) 0 s)
    | _ => option_map (String (byte_of (N.lor (N.shiftl l 6) v)))
                      (a2b_base64 0 0 0 s)
    end.
Proof.
  intros H. apply is_data_elim in H. destruct H as (Hpad & _ & Hv).
  cbn [a2b_base64]. now rewrite Hpad, Hv.
Qed.

Lemma a2b_base64_pad q l p s :
  a2b_base64 q l p (String BASE64_PAD s)
  = if 2 <=? q then
      if 4 <=? q + S p then Some EmptyString
      else a2b_base64 q l (S p) s
    else a2b_base64 q l p s.
Proof. reflexivity. Qed.

Ltac byte_facts a b :=
  let H := fresh in
  pose proof (check1_all a) as H; unfold check1 in H;
  let G := fresh in
  pose proof (check2_all a b) as G; unfold check2 in G;
  repeat match goal with
         | E : (_ && _) = true |- _ =>
             apply andb_prop in E; let E' := fresh in destruct E as [E E']
         end;
  repeat match goal with
         | E : Ascii.eqb _ _ = true |- _ => apply Ascii.eqb_eq in E
         | E : N.eqb _ _ = true |- _ => apply N.eqb_eq in E
         end.

(** Four characters of an encoded group decode to its three bytes. *)
Lemma a2b_base64_group a b c rest :
  a2b_base64 0 0 0
    (String (b2a (s1 a)) (String (b2a (s2 a b))
      (String (b2a (s3 b c)) (String (b2a (s4 c)) rest))))
  = option_map (fun r => String a (String b (String c r)))
               (a2b_base64 0 0 0 rest).
Proof.
  byte_facts a b. byte_facts b c. byte_facts c c.
  rewrite (a2b_base64_data 0 _ _ _ (s1 a)) by assumption.
  rewrite (a2b_base64_data 1 _ _ _ (s2 a b)) by assumption.
  rewrite (a2b_base64_data 2 _ _ _ (s3 b c)) by assumption.
  rewrite (a2b_base64_data 3 _ _ _ (s4 c)) by assumption.
  repeat match goal with E : N.land _ _ = _ |- _ => rewrite E end.
  repeat match goal with E : byte_of _ = _ |- _ => rewrite E end.
  destruct (a2b_base64 0 0 0 rest); reflexivity.
Qed.

Lemma bytes_ind3 (P : string -> Prop) :
  P EmptyString ->
  (forall a, P (String a EmptyString)) ->
  (forall a b, P (String a (String b EmptyString))) ->
  (forall a b c r, P r -> P (String a (String b (String c r)))) ->
  forall s, P s.
Proof.
  intros H0 H1 H2 H3 s.
  assert (P s /\ (forall a, P (String a s)) /\ (forall a b, P (String a (String b s))))
    as [H _].
  { induction s as [|c s (IH0 & IH1 & IH2)].
    - auto.
    - repeat split; auto. }
  exact H.
Qed.

Lemma a2b_base64_b64encode data :
  a2b_base64 0 0 0 (b64encode data) = Some data.
Proof.
  induction data as [|a|a b|a b c r IH] using bytes_ind3.
  - reflexivity.
  - byte_facts a a. cbn [b64encode].
    rewrite (a2b_base64_data 0 _ _ _ (s1 a)) by assumption.
    erewrite (a2b_base64_data 1) by eassumption.
    change "=="%string with (String BASE64_PAD (String BASE64_PAD EmptyString)).
    rewrite !a2b_base64_pad. cbn [Nat.leb Nat.add option_map].
    repeat match goal with E : byte_of _ = _ |- _ => rewrite E end.
    reflexivity.
  - byte_facts a b. byte_facts b b. cbn [b64encode].
    rewrite (a2b_base64_data 0 _ _ _ (s1 a)) by assumption.
    rewrite (a2b_base64_data 1 _ _ _ (s2 a b)) by assumption.
    erewrite (a2b_base64_data 2) by eassumption.
    change "="%string with (String BASE64_PAD EmptyString).
    rewrite !a2b_base64_pad. cbn [Nat.leb Nat.add option_map].
    repeat match goal with E : N.land _ _ = _ |- _ => rewrite E end.
    repeat match goal with E : byte_of _ = _ |- _ => rewrite E end.
    reflexivity.
  - cbn [b64encode]. fold (s1 a) (s2 a b) (s3 b c) (s4 c).
    rewrite a2b_base64_group, IH. reflexivity.
Qed.

Lemma is_ascii_b64encode data : is_ascii (b64encode data) = true.
Proof.
  induction data as [|a|a b|a b c r IH] using bytes_ind3;
    [ reflexivity
    | byte_facts a a
    | byte_facts a b; byte_facts b b
    | byte_facts a b; byte_facts b c; byte_facts c c ];
    cbn [b64encode is_ascii]; unfold s1, s2, s3, s4 in *;
    repeat match goal with
           | E : is_data _ _ = true |- _ =>
               apply is_data_elim in E; destruct E as (_ & E & _)
           end;
    repeat match goal with E : (code _ <? 128) = true |- _ => rewrite E end;
    first [reflexivity | exact IH].
Qed.

(** [b64decode] undoes [b64encode]. *)
Lemma b64decode_b64encode data : b64decode (b64encode data) = Some data.
Proof.
  unfold b64decode. now rewrite is_ascii_b64encode, a2b_base64_b64encode.
Qed.


(** UTF-8: what [encode] makes of one code point above 127 is read back by
    [decode]. *)
Definition check_utf8 (c : ascii) : bool :=
  (val c <? 128)%N
  || (let b0 := byte_of (N.lor 192 (N.shiftr (val c) 6)) in
      let b1 := byte_of (N.lor 128 (N.land (val c) 63)) in
      negb (val b0 <? 128)%N && in_range 194 223 b0 && is_cont b1
      && N.eqb (N.lor (N.shiftl (N.land (val b0) 31) 6) (low6 b1)) (val c)).

Lemma check_utf8_all c : check_utf8 c = true.
Proof. apply by_cases1. vm_compute. reflexivity. Qed.

(** The code points of a text. *)
Definition code_points (s : string) : wide := map val (list_ascii_of_string s).

Lemma decode_encode s : decode (encode s) = Some (code_points s).
Proof.
  induction s as [|c s IH]; [reflexivity|].
  unfold code_points in *. cbn [encode list_ascii_of_string map].
  pose proof (check_utf8_all c) as H. unfold check_utf8 in H.
  destruct (val c <? 128)%N eqn:E.
  - cbn [decode]. now rewrite E, IH.
  - cbn [orb] in H. cbv zeta in H.
    repeat (apply andb_prop in H; let H' := fresh in destruct H as [H H']).
    apply negb_true_iff in H. apply N.eqb_eq in H0.
    cbn [decode]. now rewrite H, H2, H1, H0, IH.
Qed.

Lemma val_inj a b : (val a =? val b)%N = Ascii.eqb a b.
Proof.
  unfold val. destruct (Ascii.eqb a b) eqn:E.
  - apply Ascii.eqb_eq in E. subst. apply N.eqb_refl.
  - apply N.eqb_neq. intros H. apply Ascii.eqb_neq in E. apply E.
    rewrite <- (ascii_N_embedding a), <- (ascii_N_embedding b). now rewrite H.
Qed.

Lemma wide_lower_code_points s :
  wide_lower (code_points s) = code_points (lower s).
Proof.
  unfold wide_lower, code_points.
  induction s as [|c s IH]; [reflexivity|].
  cbn [lower list_ascii_of_string map]. rewrite IH. f_equal.
  unfold wide_lower_char, val, byte_of.
  pose proof (N_ascii_bounded c) as Hb. apply N.ltb_lt in Hb. rewrite Hb.
  now rewrite ascii_N_embedding.
Qed.

Lemma wide_starts_with_code_points p s :
  wide_starts_with p (code_points s) = starts_with p s.
Proof.
  unfold code_points. revert s.
  induction p as [|a p IH]; intros [|b s]; cbn; try reflexivity.
  now rewrite val_inj, IH.
Qed.

Lemma wide_contains_code_points sub s :
  wide_contains sub (code_points s) = contains sub s.
Proof.
  induction s as [|c s IH].
  - change (code_points EmptyString) with (@nil N).
    cbn [wide_contains contains]. f_equal.
    apply (wide_starts_with_code_points sub EmptyString).
  - change (code_points (String c s)) with (val c :: code_points s).
    cbn [wide_contains contains]. rewrite IH. f_equal.
    apply (wide_starts_with_code_points sub (String c s)).
Qed.

End Codecs.

(** ** app/parser.py: header values *)
Section HeaderFacts.
Import Py Types Parser.

(** *** The Bearer prefix *)

Lemma is_space_lower_char c : is_space (lower_char c) = is_space c.
Proof.
  apply Bool.eqb_prop.
  revert c. apply (by_cases1 (fun c => Bool.eqb (is_space (lower_char c)) (is_space c))).
  vm_compute. reflexivity.
Qed.

Lemma lower_lstrip s : lower (lstrip s) = lstrip (lower s).
Proof.
  induction s as [|c s IH]; [reflexivity|].
  cbn [lstrip lower]. rewrite is_space_lower_char.
  destruct (is_space c); [exact IH | reflexivity].
Qed.

Lemma lower_rstrip s : lower (rstrip s) = rstrip (lower s).
Proof.
  induction s as [|c s IH]; [reflexivity|].
  cbn [rstrip lower]. rewrite <- IH, is_space_lower_char.
  destruct (rstrip s); cbn [lower]; [destruct (is_space c)|]; reflexivity.
Qed.

Lemma lower_strip s : lower (strip s) = strip (lower s).
Proof. unfold strip. now rewrite lower_rstrip, lower_lstrip. Qed.

(** A word: a text that is not empty and has no white space. *)
Fixpoint word (s : string) : bool :=
  match s with
  | EmptyString => false
  | String c EmptyString => negb (is_space c)
  | String c s' => negb (is_space c) && word s'
  end.

Lemma word_head c s : word (String c s) = true -> is_space c = false.
Proof.
  cbn [word]. destruct s; [now rewrite negb_true_iff|].
  rewrite andb_true_iff, negb_true_iff. tauto.
Qed.

Lemma starts_with_word_nonempty w s :
  word w = true -> starts_with w s = true -> s <> EmptyString.
Proof. destruct w, s; cbn; congruence. Qed.

Lemma contains_word_nonempty w s :
  word w = true -> contains w s = true -> s <> EmptyString.
Proof.
  intros Hw H. destruct s; [|discriminate].
  cbn in H. rewrite orb_false_r in H.
  now apply (starts_with_word_nonempty w EmptyString Hw) in H.
Qed.

Lemma contains_lstrip w s :
  word w = true -> contains w s = true -> contains w (lstrip s) = true.
Proof.
  intros Hw. induction s as [|c s IH]; intros H; [exact H|].
  cbn [lstrip]. destruct (is_space c) eqn:Hc; [|exact H].
  apply IH. cbn [contains] in H. apply orb_true_iff in H.
  destruct H as [H | H]; [|exact H].
  destruct w as [|a w]; [discriminate Hw|].
  cbn [starts_with] in H. apply andb_true_iff in H. destruct H as [Hac _].
  apply Ascii.eqb_eq in Hac. subst a.
  apply word_head in Hw. congruence.
Qed.

Lemma starts_with_rstrip w s :
  word w = true -> starts_with w s = true -> starts_with w (rstrip s) = true.
Proof.
  revert s. induction w as [|a w IH]; intros s Hw H; [discriminate Hw|].
  destruct s as [|c s]; [discriminate H|].
  cbn [starts_with] in H. apply andb_true_iff in H. destruct H as [Hac Hrest].
  pose proof (word_head _ _ Hw) as Ha.
  apply Ascii.eqb_eq in Hac. subst c.
  destruct w as [|b w].
  - cbn [rstrip]. destruct (rstrip s); [rewrite Ha|];
      cbn [starts_with]; now rewrite Ascii.eqb_refl.
  - assert (Hw' : word (String b w) = true).
    { cbn [word] in Hw. apply andb_true_iff in Hw. tauto. }
    specialize (IH s Hw' Hrest).
    pose proof (starts_with_word_nonempty _ _ Hw' IH) as Hne.
    cbn [rstrip]. destruct (rstrip s) as [|c r]; [contradiction|].
    cbn [starts_with] in *. now rewrite Ascii.eqb_refl, IH.
Qed.

Lemma contains_rstrip w s :
  word w = true -> contains w s = true -> contains w (rstrip s) = true.
Proof.
  intros Hw. induction s as [|c s IH]; intros H; [exact H|].
  cbn [contains] in H. apply orb_true_iff in H. destruct H as [H | H].
  - apply (starts_with_rstrip w _ Hw) in H.
    destruct (rstrip (String c s)); cbn [contains]; now rewrite H.
  - specialize (IH H). pose proof (contains_word_nonempty _ _ Hw IH) as Hne.
    cbn [rstrip]. destruct (rstrip s) as [|c' r]; [contradiction|].
    cbn [contains] in *. rewrite IH. apply orb_true_r.
Qed.

Lemma contains_strip w s :
  word w = true -> contains w s = true -> contains w (strip s) = true.
Proof.
  intros Hw H. unfold strip. now apply contains_rstrip, contains_lstrip.
Qed.

(** Whatever the match, the value stored under Authorization names the
    Bearer scheme. *)
Lemma header_value_bearer m :
  contains "bearer" (lower (header_value "Authorization" m)) = true.
Proof.
  unfold header_value. cbn [String.eqb Ascii.eqb Bool.eqb andb].
  destruct (contains "bearer" (lower m)) eqn:E; cbn [negb].
  - rewrite lower_strip. now apply contains_strip.
  - reflexivity.
Qed.

Lemma last_matching_value text name pattern_list v :
  last_matching text name pattern_list = Some v ->
  exists m, v = header_value name m.
Proof.
  induction pattern_list as [|p rest IH]; cbn [last_matching]; [discriminate|].
  destruct (last_matching text name rest) as [v'|].
  - intros E. injection E as <-. now apply IH.
  - destruct (findall p text) as [|m ms]; [discriminate|].
    intros E. injection E as <-. now exists m.
Qed.

(** Every Authorization header that [extract_api_headers] returns names
    the Bearer scheme. *)
Lemma extract_api_headers_bearer text v :
  dict_get (extract_api_headers text) "Authorization" = Some v ->
  contains "bearer" (lower v) = true.
Proof.
  rewrite (extract_api_headers_last_matching text "Authorization"
             authorization_patterns) by now left.
  intros H. apply last_matching_value in H. destruct H as [m ->].
  apply header_value_bearer.
Qed.

End HeaderFacts.

(** ** app/solver.py: coercion of the answer *)
Section CoercionFacts.
Import Py Types Solver.

Lemma int_of_whole_float x :
  is_integer x = true -> exists z, int_of_float x = Some z.
Proof. destruct x; cbn; try discriminate; eauto. Qed.

(** A text whose coercion to BASE64_FILE is the base64 of the text itself
    is recognised as encoded when it holds "hello world". *)
Lemma already_encoded_b64encode s :
  already_encoded (b64encode (encode s)) = contains "hello world" (lower s).
Proof.
  unfold already_encoded.
  rewrite b64decode_b64encode, decode_encode, wide_lower_code_points.
  apply wide_contains_code_points.
Qed.

(** A text coerced to NUMBER stays as it is (when [float] rejects the
    token), or becomes a whole number, or a float that is not whole. *)
Lemma enforce_number_text rt s :
  _enforce_answer_type rt (PStr s) NUMBER = Ok (PStr s)
  \/ (exists z, _enforce_answer_type rt (PStr s) NUMBER = Ok (PInt z))
  \/ (exists x, _enforce_answer_type rt (PStr s) NUMBER = Ok (PFloat x)
                 /\ is_integer x = false).
Proof.
  unfold _enforce_answer_type. cbn [enforce_body].
  destruct (findall number_pattern s) as [|first rest].
  - right; left. now exists 0%Z.
  - destruct (float_of_decimal first) as [num|]; [|now left].
    unfold int_if_whole. destruct (is_integer num) eqn:Hn.
    + destruct (int_of_whole_float num Hn) as [z ->]. right; left. now exists z.
    + right; right. now exists num.
Qed.

(** The coercion raises only what [str(answer)] raises. *)
Lemma enforce_raises rt a k e :
  _enforce_answer_type rt a k = Raise e -> str rt a = Raise e.
Proof.
  unfold _enforce_answer_type.
  destruct (enforce_body rt a k); [discriminate|].
  destruct (str rt a); congruence.
Qed.

(** Coercing an answer, and coercing the result again: what the second
    coercion gives, or the exception of the first. *)
Definition coerced_twice (rt : Runtime) (a : pyval) (k : AnswerType)
  : result pyval :=
  match _enforce_answer_type rt a k with
  | Ok r => _enforce_answer_type rt r k
  | Raise e => Raise e
  end.

(** The answers on which coercion to the kind is stable: every answer for
    STRING and BOOLEAN; numbers, booleans and texts for NUMBER; for JSON
    every answer except a text that [json.loads] reads as a scalar; for
    BASE64_FILE the texts that are the base64 form of a greeting (a UTF-8
    text with "hello world" in any case) and the answers whose own text
    holds the greeting. *)
Definition coercion_stable (rt : Runtime) (a : pyval) (k : AnswerType) : bool :=
  match k with
  | STRING | BOOLEAN => true
  | NUMBER =>
      match a with
      | PBool _ | PInt _ | PFloat _ | PStr _ => true
      | PNone | PList _ | PDict _ => false
      end
  | JSON =>
      match a with
      | PStr s =>
          match json_loads rt s with
          | Some (PDict _) | Some (PList _) | None => true
          | Some _ => false
          end
      | _ => true
      end
  | BASE64_FILE =>
      match a with
      | PStr s => already_encoded s || contains "hello world" (lower s)
      | _ =>
          match str rt a with
          | Ok s => contains "hello world" (lower s)
          | Raise _ => false
          end
      end
  end.

(** On a stable answer, what the coercion returns it returns again. *)
Lemma enforce_stable_fixed rt a k r :
  coercion_stable rt a k = true ->
  _enforce_answer_type rt a k = Ok r ->
  _enforce_answer_type rt r k = Ok r.
Proof.
  assert (Hre : forall t, contains "hello world" (lower t) = true ->
            _enforce_answer_type rt (PStr (b64encode (encode t))) BASE64_FILE
            = Ok (PStr (b64encode (encode t)))).
  { intros t Ht. unfold _enforce_answer_type. cbn [enforce_body].
    now rewrite already_encoded_b64encode, Ht. }
  assert (Hstr : forall f : string -> pyval,
            (forall s, _enforce_answer_type rt (f s) k = Ok (f s)) ->
            match with_str rt a f with
            | Some v => Ok v
            | None => match str rt a with
                      | Ok s => Ok (PStr s)
                      | Raise e => Raise e
                      end
            end = Ok r ->
            _enforce_answer_type rt r k = Ok r).
  { intros f Hf. unfold with_str. destruct (str rt a) as [s|e]; [|discriminate].
    intros E. injection E as <-. apply Hf. }
  destruct k; intros Hst E.
  - (* NUMBER *)
    destruct a as [|b|n|x|s|l|d]; try discriminate Hst.
    + injection E as <-. reflexivity.
    + injection E as <-. reflexivity.
    + revert E. unfold _enforce_answer_type at 1. cbn [enforce_body].
      destruct (is_integer x) eqn:Hx.
      * destruct (int_of_whole_float x Hx) as [z ->]. cbn [option_map].
        intros E. injection E as <-. reflexivity.
      * intros E. injection E as <-.
        unfold _enforce_answer_type. cbn [enforce_body]. now rewrite Hx.
    + destruct (enforce_number_text rt s) as [E' | [[z E'] | [x [E' Hx]]]];
        rewrite E' in E; injection E as <-.
      * exact E'.
      * reflexivity.
      * unfold _enforce_answer_type. cbn [enforce_body]. now rewrite Hx.
  - (* STRING *)
    revert E. unfold _enforce_answer_type at 1. cbn [enforce_body].
    apply Hstr. reflexivity.
  - (* BOOLEAN *)
    destruct a; cbn in E; injection E as <-; reflexivity.
  - (* JSON *)
    revert E. unfold _enforce_answer_type at 1.
    destruct a as [|b|n|x|s|l|d]; cbn [enforce_body];
      try (apply Hstr; reflexivity);
      try (intros E; injection E as <-; reflexivity).
    cbn [coercion_stable] in Hst.
    destruct (json_loads rt s) as [[| | | | | |]|]; try discriminate Hst;
      intros E; injection E as <-; reflexivity.
  - (* BASE64_FILE *)
    cbn [coercion_stable] in Hst. revert E. unfold _enforce_answer_type at 1.
    destruct a as [|b|n|x|s|l|d]; cbn [enforce_body];
      try (unfold with_str; destruct (str rt _) as [t|e]; [|discriminate];
           intros E; injection E as <-; now apply Hre).
    destruct (already_encoded s) eqn:Hal; cbn [orb] in Hst.
    + intros E. injection E as <-.
      unfold _enforce_answer_type. cbn [enforce_body]. now rewrite Hal.
    + rewrite Hst. intros E. injection E as <-. now apply Hre.
Qed.

(** C1 (amended): on the stable answers, coercing twice gives what coercing
    once gives -- the same value, or the same exception; and the coercion
    raises only what [str(answer)] raises. *)
Theorem enforce_answer_type_idempotent_on_stable rt a k :
  coercion_stable rt a k = true ->
  coerced_twice rt a k = _enforce_answer_type rt a k
  /\ (forall e, _enforce_answer_type rt a k = Raise e -> str rt a = Raise e).
Proof.
  intros Hst. split; [|intros e; apply enforce_raises].
  unfold coerced_twice.
  destruct (_enforce_answer_type rt a k) as [r|e] eqn:E; [|reflexivity].
  now apply (enforce_stable_fixed rt a k).
Qed.

(** The theorem at work on a greeting still to be encoded. *)
Lemma enforce_answer_type_idempotent_example :
  coercion_stable example_runtime (PStr "Hello World") BASE64_FILE = true
  /\ coerced_twice example_runtime (PStr "Hello World") BASE64_FILE
     = _enforce_answer_type example_runtime (PStr "Hello World") BASE64_FILE.
Proof.
  split.
  - vm_compute. reflexivity.
  - apply (enforce_answer_type_idempotent_on_stable
             example_runtime (PStr "Hello World") BASE64_FILE).
    vm_compute. reflexivity.
Defined.

(** A text without the greeting is encoded again on every pass, whatever
    the runtime. *)
Lemma enforce_answer_type_encodes_twice rt :
  _enforce_answer_type rt (PStr "abc") BASE64_FILE = Ok (PStr "YWJj")
  /\ _enforce_answer_type rt (PStr "YWJj") BASE64_FILE = Ok (PStr "WVdKag==").
Proof. split; vm_compute; reflexivity. Qed.

(** C1 (as stated) fails: coercion is not idempotent on every answer and
    kind. *)
Lemma enforce_answer_type_not_idempotent :
  ~ (forall (rt : Runtime) (a : pyval) (k : AnswerType),
        coerced_twice rt a k = _enforce_answer_type rt a k).
Proof.
  intros H. specialize (H example_runtime (PStr "abc") BASE64_FILE).
  unfold coerced_twice in H.
  destruct (enforce_answer_type_encodes_twice example_runtime) as [E1 E2].
  rewrite E1, E2 in H. discriminate H.
Qed.

(** The other two kinds with unstable answers: a dict coerced to NUMBER
    becomes its text, and that text a number; a text that is a JSON
    scalar is parsed, and the scalar is then wrapped. *)
Example enforce_number_dict :
  _enforce_answer_type example_runtime (PDict [("a", PInt 1)]) NUMBER
  = Ok (PStr "{'a': 1}")
  /\ _enforce_answer_type example_runtime (PStr "{'a': 1}") NUMBER
     = Ok (PInt 1).
Proof. split; vm_compute; reflexivity. Qed.

Example enforce_json_scalar :
  _enforce_answer_type example_runtime (PStr "5") JSON = Ok (PInt 5)
  /\ _enforce_answer_type example_runtime (PInt 5) JSON
     = Ok (PDict [("answer", PStr "5")]).
Proof. split; vm_compute; reflexivity. Qed.

(** An [int] of 4301 digits: [str] raises in the body of the
    coercion to STRING and again in its handler, so the coercion raises,
    once or twice alike. *)
Definition beyond_limit : pyval := PInt (10 ^ 4300).

Example enforce_string_beyond_limit :
  _enforce_answer_type example_runtime beyond_limit STRING
  = Raise (digit_limit_to_str default_max_str_digits)
  /\ coerced_twice example_runtime beyond_limit STRING
     = Raise (digit_limit_to_str default_max_str_digits).
Proof. split; vm_compute; reflexivity. Qed.

End CoercionFacts.

(** ** The effect monad and app/utils.py *)
Section EffectFacts.
Import Py Types Effects Utils.

Lemma bind_ok {A B} (m : M A) (k : A -> M B) s a s' :
  m s = (Ok a, s') -> bind m k s = k a s'.
Proof. unfold bind. now intros ->. Qed.

Lemma bind_raise {A B} (m : M A) (k : A -> M B) s e s' :
  m s = (Raise e, s') -> bind m k s = (Raise e, s').
Proof. unfold bind. now intros ->. Qed.

Lemma try_except_ok {A} (m : M A) handler s a s' :
  m s = (Ok a, s') -> try_except m handler s = (Ok a, s').
Proof. unfold try_except. now intros ->. Qed.

Lemma try_except_raise {A} (m : M A) handler s e s' :
  m s = (Raise e, s') -> try_except m handler s = handler e s'.
Proof. unfold try_except. now intros ->. Qed.

(** The state after a sleep. *)
Definition slept (seconds : Q) (s : state) : state :=
  mkState (events s ++ [Sleep seconds])%list (session s).

(** A call that returns is made once: the wrapper neither sleeps nor calls
    again. *)
Lemma async_retry_returns {A} n delay backoff (func : M A) s a s' :
  func s = (Ok a, s') ->
  async_retry (S n) delay backoff func s = (Ok a, s').
Proof.
  intros H. unfold async_retry. cbn [retry_from].
  now apply try_except_ok.
Qed.

(** Three calls that raise: the wrapper sleeps [delay], then
    [delay * backoff], and raises the third exception. *)
Lemma async_retry_exhausted {A} delay backoff (func : M A)
      s0 s1 s2 s3 e1 e2 e3 :
  func s0 = (Raise e1, s1) ->
  func (slept delay s1) = (Raise e2, s2) ->
  func (slept (delay * backoff) s2) = (Raise e3, s3) ->
  async_retry 3 delay backoff func s0 = (Raise e3, s3).
Proof.
  intros H1 H2 H3. unfold async_retry. cbn [retry_from].
  rewrite (try_except_raise _ _ _ _ _ H1). cbn [Nat.ltb Nat.leb Nat.sub].
  unfold bind at 1, sleep at 1, perform at 1. fold (slept delay s1).
  rewrite (try_except_raise _ _ _ _ _ H2). cbn [Nat.ltb Nat.leb Nat.sub].
  unfold bind at 1, sleep at 1, perform at 1.
  fold (slept (delay * backoff) s2).
  rewrite (try_except_raise _ _ _ _ _ H3). cbn [Nat.ltb Nat.leb Nat.sub].
  reflexivity.
Qed.

End EffectFacts.

(** ** Worlds to run examples in *)
Section ExampleWorlds.
Import Py Types Effects.

Definition unreachable : exn :=
  Exn "ClientConnectorError" "Cannot connect to host".

(** A world whose clock stands at [clock] and in which no host answers,
    apart from the resources [served]. *)
Definition offline_world (clock : Q) (served : list (string * string))
  : World := {|
  time_time := fun _ => clock;
  browser_page := fun _ _ => Raise unreachable;
  fallback_page := fun _ _ => Raise unreachable;
  fetched := fun u _ _ =>
    match dict_get served u with
    | Some text => Ok (mkProcessingResult text)
    | None => Raise unreachable
    end;
  generated := fun _ _ _ => Raise unreachable;
  posted := fun _ _ _ => Raise unreachable;
  closed := fun _ _ => Ok tt;
  quiz_response := fun _ => Raise (Exn "ValidationError" "correct: field required");
  answer_submission := fun e s u a => Ok (mkAnswerSubmission e s u a)
|}.

Definition submission_42 : AnswerSubmission :=
  mkAnswerSubmission "student@example.org" "s3cret"
                     "https://quiz.example/q1" (PInt 42).

End ExampleWorlds.

(** ** app/submitter.py *)
Section SubmitterFacts.
Import Py Types Effects Utils Submitter.

Lemma get_session_run s : get_session s = (Ok tt, mkState (events s) true).
Proof. destruct s as [h []]; reflexivity. Qed.

(** The size check on a payload that [json.dumps] renders as [text]. *)
Lemma _validate_payload_size_text rt payload text :
  json_dumps rt payload = Ok text ->
  _validate_payload_size rt payload
  = Ok (getsizeof rt text <? 1000000)%Z.
Proof.
  intros H. unfold _validate_payload_size, _get_payload_size. now rewrite H.
Qed.

(** C4: a payload whose JSON text has 1,000,000 bytes or more is answered
    locally: [submit_answer] returns the negative verdict with the
    size-limit reason, and the record of events is as before the call (no
    POST, no other call to the outside). *)
Theorem submit_answer_payload_size_gate rt w submission submit_url s text :
  json_dumps rt (payload_of submission) = Ok text ->
  (1000000 <= Z.of_nat (length text))%Z ->
  submit_answer rt w submission submit_url s
  = (Ok {| correct := false; url := None;
           reason := Some "Payload size exceeds 1MB limit" |},
     mkState (events s) true).
Proof.
  intros Htext Hsize. unfold submit_answer. apply async_retry_returns.
  unfold submit_answer_body.
  rewrite (bind_ok _ _ _ _ _ (get_session_run s)).
  apply try_except_ok.
  rewrite (_validate_payload_size_text rt _ text Htext).
  assert (Hgate : (getsizeof rt text <? 1000000)%Z = false).
  { unfold getsizeof. apply Z.ltb_ge. lia. }
  rewrite Hgate. reflexivity.
Qed.

(** An answer of 2^20 characters. *)
Fixpoint doubled (n : nat) (s : string) : string :=
  match n with
  | O => s
  | S n' => doubled n' (s ++ s)
  end.

Definition long_submission : AnswerSubmission :=
  mkAnswerSubmission "student@example.org" "s3cret"
                     "https://quiz.example/q1" (PStr (doubled 20 "a")).

Lemma submit_answer_payload_size_gate_example :
  json_dumps example_runtime (payload_of long_submission)
  = Ok (json_text (payload_of long_submission))
  /\ (1000000 <= Z.of_nat (length (json_text (payload_of long_submission))))%Z
  /\ submit_answer example_runtime (offline_world 0 []) long_submission
                   "https://quiz.example/submit" start
     = (Ok {| correct := false; url := None;
              reason := Some "Payload size exceeds 1MB limit" |},
        mkState [] true).
Proof.
  assert (Ht : json_dumps example_runtime (payload_of long_submission)
               = Ok (json_text (payload_of long_submission)))
    by reflexivity.
  assert (H : (1000000 <=? Z.of_nat (length (json_text
                                     (payload_of long_submission))))%Z = true)
    by (vm_compute; reflexivity).
  apply Z.leb_le in H. split; [exact Ht|]. split; [exact H|].
  exact (submit_answer_payload_size_gate example_runtime (offline_world 0 [])
           long_submission "https://quiz.example/submit" start _ Ht H).
Defined.

(** C2 (as the code runs): a transport error of the POST is caught inside
    [submit_answer]: the call posts once, neither sleeps nor posts again,
    and returns a negative verdict without next URL whose reason is the
    text of the error.  The retry wrapper repeats only a call that raises:
    when three calls in a row raise, it sleeps 1 second, then 2 seconds,
    and raises the third exception. *)
Theorem submit_answer_transport_error rt w submission submit_url s e :
  _validate_payload_size rt (payload_of submission) = Ok true ->
  posted w submit_url (payload_of submission) (events s) = Raise e ->
  submit_answer rt w submission submit_url s
  = (Ok {| correct := false; url := None; reason := Some (exn_text e) |},
     mkState (events s ++ [Post submit_url (payload_of submission)])%list true)
  /\ (forall (A : Type) (func : M A) s0 s1 s2 s3 e1 e2 e3,
        func s0 = (Raise e1, s1) ->
        func (slept 1 s1) = (Raise e2, s2) ->
        func (slept 2 s2) = (Raise e3, s3) ->
        async_retry 3 1 default_backoff func s0 = (Raise e3, s3)).
Proof.
  intros Hgate Hpost. split.
  - unfold submit_answer. apply async_retry_returns.
    unfold submit_answer_body.
    rewrite (bind_ok _ _ _ _ _ (get_session_run s)).
    rewrite Hgate.
    erewrite try_except_raise; [reflexivity|].
    unfold bind at 1, lift at 1. cbn [negb].
    apply bind_raise. unfold post, perform. cbn [events session].
    now rewrite Hpost.
  - intros A func s0 s1 s2 s3 e1 e2 e3 H1 H2 H3.
    exact (async_retry_exhausted 1 default_backoff func _ _ _ _ _ _ _ H1 H2 H3).
Qed.

Lemma submit_answer_transport_error_example :
  submit_answer example_runtime (offline_world 0 []) submission_42
                "https://quiz.example/submit" start
  = (Ok {| correct := false; url := None;
           reason := Some "Cannot connect to host" |},
     mkState [Post "https://quiz.example/submit" (payload_of submission_42)]
             true).
Proof.
  apply (submit_answer_transport_error example_runtime (offline_world 0 [])
           submission_42 "https://quiz.example/submit" start unreachable).
  - vm_compute. reflexivity.
  - reflexivity.
Defined.

(** The POST events of a record, and its pauses in order. *)
Definition posts (h : history) : nat :=
  List.length (filter (fun ev => match ev with Post _ _ => true | _ => false end) h).

Fixpoint pauses (h : history) : list Q :=
  match h with
  | [] => []
  | Sleep d :: h' => d :: pauses h'
  | _ :: h' => pauses h'
  end.

(** What the statement under test says of an endpoint that answers every
    POST with the transport error [e]: three posts, a pause of one second
    between them, and [e] raised to the caller. *)
Definition retries_then_raises : Prop :=
  forall rt w submission submit_url e,
    _validate_payload_size rt (payload_of submission) = Ok true ->
    (forall h, posted w submit_url (payload_of submission) h = Raise e) ->
    exists s',
      submit_answer rt w submission submit_url start = (Raise e, s')
      /\ posts (events s') = 3
      /\ pauses (events s') = [1%Q; 1%Q].

(** C2 (as stated) fails: with the scoring endpoint unreachable,
    [submit_answer] posts once and returns a verdict; it does not post
    three times, it does not sleep, and it raises nothing. *)
Lemma submit_answer_does_not_retry : ~ retries_then_raises.
Proof.
  intros H.
  destruct (H example_runtime (offline_world 0 []) submission_42
              "https://quiz.example/submit" unreachable)
    as (s' & Hrun & _).
  - vm_compute. reflexivity.
  - reflexivity.
  - revert Hrun. vm_compute. discriminate.
Qed.

End SubmitterFacts.

(** ** app/llm.py *)
Section EngineFacts.
Import Py Types Effects Utils Parser LLM.

(** The window of an attempt, as half-open range of ranks: [0,2) for the
    first attempt, [1,3) for the second, [2,n) from the third on. *)
Definition window_start (attempt : Z) : nat :=
  if (attempt =? 0)%Z then 0 else if (attempt =? 1)%Z then 1 else 2.

Definition window_stop (attempt : Z) (n : nat) : nat :=
  if (attempt =? 0)%Z then 2 else if (attempt =? 1)%Z then 3 else n.

Lemma nth_error_slice {A} (start stop : nat) (l : list A) j :
  nth_error (slice start stop l) j
  = if start + j <? stop then nth_error l (start + j) else None.
Proof.
  unfold slice. rewrite nth_error_firstn, nth_error_skipn.
  destruct (j <? stop - start) eqn:E1, (start + j <? stop) eqn:E2;
    try reflexivity.
  - apply Nat.ltb_lt in E1. apply Nat.ltb_ge in E2. lia.
  - apply Nat.ltb_ge in E1. apply Nat.ltb_lt in E2. lia.
Qed.

Lemma nth_error_slice_from {A} (start : nat) (l : list A) j :
  nth_error (slice_from start l) j
  = if start + j <? List.length l then nth_error l (start + j) else None.
Proof.
  unfold slice_from. rewrite nth_error_skipn.
  destruct (start + j <? List.length l) eqn:E; [reflexivity|].
  apply nth_error_None. now apply Nat.ltb_ge.
Qed.

(** C7: the [j]-th backend an attempt tries is the backend of rank
    [window_start + j], as long as that rank is below [window_stop] and
    below the number of backends; and the start of the window does not
    decrease from one attempt to the next. *)
Theorem models_to_try_window (models : list Model) (attempt : Z) :
  (0 <= attempt)%Z ->
  (forall j,
      nth_error (models_to_try models attempt) j
      = if window_start attempt + j
           <? window_stop attempt (List.length models)
        then nth_error models (window_start attempt + j) else None)
  /\ window_start attempt <= window_start (attempt + 1).
Proof.
  intros Hpos. unfold models_to_try, window_start, window_stop. split.
  - intros j.
    destruct (attempt =? 0)%Z; [apply nth_error_slice|].
    destruct (attempt =? 1)%Z; [apply nth_error_slice|].
    apply nth_error_slice_from.
  - destruct (attempt =? 0)%Z eqn:E0; [lia|].
    destruct (attempt =? 1)%Z eqn:E1.
    + apply Z.eqb_eq in E1. subst. cbn. lia.
    + apply Z.eqb_neq in E0, E1.
      destruct (attempt + 1 =? 0)%Z eqn:F0; [apply Z.eqb_eq in F0; lia|].
      destruct (attempt + 1 =? 1)%Z eqn:F1; [apply Z.eqb_eq in F1; lia|].
      lia.
Qed.

Definition four_models : list Model :=
  [ mkModel "gemini-2.0-flash-lite" "primary";
    mkModel "gemini-2.0-flash" "fallback";
    mkModel "gemini-2.5-flash" "fallback";
    mkModel "gemini-2.5-pro" "fallback" ].

Lemma models_to_try_window_example :
  (forall j,
      nth_error (models_to_try four_models 1) j
      = if window_start 1 + j <? window_stop 1 (List.length four_models)
        then nth_error four_models (window_start 1 + j) else None)
  /\ window_start 1 <= window_start (1 + 1).
Proof. apply (models_to_try_window four_models 1). lia. Defined.

(** C10: with fewer than three models, an attempt of index 2 or more has
    an empty window, and [reason_about_question] returns [None] with the
    record of events untouched: no backend is called, nothing sleeps, and
    the result is not a fallback response. *)
Theorem reason_about_question_empty_window
        rt w (models : list Model) _build_prompt request (attempt : Z) s :
  List.length models < 3 ->
  (2 <= attempt)%Z ->
  models_to_try models attempt = []
  /\ reason_about_question rt w models _build_prompt request attempt s
     = (Ok None, s).
Proof.
  intros Hlen Hatt.
  assert (Hwin : models_to_try models attempt = []).
  { unfold models_to_try.
    destruct (attempt =? 0)%Z eqn:E0; [apply Z.eqb_eq in E0; lia|].
    destruct (attempt =? 1)%Z eqn:E1; [apply Z.eqb_eq in E1; lia|].
    unfold slice_from. apply skipn_all2. lia. }
  split; [exact Hwin|].
  unfold reason_about_question. apply async_retry_returns.
  unfold reason_about_question_body. rewrite Hwin. reflexivity.
Qed.

Definition sum_request : LLMReasoningRequest :=
  {| question := "What is the sum of the values?";
     context := "values: 3, 7, 10";
     request_type := NUMBER;
     attempt_number := 3 |}.

Lemma reason_about_question_empty_window_example :
  models_to_try (firstn 2 four_models) 2 = []
  /\ reason_about_question example_runtime (offline_world 0 [])
       (firstn 2 four_models) (fun _ _ => "prompt") sum_request 2 start
     = (Ok None, start).
Proof.
  apply (reason_about_question_empty_window
           example_runtime (offline_world 0 []) (firstn 2 four_models)
           (fun _ _ => "prompt")
           sum_request 2 start).
  - cbn. lia.
  - lia.
Defined.

(** With a window that is not empty the fallback does answer: the same
    request, first attempt, every backend unreachable. *)
Example reason_about_question_falls_back :
  fst (reason_about_question example_runtime (offline_world 0 [])
         (firstn 2 four_models) (fun _ _ => "prompt") sum_request 0 start)
  = Ok (Some {| reasoning := "Fallback: Summed all numbers found in context";
                response_answer := PInt 20;
                confidence := nearest_float false 3 10 |}).
Proof. vm_compute. reflexivity. Qed.

(** The answer [_parse_llm_response] gives for a kind other than BOOLEAN
    is never a Python [bool]. *)
Lemma _parse_llm_response_not_bool response_text k b :
  k <> BOOLEAN ->
  response_answer (_parse_llm_response response_text k) <> PBool b.
Proof.
  intros Hk. unfold _parse_llm_response.
  destruct k; try contradiction; cbn -[findall strip number_pattern];
    try discriminate.
  destruct (findall number_pattern (strip response_text)) as [|first rest];
    [discriminate|].
  destruct (float_of_decimal first) as [num|]; [|discriminate].
  unfold int_if_whole. destruct (is_integer num); [|discriminate].
  destruct (int_of_float num); discriminate.
Qed.

(** The expected type of a parsed question is the classifier's. *)
Lemma parse_page_content_expected_type x base_url page_content q :
  parse_page_content x base_url page_content = Ok q ->
  exists text, expected_type q = _determine_answer_type text.
Proof.
  unfold parse_page_content.
  destruct (_extract_submit_url x _ _ _); [|discriminate].
  intros E. injection E as <-. cbn [expected_type]. eauto.
Qed.

(** C9: the classifier never answers BOOLEAN, also for questions worded
    with true/false or yes/no; so a parsed question never expects BOOLEAN,
    and the answer parsed for it from a backend's response is never the
    Python [bool] that only the BOOLEAN branch of [_parse_llm_response]
    builds. *)
Theorem _determine_answer_type_never_boolean :
  (forall text, _determine_answer_type text <> BOOLEAN)
  /\ _determine_answer_type "True or false: the sky is green." = STRING
  /\ _determine_answer_type "Is it raining? Answer yes or no." = STRING
  /\ (forall x base_url page_content q,
         parse_page_content x base_url page_content = Ok q ->
         expected_type q <> BOOLEAN)
  /\ (forall x base_url page_content q response_text b,
         parse_page_content x base_url page_content = Ok q ->
         response_answer (_parse_llm_response response_text (expected_type q))
         <> PBool b).
Proof.
  assert (H : forall text, _determine_answer_type text <> BOOLEAN).
  { intros text E. pose proof (_determine_answer_type_cases text) as Hin.
    rewrite E in Hin. cbn in Hin.
    repeat destruct Hin as [Hin | Hin]; try discriminate Hin; exact Hin. }
  split; [exact H|].
  split; [vm_compute; reflexivity|].
  split; [vm_compute; reflexivity|].
  split.
  - intros x base_url page_content q Hq.
    destruct (parse_page_content_expected_type _ _ _ _ Hq) as (text & ->).
    apply H.
  - intros x base_url page_content q response_text b Hq.
    destruct (parse_page_content_expected_type _ _ _ _ Hq) as (text & ->).
    apply _parse_llm_response_not_bool. apply H.
Qed.

End EngineFacts.

(** ** Which events a computation can add *)
Section Frames.
Import Py Types Effects Utils.

(** Every event that [m] adds to the record satisfies [P]. *)
Definition adds_only (P : event -> Prop) {A} (m : M A) : Prop :=
  forall s, exists delta,
    events (snd (m s)) = (events s ++ delta)%list /\ Forall P delta.

Variable P : event -> Prop.

Lemma adds_only_ret {A} (a : A) : adds_only P (ret a).
Proof. intros s. exists []. cbn. now rewrite app_nil_r. Qed.

Lemma adds_only_raise {A} e : adds_only P (@raise A e).
Proof. intros s. exists []. cbn. now rewrite app_nil_r. Qed.

Lemma adds_only_lift {A} (r : result A) : adds_only P (lift r).
Proof. intros s. exists []. cbn. now rewrite app_nil_r. Qed.

Lemma adds_only_perform {A} ev (answer : history -> result A) :
  P ev -> adds_only P (perform ev answer).
Proof. intros Hev s. exists [ev]. cbn. split; [reflexivity | now constructor]. Qed.

Lemma adds_only_bind {A B} (m : M A) (k : A -> M B) :
  adds_only P m -> (forall a, adds_only P (k a)) -> adds_only P (bind m k).
Proof.
  intros Hm Hk s. unfold bind. destruct (Hm s) as (d1 & E1 & F1).
  destruct (m s) as [[a | e] s1]; cbn in E1.
  - destruct (Hk a s1) as (d2 & E2 & F2). exists (d1 ++ d2)%list.
    rewrite E2, E1, app_assoc. split; [reflexivity | now apply Forall_app].
  - exists d1. now split.
Qed.

Lemma adds_only_try_except {A} (m : M A) handler :
  adds_only P m -> (forall e, adds_only P (handler e)) ->
  adds_only P (try_except m handler).
Proof.
  intros Hm Hh s. unfold try_except. destruct (Hm s) as (d1 & E1 & F1).
  destruct (m s) as [[a | e] s1]; cbn in E1.
  - exists d1. now split.
  - destruct (Hh e s1) as (d2 & E2 & F2). exists (d1 ++ d2)%list.
    rewrite E2, E1, app_assoc. split; [reflexivity | now apply Forall_app].
Qed.

Lemma adds_only_get_session_flag : adds_only P get_session_flag.
Proof. intros s. exists []. cbn. now rewrite app_nil_r. Qed.

Lemma adds_only_set_session_flag b : adds_only P (set_session_flag b).
Proof. intros s. exists []. cbn. now rewrite app_nil_r. Qed.

Lemma adds_only_retry_from {A} max_attempts backoff (func : M A) :
  (forall d, P (Sleep d)) -> adds_only P func ->
  forall todo attempt delay last,
    adds_only P (retry_from max_attempts backoff func todo attempt delay last).
Proof.
  intros Hsleep Hf. induction todo as [|todo IH]; intros attempt delay last.
  - cbn [retry_from]. destruct last; apply adds_only_raise.
  - cbn [retry_from]. apply adds_only_try_except; [exact Hf|]. intros e.
    destruct (attempt <? max_attempts - 1).
    + apply adds_only_bind; [now apply adds_only_perform | intros _; apply IH].
    + apply IH.
Qed.

Lemma adds_only_async_retry {A} n delay backoff (func : M A) :
  (forall d, P (Sleep d)) -> adds_only P func ->
  adds_only P (async_retry n delay backoff func).
Proof. intros. now apply adds_only_retry_from. Qed.

End Frames.

(** ** app/solver.py: the loop *)
Section LoopFacts.
Import Py Types Effects Utils Parser LLM Submitter Solver.

Variable rt : Runtime.
Variable w : World.
Variable settings : Settings.Settings.
Variable x : Extractors.
Variable models : list Model.
Variable _build_prompt : LLMReasoningRequest -> Z -> string.
Variable request : QuizRequest.
Variable start_time : Q.

(** Nothing but the loop head reads the clock. *)
Definition not_clock (ev : event) : Prop := ev <> Clock.

Ltac frame :=
  repeat match goal with
         | |- adds_only _ (bind _ _) => apply adds_only_bind; [|intros ?]
         | |- adds_only _ (try_except _ _) =>
             apply adds_only_try_except; [|intros ?]
         | |- adds_only _ (perform _ _) =>
             apply adds_only_perform; unfold not_clock; discriminate
         | |- adds_only _ (async_retry _ _ _ _) =>
             apply adds_only_async_retry; [unfold not_clock; discriminate|]
         | |- adds_only _ (ret _) => apply adds_only_ret
         | |- adds_only _ (raise _) => apply adds_only_raise
         | |- adds_only _ (lift _) => apply adds_only_lift
         | |- adds_only _ get_session_flag => apply adds_only_get_session_flag
         | |- adds_only _ (set_session_flag _) =>
             apply adds_only_set_session_flag
         | |- adds_only _ (match ?v with _ => _ end) => destruct v
         | IH : forall _, _ |- adds_only _ _ => apply IH
         end.

Lemma try_models_no_clock req prompt n i rest :
  adds_only not_clock (try_models rt w req prompt n i rest).
Proof.
  revert i. induction rest as [|m rest IH]; intros i; cbn [try_models].
  - frame.
  - unfold generate_content. frame.
Qed.

Lemma reason_about_question_no_clock req attempt :
  adds_only not_clock
    (reason_about_question rt w models _build_prompt req attempt).
Proof.
  unfold reason_about_question, reason_about_question_body.
  frame. apply try_models_no_clock.
Qed.

Lemma submit_answer_no_clock submission u :
  adds_only not_clock (submit_answer rt w submission u).
Proof.
  unfold submit_answer, submit_answer_body, get_session, post. frame.
Qed.

Lemma _reason_about_answer_no_clock q ctx attempt :
  adds_only not_clock
    (_reason_about_answer rt w models _build_prompt q ctx attempt).
Proof.
  unfold _reason_about_answer.
  apply adds_only_bind; [apply reason_about_question_no_clock|].
  intros [r|]; frame.
Qed.

Lemma _submit_answer_no_clock u q a :
  adds_only not_clock (_submit_answer rt w request u q a).
Proof.
  unfold _submit_answer.
  apply adds_only_bind; [frame|]. intros ?.
  apply adds_only_bind; [frame|]. intros ?. apply submit_answer_no_clock.
Qed.

Lemma attempts_from_no_clock u q ctx todo attempt last :
  adds_only not_clock
    (attempts_from rt w settings models _build_prompt request
                   u q ctx todo attempt last).
Proof.
  revert attempt last. induction todo as [|todo IH]; intros attempt last;
    cbn [attempts_from].
  - frame.
  - unfold sleep.
    apply adds_only_bind; [apply _reason_about_answer_no_clock|].
    intros answer.
    apply adds_only_bind; [apply _submit_answer_no_clock|].
    intros result. destruct (correct result); [frame|].
    apply adds_only_bind; [frame|]. intros _. apply IH.
Qed.

Lemma for_resources_no_clock headers resources parts :
  adds_only not_clock (for_resources rt w headers resources parts).
Proof.
  revert parts. induction resources as [|u rest IH]; intros parts;
    cbn [for_resources].
  - frame.
  - unfold resource_parts, fetch_resource. frame.
Qed.

Lemma solve_page_no_clock u :
  adds_only not_clock
    (solve_page rt w settings x models _build_prompt request u).
Proof.
  unfold solve_page, _get_question_content, _process_resources,
    _solve_with_retries, browser_get_page_content, fallback_get_page_content.
  apply adds_only_bind; [frame|]. intros [q|]; [|frame].
  apply adds_only_bind.
  { destruct (resources q); [frame|].
    apply adds_only_bind; [frame|]. intros ?.
    apply adds_only_bind; [apply for_resources_no_clock | intros ?; frame]. }
  intros ctx. apply adds_only_bind; [apply attempts_from_no_clock|].
  intros ?. frame.
Qed.

(** The events a chain adds when it stops at the loop head: the reading of
    the clock and the closing of the collaborators. *)
Definition clock_or_close (ev : event) : Prop :=
  ev = Clock \/ exists c, ev = Close c.

Lemma _cleanup_closes : adds_only clock_or_close (_cleanup w).
Proof.
  unfold _cleanup, close_session, Effects.close.
  repeat match goal with
         | |- adds_only _ (bind _ _) => apply adds_only_bind; [|intros ?]
         | |- adds_only _ (try_except _ _) =>
             apply adds_only_try_except; [|intros ?]
         | |- adds_only _ (perform (Close ?c) _) =>
             apply adds_only_perform; right; now exists c
         | |- adds_only _ (ret _) => apply adds_only_ret
         | |- adds_only _ get_session_flag => apply adds_only_get_session_flag
         | |- adds_only _ (set_session_flag _) =>
             apply adds_only_set_session_flag
         | |- adds_only _ (match ?v with _ => _ end) => destruct v
         end.
Qed.

Lemma _is_timed_out_expired s :
  (180 < time_time w (events s) - start_time)%Q ->
  _is_timed_out w start_time s
  = (Ok true, mkState (events s ++ [Clock])%list (session s)).
Proof.
  intros H. unfold _is_timed_out, now, bind, perform, ret.
  destruct (Qle_bool (time_time w (events s) - start_time) 180) eqn:E;
    [|reflexivity].
  apply Qle_bool_iff in E. now apply Qlt_not_le in H.
Qed.

(** C3: when the clock, read at the head of the loop, shows more than 180
    seconds since [start_time], the loop ends there: it returns with
    [current_url] as it was, having at most read the clock, and the chain
    halts with nothing recorded but that reading and the closing of its
    collaborators -- no page is fetched.  The clock is read at the head of
    the loop only: a pass through the body records no reading. *)
Theorem while_loop_budget fuel current_url s :
  (180 < time_time w (events s) - start_time)%Q ->
  while_loop rt w settings x models _build_prompt request start_time
             (S fuel) current_url s
  = (Ok (Some current_url),
     if is_set current_url
     then mkState (events s ++ [Clock])%list (session s) else s)
  /\ (exists s' delta,
         solve_chain rt w settings x models _build_prompt request start_time
                     (S fuel) s
         = (Ok (Halted (Some (request_url request))), s')
         /\ events s' = (events s ++ delta)%list
         /\ Forall clock_or_close delta)
  /\ (forall u s0, exists delta,
         events (snd (solve_page rt w settings x models _build_prompt
                                 request u s0))
         = (events s0 ++ delta)%list
         /\ ~ In Clock delta).
Proof.
  intros Hlate.
  assert (Hloop : forall cu,
    while_loop rt w settings x models _build_prompt request start_time
               (S fuel) cu s
    = (Ok (Some cu),
       if is_set cu then mkState (events s ++ [Clock])%list (session s)
       else s)).
  { intros [u|]; cbn [while_loop]; [|reflexivity].
    destruct (is_set (Some u)); [|reflexivity].
    now rewrite (bind_ok _ _ _ _ _ (_is_timed_out_expired s Hlate)). }
  split; [apply Hloop|]. split.
  - unfold solve_chain.
    set (s1 := if is_set (Some (request_url request))
               then mkState (events s ++ [Clock])%list (session s) else s).
    assert (H1 : exists d1, events s1 = (events s ++ d1)%list
                            /\ Forall clock_or_close d1).
    { subst s1. destruct (is_set (Some (request_url request))).
      - exists [Clock]. split; [reflexivity|]. constructor; [now left|constructor].
      - exists []. now rewrite app_nil_r. }
    destruct H1 as (d1 & E1 & F1).
    destruct (_cleanup_closes s1) as (d2 & E2 & F2).
    destruct (_cleanup w s1) as [[a|e] s2] eqn:Ec; [destruct a|];
      cbn [snd] in E2.
    + exists s2, (d1 ++ d2)%list. split; [|split].
      * unfold bind at 1. unfold try_except.
        rewrite (bind_ok _ _ _ _ _ (Hloop (Some (request_url request)))).
        fold s1. unfold ret at 1. unfold bind. now rewrite Ec.
      * now rewrite E2, E1, app_assoc.
      * now apply Forall_app.
    + exfalso. revert Ec. unfold _cleanup, try_except.
      match goal with
      | |- context [match ?m s1 with _ => _ end] =>
          destruct (m s1) as [[a|e'] s3]
      end; cbn; discriminate.
  - intros u s0. destruct (solve_page_no_clock u s0) as (delta & E & F).
    exists delta. split; [exact E|].
    intros Hin. rewrite Forall_forall in F. now apply (F Clock Hin).
Qed.

(** Step 4 of the loop body looks at the URL of the verdict only. *)
Lemma decide_next_url final_result :
  decide_next final_result
  = if is_set (url final_result) then url final_result else None.
Proof.
  unfold decide_next.
  destruct (correct final_result), (is_set (url final_result)); reflexivity.
Qed.

Lemma _is_timed_out_within s :
  (time_time w (events s) - start_time <= 180)%Q ->
  _is_timed_out w start_time s
  = (Ok false, mkState (events s ++ [Clock])%list (session s)).
Proof.
  intros H. unfold _is_timed_out, now, bind, perform, ret.
  apply Qle_bool_iff in H. now rewrite H.
Qed.

(** C6: when the attempts on the page at [u] end with the verdict [r], the
    pass through the loop body ends with the next value of [current_url]:
    the verdict's next URL whenever it carries one, whatever its
    correctness, and [None] exactly when it carries none (an absent or
    empty URL).  The loop goes on with that value: at the next URL, or,
    with [None], it ends at its head without any further call. *)
Theorem decide_next_rule fuel u s q s1 ctx s2 r s3 :
  u <> EmptyString ->
  (time_time w (events s) - start_time <= 180)%Q ->
  _get_question_content w x u (mkState (events s ++ [Clock])%list (session s))
  = (Ok (Some q), s1) ->
  _process_resources rt w u (resources q) s1 = (Ok ctx, s2) ->
  _solve_with_retries rt w settings models _build_prompt request u q ctx s2
  = (Ok (Some r), s3) ->
  let next := if is_set (url r) then url r else None in
  decide_next r = next
  /\ solve_page rt w settings x models _build_prompt request u
                (mkState (events s ++ [Clock])%list (session s))
     = (Ok (Next next), s3)
  /\ while_loop rt w settings x models _build_prompt request start_time
                (S (S fuel)) (Some u) s
     = while_loop rt w settings x models _build_prompt request start_time
                  (S fuel) next s3
  /\ (forall v, url r = Some v -> v <> EmptyString -> next = Some v)
  /\ (next = None <-> is_set (url r) = false)
  /\ (next = None ->
      while_loop rt w settings x models _build_prompt request start_time
                 (S (S fuel)) (Some u) s
      = (Ok (Some None), s3)).
Proof.
  intros Hu Htime Hget Hres Hsolve next.
  assert (Hpage : solve_page rt w settings x models _build_prompt request u
                    (mkState (events s ++ [Clock])%list (session s))
                  = (Ok (Next next), s3)).
  { unfold solve_page.
    rewrite (bind_ok _ _ _ _ _ Hget), (bind_ok _ _ _ _ _ Hres),
      (bind_ok _ _ _ _ _ Hsolve).
    unfold ret. now rewrite decide_next_url. }
  assert (Hloop : while_loop rt w settings x models _build_prompt request
                    start_time (S (S fuel)) (Some u) s
                  = while_loop rt w settings x models _build_prompt request
                      start_time (S fuel) next s3).
  { assert (Hset : is_set (Some u) = true).
    { cbn [is_set]. destruct (String.eqb u EmptyString) eqn:E; [|reflexivity].
      apply String.eqb_eq in E. contradiction. }
    remember (S fuel) as fuel' eqn:Ef.
    cbn [while_loop]. rewrite Hset.
    rewrite (bind_ok _ _ _ _ _ (_is_timed_out_within s Htime)).
    now rewrite (bind_ok _ _ _ _ _ Hpage). }
  split; [apply decide_next_url|]. split; [exact Hpage|].
  split; [exact Hloop|]. split; [|split].
  - intros v Hv Hne. subst next. rewrite Hv. cbn [is_set].
    destruct (String.eqb v EmptyString) eqn:E; [|reflexivity].
    apply String.eqb_eq in E. contradiction.
  - subst next. destruct (url r) as [v|]; cbn [is_set]; [|tauto].
    destruct (String.eqb v EmptyString); cbn [negb]; split; intros;
      try reflexivity; try discriminate.
  - intros Hnone. rewrite Hloop, Hnone. reflexivity.
Qed.

(** *** Resources *)

Lemma append_assoc_s (a b c : string) : (a ++ b) ++ c = a ++ b ++ c.
Proof. induction a as [|ch a IH]; cbn; [reflexivity | now rewrite IH]. Qed.

Lemma in_join_split sep p l :
  In p l -> exists a b, join sep l = a ++ p ++ b.
Proof.
  induction l as [|q l IH]; [contradiction|]. intros Hin.
  destruct l as [|q' l'].
  - destruct Hin as [<- | []]. exists EmptyString, EmptyString.
    cbn. induction q as [|ch q IHq]; cbn; [reflexivity | now rewrite <- IHq].
  - change (join sep (q :: q' :: l')) with (q ++ sep ++ join sep (q' :: l')).
    destruct Hin as [<- | Hin].
    + now exists EmptyString, (sep ++ join sep (q' :: l')).
    + destruct (IH Hin) as (a & b & ->).
      exists (q ++ sep ++ a), b. now rewrite !append_assoc_s.
Qed.

(** A line of the list is a substring of the joined text. *)
Lemma contains_join sep p l :
  In p l -> contains p (join sep l) = true.
Proof. intros Hin. apply contains_spec. now apply in_join_split. Qed.

(** One resource never raises; what it adds depends on its fetch alone. *)
Lemma resource_parts_run headers u s :
  exists parts s',
    resource_parts rt w headers u s = (Ok parts, s')
    /\ (forall e, fetched w u headers (events s) = Raise e ->
          parts = ["Error fetching " ++ u ++ ": " ++ exn_text e])
    /\ (forall r, fetched w u headers (events s) = Ok r ->
          In ("Resource: " ++ u) parts /\ In ("Content: " ++ content r) parts).
Proof.
  unfold resource_parts, try_except, bind, fetch_resource, perform, ret.
  destruct (fetched w u headers (events s)) as [r|e]; eexists; eexists;
    (split; [reflexivity|]); split; intros ? H; inversion H; subst.
  - split.
    + apply in_or_app. left. now left.
    + apply in_or_app. right. apply in_or_app. right. now left.
  - reflexivity.
Qed.

Lemma for_resources_run headers urls acc s :
  exists parts s',
    for_resources rt w headers urls acc s = (Ok (acc ++ parts)%list, s')
    /\ (forall u e, In u urls ->
          (forall hd h, fetched w u hd h = Raise e) ->
          In ("Error fetching " ++ u ++ ": " ++ exn_text e) parts)
    /\ (forall u r, In u urls ->
          (forall hd h, fetched w u hd h = Ok r) ->
          In ("Resource: " ++ u) parts /\ In ("Content: " ++ content r) parts).
Proof.
  revert acc s. induction urls as [|u0 rest IH]; intros acc s.
  - exists [], s. cbn. rewrite app_nil_r. repeat split; contradiction.
  - cbn [for_resources].
    destruct (resource_parts_run headers u0 s) as (p0 & s0 & E0 & Hr0 & Ho0).
    destruct (IH (acc ++ p0)%list s0) as (p1 & s1 & E1 & Hr1 & Ho1).
    exists (p0 ++ p1)%list, s1. split; [|split].
    + rewrite (bind_ok _ _ _ _ _ E0), E1. now rewrite app_assoc.
    + intros u e [<- | Hin] Hf; apply in_or_app.
      * left. rewrite (Hr0 e (Hf _ _)). now left.
      * right. now apply Hr1.
    + intros u r [<- | Hin] Hf.
      * destruct (Ho0 r (Hf _ _)). split; apply in_or_app; now left.
      * destruct (Ho1 u r Hin Hf). split; apply in_or_app; now right.
Qed.

(** The header discovery at the start of [_process_resources] never
    raises. *)
Lemma discover_headers_run current_url s :
  exists headers s',
    try_except
      (page_content <- fallback_get_page_content w current_url ;;
       ret (extract_api_headers (visible_text page_content)))%monad
      (fun _ => ret []) s
    = (Ok headers, s').
Proof.
  unfold try_except, bind, fallback_get_page_content, perform, ret.
  destruct (fallback_page w current_url (events s)); eauto.
Qed.

(** [_process_resources] always returns. *)
Lemma _process_resources_returns current_url urls s :
  exists ctx s', _process_resources rt w current_url urls s = (Ok ctx, s').
Proof.
  unfold _process_resources. destruct urls as [|u rest];
    [unfold ret; now eauto|].
  destruct (discover_headers_run current_url s) as (headers & s0 & E0).
  rewrite (bind_ok _ _ _ _ _ E0).
  destruct (for_resources_run headers (u :: rest) ["EXTERNAL RESOURCES:"] s0)
    as (parts & s1 & E1 & _).
  rewrite (bind_ok _ _ _ _ _ E1). unfold ret. now eauto.
Qed.

(** C5: when every fetch of resource [a] fails with [e] and every fetch
    of resource [b] succeeds with [r], [_process_resources] returns a
    context that holds the entry of [b] (its URL and its content) and the
    error note of [a]; and the pass through the loop body goes on from
    there with the attempts on the question. *)
Theorem _process_resources_isolates current_url urls a b e r s :
  In a urls -> In b urls ->
  (forall headers h, fetched w a headers h = Raise e) ->
  (forall headers h, fetched w b headers h = Ok r) ->
  exists ctx s',
    _process_resources rt w current_url urls s = (Ok ctx, s')
    /\ contains ("Resource: " ++ b) ctx = true
    /\ contains ("Content: " ++ content r) ctx = true
    /\ contains ("Error fetching " ++ a ++ ": " ++ exn_text e) ctx = true
    /\ (forall q s0,
          resources q = urls ->
          _get_question_content w x current_url s0 = (Ok (Some q), s) ->
          solve_page rt w settings x models _build_prompt request
                     current_url s0
          = bind (_solve_with_retries rt w settings models _build_prompt
                                      request current_url q ctx)
                 (fun final_result =>
                    match final_result with
                    | Some v => ret (Next (decide_next v))
                    | None =>
                        raise (Exn "AttributeError"
                                   "'NoneType' object has no attribute 'correct'")
                    end) s').
Proof.
  intros Ha Hb Hfa Hfb.
  assert (Hne : urls <> []) by (intros ->; contradiction).
  unfold _process_resources at 1.
  destruct urls as [|u rest]; [contradiction|].
  destruct (discover_headers_run current_url s) as (headers & sh & E0).
  destruct (for_resources_run headers (u :: rest) ["EXTERNAL RESOURCES:"] sh)
    as (parts & s1 & E1 & Herr & Hok).
  assert (Hrun : _process_resources rt w current_url (u :: rest) s
                 = (Ok (join (one LF) ("EXTERNAL RESOURCES:" :: parts)), s1)).
  { unfold _process_resources.
    rewrite (bind_ok _ _ _ _ _ E0), (bind_ok _ _ _ _ _ E1). reflexivity. }
  exists (join (one LF) ("EXTERNAL RESOURCES:" :: parts)), s1.
  rewrite (bind_ok _ _ _ _ _ E0), (bind_ok _ _ _ _ _ E1).
  destruct (Hok b r Hb Hfb) as [Hres Hcontent].
  split; [reflexivity|].
  split; [apply contains_join; now right|].
  split; [apply contains_join; now right|].
  split; [apply contains_join; right; now apply Herr|].
  intros q s0 Hq Hget. unfold solve_page.
  rewrite (bind_ok _ _ _ _ _ Hget). rewrite Hq.
  now rewrite (bind_ok _ _ _ _ _ Hrun).
Qed.

End LoopFacts.

(** ** The loop at work *)
Section LoopExamples.
Import Py Types Effects Utils Parser LLM Submitter Solver.

(** Stand-ins for the methods of [QuizParser] that are not embedded. *)
Definition example_extractors : Extractors := {|
  _combine_text_sources := visible_text;
  extract_base64_content := fun _ => EmptyString;
  _extract_submit_url := fun base_url _ _ => Ok base_url;
  _extract_resources := fun _ _ => [];
  _extract_question_text := fun text => text
|}.

Definition example_request : QuizRequest :=
  mkQuizRequest "student@example.org" "s3cret" "https://quiz.example/q1".

Definition a_csv : string := "https://data.example/a.csv".
Definition b_csv : string := "https://data.example/b.csv".

(** A chain started at time 0 whose clock shows 200 at the loop head. *)
Lemma while_loop_budget_example :
  (180 < time_time (offline_world 200 []) (events start) - 0)%Q
  /\ while_loop example_runtime (offline_world 200 []) Settings.defaults
                example_extractors four_models (fun _ _ => "prompt")
                example_request 0 1 (Some "https://quiz.example/q1") start
     = (Ok (Some (Some "https://quiz.example/q1")), mkState [Clock] false).
Proof.
  assert (H : (180 < time_time (offline_world 200 []) (events start) - 0)%Q)
    by (vm_compute; reflexivity).
  split; [exact H|].
  exact (proj1 (while_loop_budget example_runtime (offline_world 200 [])
                  Settings.defaults example_extractors four_models
                  (fun _ _ => "prompt") example_request 0 0
                  (Some "https://quiz.example/q1") start H)).
Defined.

(** Two resources, the first unreachable, the second served. *)
Lemma _process_resources_isolates_example :
  exists ctx s',
    _process_resources example_runtime (offline_world 0 [(b_csv, "b,1")])
                       "https://quiz.example/q1" [a_csv; b_csv] start
    = (Ok ctx, s')
    /\ contains "Content: b,1" ctx = true
    /\ contains ("Error fetching " ++ a_csv ++ ": Cannot connect to host") ctx
       = true.
Proof.
  destruct (_process_resources_isolates
              example_runtime (offline_world 0 [(b_csv, "b,1")])
              Settings.defaults example_extractors four_models
              (fun _ _ => "prompt") example_request
              "https://quiz.example/q1" [a_csv; b_csv] a_csv b_csv
              unreachable (mkProcessingResult "b,1") start)
    as (ctx & s' & Hrun & _ & Hb & Ha & _).
  - now left.
  - right. now left.
  - reflexivity.
  - reflexivity.
  - exists ctx, s'. repeat split; assumption.
Defined.

(** The context of that run, line by line. *)
Example _process_resources_context :
  fst (_process_resources example_runtime (offline_world 0 [(b_csv, "b,1")])
                          "https://quiz.example/q1" [a_csv; b_csv] start)
  = Ok (join (one LF)
          [ "EXTERNAL RESOURCES:";
            "Error fetching https://data.example/a.csv: Cannot connect to host";
            "Resource: https://data.example/b.csv";
            "Content: b,1";
            "---" ]).
Proof. vm_compute. reflexivity. Qed.

(** A chain whose hosts are all unreachable: both browsers are tried, the
    loop is left by [break], and the collaborators are closed. *)
Example solve_chain_offline :
  solve_chain example_runtime (offline_world 0 []) Settings.defaults
              example_extractors four_models (fun _ _ => "prompt")
              example_request 0 5 start
  = (Ok (Halted (Some "https://quiz.example/q1")),
     mkState [ Clock;
               PageGet "https://quiz.example/q1";
               FallbackGet "https://quiz.example/q1";
               Close Browser; Close FallbackBrowser; Close Fetcher ]
             false).
Proof. vm_compute. reflexivity. Qed.


(** *** A chain of two pages

    The scoring endpoint rejects every answer to the first page and yet
    names a second page; it accepts the answer to the second page and
    names none. *)

Definition q1 : string := "https://quiz.example/q1".
Definition q2 : string := "https://quiz.example/q2".

Definition verdict_1 : pyval :=
  PDict [ ("correct", PBool false); ("url", PStr q2);
          ("reason", PStr "Wrong answer") ].
Definition verdict_2 : pyval :=
  PDict [ ("correct", PBool true); ("url", PNone) ].

(** The example runtime, taught to read the two verdicts. *)
Definition scripted_runtime : Runtime := {|
  float_repr := float_repr example_runtime;
  repr_error := repr_error example_runtime;
  float_of_str := float_of_str example_runtime;
  int_of_str := int_of_str example_runtime;
  int_error := int_error example_runtime;
  json_loads := fun s =>
    if String.eqb s (json_text verdict_1) then Some verdict_1
    else if String.eqb s (json_text verdict_2) then Some verdict_2
    else scalar_json s;
  json_error := json_error example_runtime;
  json_dumps := json_dumps example_runtime;
  int_has_is_integer := true;
  str_header_size := 49
|}.

(** A reading of the validation of [QuizResponse]: [correct] must be a
    boolean; [url] and [reason] are texts or absent. *)
Definition read_verdict (data : pyval) : result QuizResponse :=
  match data with
  | PDict d =>
      match dict_get d "correct" with
      | Some (PBool c) =>
          Ok {| correct := c;
                url := match dict_get d "url" with
                       | Some (PStr u) => Some u
                       | _ => None
                       end;
                reason := match dict_get d "reason" with
                          | Some (PStr t) => Some t
                          | _ => None
                          end |}
      | _ => Raise (Exn "ValidationError" "correct: not a boolean")
      end
  | _ => Raise (Exn "TypeError" "argument after ** must be a mapping")
  end.

Definition scripted_world : World := {|
  time_time := fun h => inject_Z (Z.of_nat (List.length h));
  browser_page := fun _ _ =>
    Ok (mkPageContent EmptyString "Compute 6 times 7." EmptyString EmptyString);
  fallback_page := fun _ _ => Raise unreachable;
  fetched := fun _ _ _ => Raise unreachable;
  generated := fun _ _ _ => Ok (mkGeneration "The answer is 42." true);
  posted := fun _ payload _ =>
    match payload with
    | PDict d =>
        match dict_get d "url" with
        | Some (PStr u) =>
            Ok (200%Z, json_text (if String.eqb u q1 then verdict_1
                                  else verdict_2))
        | _ => Raise unreachable
        end
    | _ => Raise unreachable
    end;
  closed := fun _ _ => Ok tt;
  quiz_response := read_verdict;
  answer_submission := fun e s u a => Ok (mkAnswerSubmission e s u a)
|}.

Definition payload_42 (u : string) : pyval :=
  PDict [ ("email", PStr "student@example.org"); ("secret", PStr "s3cret");
          ("url", PStr u); ("answer", PInt 42) ].

(** Three attempts on the first page, each with the next window of
    backends and a pause of [RETRY_DELAY] between them; then, the last
    verdict being wrong but naming the second page, the chain moves on,
    solves that page at once, and halts for want of a next URL. *)
Example solve_chain_two_pages :
  solve_chain scripted_runtime scripted_world Settings.defaults
              example_extractors four_models (fun _ _ => "prompt")
              example_request 0 5 start
  = (Ok (Halted None),
     mkState [ Clock; PageGet q1;
               Generate "gemini-2.0-flash-lite" "prompt";
               Post q1 (payload_42 q1); Sleep 2;
               Generate "gemini-2.0-flash" "prompt";
               Post q1 (payload_42 q1); Sleep 2;
               Generate "gemini-2.5-flash" "prompt";
               Post q1 (payload_42 q1);
               Clock; PageGet q2;
               Generate "gemini-2.0-flash-lite" "prompt";
               Post q2 (payload_42 q2);
               Close Browser; Close FallbackBrowser; Close Fetcher;
               Close Effects.Submitter ]
             false).
Proof. vm_compute. reflexivity. Qed.

(** The first page of that chain: the question parsed from it, the
    verdict its attempts end with, and the record when they end. *)
Definition page_1_question : ParsedQuestion :=
  {| question_text := "Compute 6 times 7."; submit_url := q1;
     resources := []; expected_type := NUMBER; instructions := None |}.

Definition page_1_verdict : QuizResponse :=
  {| correct := false; url := Some q2; reason := Some "Wrong answer" |}.

Definition page_1_record : history :=
  [ Clock; PageGet q1;
    Generate "gemini-2.0-flash-lite" "prompt";
    Post q1 (payload_42 q1); Sleep 2;
    Generate "gemini-2.0-flash" "prompt";
    Post q1 (payload_42 q1); Sleep 2;
    Generate "gemini-2.5-flash" "prompt";
    Post q1 (payload_42 q1) ].

(** The verdict on the first page is wrong and names the second page: the
    pass through the loop body ends with that URL, and the loop goes on
    there. *)
Lemma decide_next_rule_example :
  decide_next page_1_verdict = Some q2
  /\ solve_page scripted_runtime scripted_world Settings.defaults
                example_extractors four_models (fun _ _ => "prompt")
                example_request q1 (mkState [Clock] false)
     = (Ok (Next (Some q2)), mkState page_1_record true)
  /\ while_loop scripted_runtime scripted_world Settings.defaults
                example_extractors four_models (fun _ _ => "prompt")
                example_request 0 2 (Some q1) start
     = while_loop scripted_runtime scripted_world Settings.defaults
                  example_extractors four_models (fun _ _ => "prompt")
                  example_request 0 1 (Some q2) (mkState page_1_record true)
  /\ (forall v, url page_1_verdict = Some v -> v <> EmptyString ->
                Some q2 = Some v)
  /\ (Some q2 = None <-> is_set (url page_1_verdict) = false)
  /\ (Some q2 = None ->
      while_loop scripted_runtime scripted_world Settings.defaults
                 example_extractors four_models (fun _ _ => "prompt")
                 example_request 0 2 (Some q1) start
      = (Ok (Some None), mkState page_1_record true)).
Proof.
  refine (decide_next_rule scripted_runtime scripted_world Settings.defaults
            example_extractors four_models (fun _ _ => "prompt")
            example_request 0 0 q1 start page_1_question
            (mkState [Clock; PageGet q1] false)
            "No external resources required."
            (mkState [Clock; PageGet q1] false)
            page_1_verdict (mkState page_1_record true) _ _ _ _ _).
  - discriminate.
  - vm_compute. discriminate.
  - vm_compute. reflexivity.
  - reflexivity.
  - vm_compute. reflexivity.
Defined.

(** A page whose submit URL [urljoin] rejects: the parser raises,
    [_get_question_content] answers [None], and the loop is left with
    [current_url] as it was. *)
Definition rejecting_extractors : Extractors := {|
  _combine_text_sources := visible_text;
  extract_base64_content := fun _ => EmptyString;
  _extract_submit_url := fun _ _ _ =>
    Raise (Exn "ValueError" "Invalid IPv6 URL");
  _extract_resources := fun _ _ => [];
  _extract_question_text := fun text => text
|}.

Example while_loop_page_rejected :
  while_loop scripted_runtime scripted_world Settings.defaults
             rejecting_extractors four_models (fun _ _ => "prompt")
             example_request 0 1 (Some q1) start
  = (Ok (Some (Some q1)), mkState [Clock; PageGet q1] false).
Proof. vm_compute. reflexivity. Qed.

End LoopExamples.

(** ** The matcher *)
Section MatcherFacts.
Import Py.

(** Every character of the text is in the class. *)
Fixpoint all_in (p : ascii -> bool) (s : string) : bool :=
  match s with
  | EmptyString => true
  | String c s' => p c && all_in p s'
  end.

(** The text does not begin with a character of the class. *)
Definition stops (p : ascii -> bool) (s : string) : bool :=
  match s with
  | EmptyString => true
  | String c _ => negb (p c)
  end.

Lemma append_nil_r (s : string) : s ++ EmptyString = s.
Proof. induction s; cbn; congruence. Qed.

Lemma length_append (a b : string) : length (a ++ b) = length a + length b.
Proof. induction a; cbn; congruence. Qed.

Lemma take_append (a b : string) : take (length a) (a ++ b) = a.
Proof. induction a; cbn; [now destruct b | congruence]. Qed.

Lemma take_consumed (a b : string) :
  take (length (a ++ b) - length b) (a ++ b) = a.
Proof.
  rewrite length_append.
  replace (length a + length b - length b) with (length a) by lia.
  apply take_append.
Qed.

Lemma all_in_app p a b : all_in p (a ++ b) = all_in p a && all_in p b.
Proof. induction a; cbn; [reflexivity | now rewrite IHa, andb_assoc]. Qed.

(** *** What a match consumed *)

Section Sound.
Context {R : Type}.

Lemma match_one_sound p s (k : string -> option R) r :
  match_one p s k = Some r ->
  exists c s', s = String c s' /\ p c = true /\ k s' = Some r.
Proof.
  destruct s as [|c s']; cbn; [discriminate|].
  destruct (p c) eqn:E; [|discriminate]. eauto.
Qed.

Lemma match_star_sound p s (k : string -> option R) r :
  match_star p s k = Some r ->
  exists a s', s = a ++ s' /\ all_in p a = true /\ k s' = Some r.
Proof.
  induction s as [|c s IH]; cbn.
  - intros H. now exists EmptyString, EmptyString.
  - destruct (p c) eqn:E.
    + destruct (match_star p s k) as [r'|] eqn:Em.
      * intros H. injection H as <-.
        destruct (IH eq_refl) as (a & s' & -> & Ha & Hk).
        exists (String c a), s'. cbn. now rewrite E, Ha.
      * intros H. now exists EmptyString, (String c s).
    + intros H. now exists EmptyString, (String c s).
Qed.

Lemma match_opt_sound p s (k : string -> option R) r :
  match_opt p s k = Some r ->
  exists a s', s = a ++ s' /\ all_in p a = true /\ length a <= 1
               /\ k s' = Some r.
Proof.
  unfold match_opt. destruct (match_one p s k) as [r'|] eqn:E.
  - intros H. injection H as <-.
    apply match_one_sound in E. destruct E as (c & s' & -> & Hc & Hk).
    exists (String c EmptyString), s'. cbn. now rewrite Hc.
  - intros H. exists EmptyString, s. cbn. auto.
Qed.

Lemma match_plus_sound p s (k : string -> option R) r :
  match_one p s (fun s' => match_star p s' k) = Some r ->
  exists a s', s = a ++ s' /\ all_in p a = true /\ 1 <= length a
               /\ k s' = Some r.
Proof.
  intros H. apply match_one_sound in H. destruct H as (c & s1 & -> & Hc & H).
  apply match_star_sound in H. destruct H as (a & s' & -> & Ha & Hk).
  exists (String c a), s'. cbn. rewrite Hc, Ha. repeat split; auto; lia.
Qed.

(** *** Greedy matching *)

(** A star at the head of a run of its class takes the whole run when
    what follows the run matches. *)
Lemma match_star_greedy p a s (k : string -> option R) r :
  all_in p a = true -> k s = Some r -> stops p s = true ->
  match_star p (a ++ s) k = Some r.
Proof.
  intros Ha Hk Hs. induction a as [|c a IH]; cbn in *.
  - destruct s as [|c s]; cbn in *; [exact Hk|].
    apply negb_true_iff in Hs. now rewrite Hs.
  - apply andb_true_iff in Ha. destruct Ha as [Hc Ha].
    now rewrite Hc, (IH Ha).
Qed.

(** A star whose continuation always succeeds takes the longest run. *)
Lemma match_star_total p s (k : string -> option R) :
  (forall t, k t <> None) ->
  exists a s', s = a ++ s' /\ all_in p a = true /\ stops p s' = true
               /\ match_star p s k = k s'.
Proof.
  intros Hk. induction s as [|c s IH].
  - now exists EmptyString, EmptyString.
  - cbn. destruct (p c) eqn:E.
    + destruct IH as (a & s' & -> & Ha & Hs & Hm).
      exists (String c a), s'. cbn. rewrite E, Ha, Hm.
      repeat split; auto. destruct (k s') eqn:E'; [reflexivity|].
      now apply Hk in E'.
    + exists EmptyString, (String c s). cbn. now rewrite E.
Qed.

End Sound.

(** *** [findall] *)

(** Every text that [findall] reports is the text of a match at some
    position. *)
Lemma findall_from_sound r (P : string -> Prop) :
  (forall s g n, match_at r s = Some (g, n) -> P g) ->
  forall s skip, Forall P (findall_from r skip s).
Proof.
  intros H. induction s as [|c s IH]; intros skip.
  - destruct skip; cbn; [|constructor].
    destruct (match_at r EmptyString) as [[g n]|] eqn:E; constructor.
    + eapply H; eassumption.
    + constructor.
  - destruct skip; cbn; [|apply IH].
    destruct (match_at r (String c s)) as [[g n]|] eqn:E; [|apply IH].
    constructor; [eapply H; eassumption | apply IH].
Qed.

Lemma findall_sound r (P : string -> Prop) text :
  (forall s g n, match_at r s = Some (g, n) -> P g) ->
  Forall P (findall r text).
Proof. intros H. now apply findall_from_sound. Qed.

End MatcherFacts.

(** ** app/utils.py: the retry wrapper *)
Section RetryFacts.
Import Py Types Effects Utils.

(** What a run of [n + 1] failing calls records when each call records
    [ev]: the calls, with a sleep between two of them, the delay growing
    by the factor [backoff]. *)
Fixpoint retry_trace (ev : event) (delay backoff : Q) (n : nat) : history :=
  match n with
  | O => [ev]
  | S n' => ev :: Sleep delay :: retry_trace ev (delay * backoff)%Q backoff n'
  end.

Lemma retry_from_S {A} max backoff (func : M A) todo attempt delay last :
  retry_from max backoff func (S todo) attempt delay last
  = try_except func (fun e =>
      if attempt <? max - 1 then
        bind (sleep delay)
             (fun _ => retry_from max backoff func todo (S attempt)
                                  (delay * backoff)%Q (Some e))
      else retry_from max backoff func todo (S attempt) delay (Some e)).
Proof. reflexivity. Qed.

Lemma retry_from_exhausted {A} max backoff (func : M A) ev e :
  (forall s, func s = (Raise e, mkState (events s ++ [ev])%list (session s))) ->
  forall todo attempt delay last s,
    attempt + S todo = max ->
    retry_from max backoff func (S todo) attempt delay last s
    = (Raise e,
       mkState (events s ++ retry_trace ev delay backoff todo)%list (session s)).
Proof.
  intros Hf. induction todo as [|todo IH]; intros attempt delay last s Hmax.
  - rewrite retry_from_S, (try_except_raise _ _ _ _ _ (Hf s)).
    replace (attempt <? max - 1) with false
      by (symmetry; apply Nat.ltb_ge; lia).
    reflexivity.
  - rewrite retry_from_S. cbn [retry_trace].
    rewrite (try_except_raise _ _ _ _ _ (Hf s)).
    replace (attempt <? max - 1) with true
      by (symmetry; apply Nat.ltb_lt; lia).
    unfold bind at 1, sleep at 1, perform at 1. cbn [events session].
    rewrite IH by lia. cbn [events session].
    now rewrite <- !app_assoc.
Qed.

(** X1: a call that fails in the same way every time, recording one event
    per call, is made [n + 1] times under [async_retry (S n)]: the wrapper
    sleeps between two calls, [delay] the first time and [backoff] times
    longer each time after, does not sleep after the last call, and raises
    the exception of the call. *)
Theorem async_retry_backoff {A} n delay backoff (func : M A) ev e s :
  (forall s, func s = (Raise e, mkState (events s ++ [ev])%list (session s))) ->
    async_retry (S n) delay backoff func s
    = (Raise e,
       mkState (events s ++ retry_trace ev delay backoff n)%list (session s)).
Proof.
  intros Hf. unfold async_retry.
  now apply (retry_from_exhausted (S n) backoff func ev e Hf).
Qed.

End RetryFacts.

(** ** app/submitter.py: every call returns *)
Section SubmitterMore.
Import Py Types Effects Utils Submitter.

Ltac fin :=
  cbn; do 2 eexists; split; [reflexivity|]; split; [reflexivity|];
  first [left; reflexivity | right; reflexivity].

Lemma submit_answer_run rt w submission submit_url s :
  exists verdict s',
    submit_answer rt w submission submit_url s = (Ok verdict, s')
    /\ session s' = true
    /\ (events s' = events s
        \/ events s'
           = (events s ++ [Post submit_url (payload_of submission)])%list).
Proof.
  unfold submit_answer.
  assert (H : exists verdict s',
             submit_answer_body rt w submission submit_url s = (Ok verdict, s')
             /\ session s' = true
             /\ (events s' = events s
                 \/ events s'
                    = (events s ++ [Post submit_url (payload_of submission)])%list)).
  { unfold submit_answer_body.
    rewrite (bind_ok _ _ _ _ _ (get_session_run s)).
    unfold try_except, bind at 1, lift at 1.
    destruct (_validate_payload_size rt (payload_of submission))
      as [[|]|e]; cbn [negb].
    - unfold bind, post, perform. cbn [events session].
      destruct (posted w submit_url (payload_of submission) (events s))
        as [[status response_text] | e].
      + destruct (status =? 200)%Z.
        * destruct (json_loads rt response_text).
          -- unfold lift. destruct (quiz_response w p); fin.
          -- destruct (String.eqb _ _); fin.
        * fin.
      + fin.
    - fin.
    - fin. }
  destruct H as (verdict & s' & E & H).
  exists verdict, s'. split; [|exact H].
  now apply async_retry_returns.
Qed.

(** X2: [submit_answer] never raises: every call returns a verdict with the
    session open, having posted the payload at most once.  The retry wrapper
    around it never sees an exception, so it never sleeps and never calls
    again. *)
Theorem submit_answer_never_raises rt w submission submit_url s :
  exists verdict s',
    submit_answer rt w submission submit_url s = (Ok verdict, s')
    /\ session s' = true
    /\ (events s' = events s
        \/ events s'
           = (events s ++ [Post submit_url (payload_of submission)])%list).
Proof. apply submit_answer_run. Qed.

(** What [submit_answer] makes of a body with status 200 that
    [json.loads] rejects with the exception [e]. *)
Definition rejected_body_verdict (e : exn) (response_text : string)
  : QuizResponse :=
  if String.eqb (exn_class e) "JSONDecodeError"
  then {| correct := contains "correct" (lower response_text);
          url := None; reason := Some response_text |}
  else {| correct := false; url := None; reason := Some (exn_text e) |}.

Lemma submit_answer_rejected_body rt w submission submit_url s response_text :
  _validate_payload_size rt (payload_of submission) = Ok true ->
  posted w submit_url (payload_of submission) (events s)
    = Ok (200%Z, response_text) ->
  json_loads rt response_text = None ->
  submit_answer rt w submission submit_url s
  = (Ok (rejected_body_verdict (json_error rt response_text) response_text),
     mkState (events s ++ [Post submit_url (payload_of submission)])%list true).
Proof.
  intros Hgate Hpost Hjson.
  unfold submit_answer. apply async_retry_returns.
  unfold submit_answer_body.
  rewrite (bind_ok _ _ _ _ _ (get_session_run s)).
  rewrite Hgate. unfold try_except, bind at 1, lift at 1. cbn [negb].
  unfold bind, post, perform. cbn [events session]. rewrite Hpost.
  cbn [Z.eqb Pos.eqb]. rewrite Hjson. unfold rejected_body_verdict.
  destruct (String.eqb _ _); reflexivity.
Qed.

(** X3: a response with status 200 whose body [json.loads] rejects with a
    JSONDecodeError counts as a correct answer whenever the body holds the
    word correct -- also inside the word incorrect: the verdict then is
    correct, with no next URL and the body as its reason.  A body that
    [json.loads] rejects with another exception gives a negative verdict
    with the text of the exception. *)
Theorem submit_answer_incorrect_counts_as_correct
        rt w submission submit_url s response_text :
  _validate_payload_size rt (payload_of submission) = Ok true ->
  posted w submit_url (payload_of submission) (events s)
    = Ok (200%Z, response_text) ->
  json_loads rt response_text = None ->
  contains "incorrect" (lower response_text) = true ->
  submit_answer rt w submission submit_url s
  = (Ok (if String.eqb (exn_class (json_error rt response_text))
                       "JSONDecodeError"
         then {| correct := true; url := None; reason := Some response_text |}
         else {| correct := false; url := None;
                 reason := Some (exn_text (json_error rt response_text)) |}),
     mkState (events s ++ [Post submit_url (payload_of submission)])%list true).
Proof.
  intros Hgate Hpost Hjson Hinc.
  rewrite (submit_answer_rejected_body _ _ _ _ _ _ Hgate Hpost Hjson).
  unfold rejected_body_verdict.
  assert (Hc : contains "correct" (lower response_text) = true).
  { apply contains_spec in Hinc. destruct Hinc as (p & q & E).
    apply contains_spec. exists (p ++ "in"), q. rewrite E.
    rewrite append_assoc_s. reflexivity. }
  now rewrite Hc.
Qed.

End SubmitterMore.

(** ** app/submitter.py: [_compress_payload] *)
Section PayloadFacts.
Import Py Payload.

Lemma length_take n s : n <= length s -> length (take n s) = n.
Proof.
  revert s. induction n as [|n IH]; intros s H; [reflexivity|].
  destruct s as [|c s]; cbn in *; [lia|]. rewrite IH; [reflexivity | lia].
Qed.

Lemma take_take_append n s t :
  n <= length s -> take n (take n s ++ t) = take n s.
Proof.
  revert s. induction n as [|n IH]; intros s H; [reflexivity|].
  destruct s as [|c s]; cbn in *; [lia|]. rewrite IH; [reflexivity | lia].
Qed.

Lemma dict_set_set {V} (d : dict V) k v v' :
  dict_set (dict_set d k v) k v' = dict_set d k v'.
Proof.
  induction d as [|[k0 v0] d IH]; cbn.
  - now rewrite String.eqb_refl.
  - destruct (String.eqb k k0) eqn:E; cbn; rewrite E; [reflexivity|].
    now rewrite IH.
Qed.

Lemma keys_dict_set_present {V} (d : dict V) k v v0 :
  dict_get d k = Some v0 -> keys (dict_set d k v) = keys d.
Proof.
  unfold keys. induction d as [|[k1 v1] d IH]; cbn; [discriminate|].
  destruct (String.eqb k k1) eqn:E; cbn; [reflexivity|].
  intros H. now rewrite IH.
Qed.

(** X4: [_compress_payload] is idempotent; it keeps the keys of the
    payload and every entry but [answer]; and an [answer] that is a text
    has afterwards at most [kept] characters and the mark. *)
Theorem _compress_payload_idempotent payload :
  _compress_payload (_compress_payload payload) = _compress_payload payload
  /\ keys (_compress_payload payload) = keys payload
  /\ (forall answer,
        dict_get (_compress_payload payload) "answer" = Some (PStr answer) ->
        length answer <= kept + length mark)
  /\ (forall k, k <> "answer" ->
        dict_get (_compress_payload payload) k = dict_get payload k).
Proof.
  unfold _compress_payload. generalize kept. intros kept.
  destruct (dict_get payload "answer") as [[| | | |answer| |]|] eqn:E;
    try (rewrite E; repeat split; congruence).
  destruct (kept <? length answer) eqn:Hlen.
  - apply Nat.ltb_lt in Hlen.
    assert (Hcut : length (take kept answer ++ mark) = kept + length mark).
    { rewrite length_append, length_take; [reflexivity | lia]. }
    rewrite dict_get_set_same.
    assert (Hlt : (kept <? length (take kept answer ++ mark)) = true).
    { apply Nat.ltb_lt. rewrite Hcut. unfold mark. cbn [length]. lia. }
    rewrite Hlt. repeat split.
    + rewrite dict_set_set. f_equal. f_equal. f_equal.
      apply take_take_append. lia.
    + eapply keys_dict_set_present; eassumption.
    + intros a Ha. injection Ha as <-. rewrite Hcut. lia.
    + intros k Hk. now apply dict_get_set_other.
  - rewrite E, Hlen. apply Nat.ltb_ge in Hlen. repeat split.
    intros a Ha. injection Ha as <-. lia.
Qed.

End PayloadFacts.

(** ** app/llm.py: the backends of an attempt *)
Section EngineMore.
Import Py Types Effects Utils LLM.

Variable rt : Runtime.
Variable w : World.
Variable models : list Model.
Variable _build_prompt : LLMReasoningRequest -> Z -> string.

(** The calls to the backends of a window, in order. *)
Definition generate_calls (prompt : string) (window : list Model) : history :=
  map (fun m => Generate (model_name m) prompt) window.

(** One run of the loop over a window: the backends are called in order up
    to the first that answers; the run returns [None] exactly when the
    window is empty; and it raises only when every backend failed and the
    fallback raises. *)
Lemma try_models_run request prompt rest :
  forall n model_index s,
    model_index + List.length rest = n ->
    exists r s' k,
      try_models rt w request prompt n model_index rest s = (r, s')
      /\ session s' = session s
      /\ k <= List.length rest
      /\ events s' = (events s ++ generate_calls prompt (firstn k rest))%list
      /\ match r with
         | Ok v => v = None <-> rest = []
         | Raise e =>
             _fallback_reasoning rt request = Raise e
             /\ k = List.length rest /\ rest <> []
         end.
Proof.
  induction rest as [|m rest IH]; intros n i s Hn.
  - exists (Ok None), s, 0. cbn. rewrite app_nil_r. repeat split; reflexivity.
  - cbn [try_models]. unfold try_except, bind at 1, generate_content, perform.
    cbn [events session].
    destruct (generated w (model_name m) prompt (events s)) as [g | e].
    + eexists _, _, 1. cbn. repeat split; try reflexivity; try lia;
        discriminate.
    + cbn [List.length] in Hn.
      destruct (i =? n - 1) eqn:Ei.
      * apply Nat.eqb_eq in Ei. assert (rest = []) as ->.
        { destruct rest; [reflexivity | cbn in Hn; lia]. }
        unfold bind, lift, ret.
        destruct (_fallback_reasoning rt request) as [f|e'] eqn:Ef;
          eexists _, _, 1; cbn; repeat split; try reflexivity; try lia;
          discriminate.
      * apply Nat.eqb_neq in Ei.
        destruct (IH n (S i)
                    (mkState (events s ++ [Generate (model_name m) prompt])%list
                             (session s))) as (r & s' & k & E & Hs & Hk & Hev & Hr);
          [lia|].
        exists r, s', (S k). rewrite E. cbn [events session] in *.
        split; [reflexivity|]. split; [exact Hs|]. split; [cbn; lia|].
        split; [rewrite Hev; cbn; now rewrite <- app_assoc|].
        destruct r as [v|e'].
        -- split; [|discriminate]. intros ->.
           destruct rest; [cbn in Hn; lia|].
           destruct Hr as [Hr _]. now specialize (Hr eq_refl).
        -- destruct Hr as (Hf & -> & _). repeat split; [exact Hf|discriminate].
Qed.

Lemma reason_about_question_body_run request attempt s :
  let window := models_to_try models attempt in
  exists r s' k,
    reason_about_question_body rt w models _build_prompt request attempt s
    = (r, s')
    /\ session s' = session s
    /\ k <= List.length window
    /\ events s'
       = (events s
          ++ generate_calls (_build_prompt request attempt) (firstn k window))%list
    /\ match r with
       | Ok v => v = None <-> window = []
       | Raise e =>
           _fallback_reasoning rt request = Raise e
           /\ k = List.length window /\ window <> []
       end.
Proof.
  cbn zeta. unfold reason_about_question_body.
  apply try_models_run. reflexivity.
Qed.

(** What the wrapper has recorded when the last run of a call begins:
    nothing; or a failed run and the pause of 1 second; or two failed runs
    with the pauses of 1 second and of 2 seconds. *)
Definition failed_runs (calls : history) (failed : nat) : history :=
  match failed with
  | 0 => []
  | 1 => calls ++ [Sleep 1]
  | _ => calls ++ [Sleep 1] ++ calls ++ [Sleep 2]
  end%list.

Lemma reason_about_question_run request attempt s :
  let window := models_to_try models attempt in
  let prompt := _build_prompt request attempt in
  exists r s' k failed,
    reason_about_question rt w models _build_prompt request attempt s = (r, s')
    /\ session s' = session s
    /\ k <= List.length window
    /\ failed <= 2
    /\ events s'
       = (events s ++ failed_runs (generate_calls prompt window) failed
                   ++ generate_calls prompt (firstn k window))%list
    /\ match r with
       | Ok v => v = None <-> window = []
       | Raise e =>
           _fallback_reasoning rt request = Raise e
           /\ failed = 2 /\ k = List.length window /\ window <> []
       end
    /\ (forall fallback,
          _fallback_reasoning rt request = Ok fallback ->
          failed = 0 /\ exists v, r = Ok v).
Proof.
  cbn zeta.
  set (window := models_to_try models attempt).
  set (prompt := _build_prompt request attempt).
  set (body := reason_about_question_body rt w models _build_prompt request
                                          attempt).
  assert (Hbody : forall s0, exists r s' k,
             body s0 = (r, s')
             /\ session s' = session s0
             /\ k <= List.length window
             /\ events s'
                = (events s0 ++ generate_calls prompt (firstn k window))%list
             /\ match r with
                | Ok v => v = None <-> window = []
                | Raise e =>
                    _fallback_reasoning rt request = Raise e
                    /\ k = List.length window /\ window <> []
                end).
  { intros s0. apply reason_about_question_body_run. }
  unfold reason_about_question, async_retry. fold body.
  destruct (Hbody s) as (r1 & s1 & k1 & E1 & S1 & K1 & V1 & R1).
  rewrite retry_from_S. unfold try_except at 1. rewrite E1.
  destruct r1 as [v1|e1].
  { exists (Ok v1), s1, k1, 0. cbn [failed_runs List.app].
    repeat split; try assumption; try lia; try apply R1; eauto. }
  destruct R1 as (F1 & -> & N1). rewrite firstn_all in V1.
  cbn [Nat.ltb Nat.leb Nat.sub]. unfold bind at 1, sleep at 1, perform at 1.
  set (s1' := mkState (events s1 ++ [Sleep 1])%list (session s1)).
  destruct (Hbody s1') as (r2 & s2 & k2 & E2 & S2 & K2 & V2 & R2).
  rewrite retry_from_S. unfold try_except at 1. rewrite E2.
  destruct r2 as [v2|e2].
  { exists (Ok v2), s2, k2, 1. cbn [failed_runs].
    split; [reflexivity|]. split; [now rewrite S2|]. split; [exact K2|].
    split; [lia|]. split.
    - rewrite V2. subst s1'. cbn [events]. rewrite V1.
      now rewrite <- !app_assoc.
    - split; [exact R2|]. intros f Hf. congruence. }
  destruct R2 as (F2 & -> & N2). rewrite firstn_all in V2.
  cbn [Nat.ltb Nat.leb Nat.sub]. unfold bind at 1, sleep at 1, perform at 1.
  set (s2' := mkState (events s2 ++ [Sleep (1 * default_backoff)])%list
                      (session s2)).
  destruct (Hbody s2') as (r3 & s3 & k3 & E3 & S3 & K3 & V3 & R3).
  rewrite retry_from_S. unfold try_except at 1. rewrite E3.
  assert (Hev : events s3
                = (events s ++ failed_runs (generate_calls prompt window) 2
                            ++ generate_calls prompt (firstn k3 window))%list).
  { rewrite V3. subst s2'. cbn [events]. rewrite V2. subst s1'. cbn [events].
    rewrite V1. cbn [failed_runs]. now rewrite <- !app_assoc. }
  assert (Hs : session s3 = session s).
  { rewrite S3. subst s2'. cbn [session]. rewrite S2. subst s1'. cbn [session].
    exact S1. }
  destruct r3 as [v3|e3].
  { exists (Ok v3), s3, k3, 2.
    split; [reflexivity|]. split; [exact Hs|]. split; [exact K3|].
    split; [lia|]. split; [exact Hev|]. split; [exact R3|].
    intros f Hf. congruence. }
  destruct R3 as (F3 & -> & N3).
  cbn [Nat.ltb Nat.leb Nat.sub retry_from raise].
  exists (Raise e3), s3, (List.length window), 2.
  split; [reflexivity|]. split; [exact Hs|]. split; [lia|]. split; [lia|].
  split; [exact Hev|]. split; [now repeat split|].
  intros f Hf. congruence.
Qed.




End EngineMore.

(** ** Confidence, kinds, and the classifier *)
Section PureMore.
Import Py Types Effects Parser LLM Solver.

(** *** Confidence *)

(** X7: the confidence is never below 0.1 nor above 1: it is one of 0.7,
    0.7 + 0.2, 0.7 - 0.3 and (0.7 + 0.2) - 0.3 in binary64 arithmetic, so
    the clamp of [_calculate_confidence] never changes it. *)
Theorem _calculate_confidence_range response answer :
  let c := _calculate_confidence response answer in
  flt c (nearest_float false 1 10) = false
  /\ flt (nearest_float false 1 1) c = false
  /\ In c [ nearest_float false 7 10;
            fadd (nearest_float false 7 10) (nearest_float false 2 10);
            fsub (nearest_float false 7 10) (nearest_float false 3 10);
            fsub (fadd (nearest_float false 7 10) (nearest_float false 2 10))
                 (nearest_float false 3 10) ].
Proof.
  unfold _calculate_confidence.
  destruct (feedback_clear response);
    destruct (negb (truthy answer)
              || match answer with
                 | PStr s => length (strip s) <? 2
                 | _ => false
                 end);
    vm_compute; intuition congruence.
Qed.

(** *** Kinds *)

(** X15: whenever it returns, coercion to STRING gives the text of the
    answer, and coercion to BASE64_FILE a text that base64 reads: it
    decodes to the UTF-8 bytes of the answer's text, which decode to that
    text -- unless the answer is a text that already was the base64 form of
    a greeting, which is returned as it is.  Both raise only what
    [str(answer)] raises.  Coercion to BOOLEAN always returns, and returns
    a boolean. *)
Theorem _enforce_answer_type_kind rt a :
  match _enforce_answer_type rt a STRING with
  | Ok v => exists s, v = PStr s /\ str rt a = Ok s
  | Raise e => str rt a = Raise e
  end
  /\ (exists b, _enforce_answer_type rt a BOOLEAN = Ok (PBool b))
  /\ match _enforce_answer_type rt a BASE64_FILE with
     | Ok v =>
         exists s,
           v = PStr s
           /\ ((exists t, str rt a = Ok t
                          /\ b64decode s = Some (encode t)
                          /\ decode (encode t) = Some (code_points t))
               \/ (a = PStr s /\ already_encoded s = true))
     | Raise e => str rt a = Raise e
     end.
Proof.
  assert (Hround : forall t,
            b64decode (b64encode (encode t)) = Some (encode t)
            /\ decode (encode t) = Some (code_points t)).
  { intros t. split; [apply b64decode_b64encode | apply decode_encode]. }
  split; [|split].
  - unfold _enforce_answer_type. cbn [enforce_body]. unfold with_str.
    destruct (str rt a) as [s|e] eqn:E; [eauto | reflexivity].
  - destruct a; cbn; eauto.
  - unfold _enforce_answer_type.
    destruct a as [|b|n|f|s|l|d]; cbn [enforce_body];
      try (unfold with_str;
           match goal with |- context [str rt ?v] =>
             destruct (str rt v) as [t|e] eqn:E end;
           [eexists; split; [reflexivity|]; left; exists t;
            split; [reflexivity | apply Hround]
           | reflexivity]).
    destruct (already_encoded s) eqn:E.
    + exists s. split; [reflexivity|]. right. now split.
    + destruct (contains "hello world" (lower s));
        (eexists; split; [reflexivity|]; left; exists s;
         split; [reflexivity | apply Hround]).
Qed.

(** *** The classifier *)

Lemma contains_trans a b s :
  contains a b = true -> contains b s = true -> contains a s = true.
Proof.
  rewrite !contains_spec. intros (p & q & ->) (p' & q' & ->).
  exists (p' ++ p), (q ++ q'). now rewrite !append_assoc_s.
Qed.

(** X21: a question that mentions a prime number is classified NUMBER,
    since the words prime number hold the word number -- unless it holds
    both phrases of the override, which make it STRING.  The entry prime
    number of the yes/no words never decides. *)
Theorem _determine_answer_type_prime_number text :
  contains "prime number" (lower text) = true ->
  _determine_answer_type text
  = if contains "is 97 a prime number" (lower text)
       && contains "answer with 'yes' or 'no'" (lower text)
    then STRING else NUMBER.
Proof.
  intros H. unfold _determine_answer_type.
  destruct (_ && _); [reflexivity|].
  assert (Hn : any_in numeric_words (lower text) = true).
  { unfold any_in. apply existsb_exists. exists "number". split.
    - cbn. tauto.
    - apply (contains_trans _ "prime number"); [reflexivity | exact H]. }
  now rewrite Hn.
Qed.

End PureMore.

(** ** Numbers in a text *)
Section NumberFacts.
Import Py Types LLM Solver.

Lemma read_digits_run a r acc count :
  all_in is_digit a = true -> stops is_digit r = true ->
  exists n, read_digits (a ++ r) acc count = (n, count + length a, r).
Proof.
  revert acc count. induction a as [|c a IH]; intros acc count Ha Hr.
  - exists acc. cbn. rewrite Nat.add_0_r.
    destruct r as [|c r]; [reflexivity|]. cbn in *.
    apply negb_true_iff in Hr. now rewrite Hr.
  - cbn in Ha. apply andb_true_iff in Ha. destruct Ha as [Hc Ha].
    cbn [append read_digits]. rewrite Hc.
    destruct (IH (10 * acc + Z.of_nat (code c - 48))%Z (S count) Ha Hr)
      as (n & E).
    exists n. rewrite E. cbn [length]. f_equal. f_equal. lia.
Qed.

(** [float_of_decimal] behind the sign. *)
Definition float_of_body (neg : bool) (body : string) : option float :=
  let '(i, ni, r) := read_digits body 0 0 in
  let '(n, nf, r') :=
    match r with
    | String "."%char r1 => read_digits r1 i 0
    | _ => (i, 0, r)
    end in
  match ni + nf, r' with
  | S _, EmptyString => Some (nearest_float neg n (10 ^ Z.of_nat nf))
  | _, _ => None
  end.

Lemma float_of_decimal_minus body :
  float_of_decimal (String "-" body) = float_of_body true body.
Proof. reflexivity. Qed.

Lemma float_of_decimal_plain c r :
  Ascii.eqb c "-" = false ->
  float_of_decimal (String c r) = float_of_body false (String c r).
Proof.
  destruct c as [b0 b1 b2 b3 b4 b5 b6 b7].
  destruct b0, b1, b2, b3, b4, b5, b6, b7; intros H;
    try reflexivity; discriminate H.
Qed.

Lemma digit_not_minus c : is_digit c = true -> Ascii.eqb c "-" = false.
Proof.
  intros H.
  pose proof (by_cases1
                (fun c => implb (is_digit c) (negb (Ascii.eqb c "-")))
                ltac:(vm_compute; reflexivity) c) as E.
  cbn beta in E. rewrite H in E. now apply negb_true_iff in E.
Qed.

Lemma digit_not_dot c : is_digit c = true -> Ascii.eqb c "." = false.
Proof.
  intros H.
  pose proof (by_cases1
                (fun c => implb (is_digit c) (negb (Ascii.eqb c ".")))
                ltac:(vm_compute; reflexivity) c) as E.
  cbn beta in E. rewrite H in E. now apply negb_true_iff in E.
Qed.

(** A run of digits, then a point and a run of digits or nothing: what
    [float] reads behind the sign. *)
Lemma float_of_body_digits neg a1 a3 :
  all_in is_digit a1 = true -> 1 <= length a1 -> all_in is_digit a3 = true ->
  float_of_body neg (a1 ++ a3) <> None
  /\ float_of_body neg (a1 ++ "." ++ a3) <> None.
Proof.
  intros H1 Hlen H3. split.
  - unfold float_of_body.
    destruct (read_digits_run (a1 ++ a3) EmptyString 0%Z 0) as (n & E).
    { now rewrite all_in_app, H1, H3. }
    { reflexivity. }
    rewrite append_nil_r in E. rewrite E.
    rewrite length_append. cbn [Nat.add].
    destruct (length a1 + length a3) eqn:El; [lia|].
    cbn. discriminate.
  - unfold float_of_body.
    destruct (read_digits_run a1 ("." ++ a3) 0%Z 0 H1 eq_refl) as (i & E).
    rewrite E. cbn [append].
    destruct (read_digits_run a3 EmptyString i 0 H3 eq_refl) as (n & E3).
    rewrite append_nil_r in E3. rewrite E3.
    destruct (length a1) eqn:El; [lia|]. cbn. discriminate.
Qed.

Lemma all_in_one p a :
  all_in p a = true -> length a <= 1 ->
  a = EmptyString \/ exists c, a = String c EmptyString /\ p c = true.
Proof.
  destruct a as [|c [|d a]]; cbn; intros H Hl; [now left | | lia].
  right. exists c. rewrite andb_true_r in H. auto.
Qed.

(** Every token of [number_pattern] is a text that [float] reads. *)
Lemma number_token_reads s g n :
  match_at number_pattern s = Some (g, n) -> float_of_decimal g <> None.
Proof.
  unfold match_at, number_pattern. cbn [before group after match_atoms].
  intros H.
  apply match_opt_sound in H. destruct H as (a0 & s1 & -> & H0 & L0 & H).
  apply match_plus_sound in H. destruct H as (a1 & s2 & -> & H1 & L1 & H).
  apply match_opt_sound in H. destruct H as (a2 & s3 & -> & H2 & L2 & H).
  apply match_star_sound in H. destruct H as (a3 & s4 & -> & H3 & H).
  injection H as <- _.
  assert (E : (a0 ++ a1 ++ a2 ++ a3 ++ s4) = (a0 ++ a1 ++ a2 ++ a3) ++ s4)
    by now rewrite !append_assoc_s.
  rewrite E, take_consumed.
  destruct (float_of_body_digits true a1 a3 H1 L1 H3) as [Ht1 Ht2].
  destruct (float_of_body_digits false a1 a3 H1 L1 H3) as [Hf1 Hf2].
  assert (Hhead : exists c r, a1 = String c r /\ is_digit c = true).
  { destruct a1 as [|c r]; [cbn in L1; lia|]. cbn in H1.
    apply andb_true_iff in H1. exists c, r. tauto. }
  destruct Hhead as (c & r & Ea1 & Hc).
  assert (Hplain : forall rest,
             float_of_decimal (a1 ++ rest) = float_of_body false (a1 ++ rest)).
  { intros rest. rewrite Ea1. cbn [append].
    apply float_of_decimal_plain, digit_not_minus, Hc. }
  destruct (all_in_one _ _ H0 L0) as [-> | (c0 & -> & Hc0)];
    destruct (all_in_one _ _ H2 L2) as [-> | (c2 & -> & Hc2)];
    try (apply Ascii.eqb_eq in Hc0; subst c0);
    try (apply Ascii.eqb_eq in Hc2; subst c2);
    cbn [append].
  - now rewrite Hplain.
  - now rewrite Hplain.
  - now rewrite float_of_decimal_minus.
  - now rewrite float_of_decimal_minus.
Qed.

Lemma first_number_reads text first rest :
  findall number_pattern text = first :: rest ->
  float_of_decimal first <> None.
Proof.
  intros E.
  pose proof (findall_sound number_pattern
                (fun g => float_of_decimal g <> None) text
                number_token_reads) as F.
  rewrite E in F. now inversion F.
Qed.

Lemma int_if_whole_total num : int_if_whole num <> None.
Proof.
  unfold int_if_whole. destruct (is_integer num) eqn:E; [|discriminate].
  destruct (int_of_whole_float num E) as (z & ->). discriminate.
Qed.

(** An [int] that is no [bool], or a [float]. *)
Definition is_number (v : pyval) : bool :=
  match v with
  | PInt _ | PFloat _ => true
  | _ => false
  end.

Lemma int_if_whole_number num v : int_if_whole num = Some v -> is_number v = true.
Proof.
  unfold int_if_whole. destruct (is_integer num).
  - destruct (int_of_float num); cbn; [|discriminate].
    intros E. now injection E as <-.
  - intros E. now injection E as <-.
Qed.

Lemma number_of_text text :
  exists v,
    match findall number_pattern text with
    | first :: _ =>
        match float_of_decimal first with
        | Some num => int_if_whole num
        | None => None
        end
    | [] => Some (PInt 0)
    end = Some v
    /\ is_number v = true.
Proof.
  destruct (findall number_pattern text) as [|first rest] eqn:E.
  - now exists (PInt 0).
  - apply first_number_reads in E.
    destruct (float_of_decimal first) as [num|]; [|contradiction].
    destruct (int_if_whole num) as [v|] eqn:Ev.
    + exists v. split; [reflexivity|]. now apply int_if_whole_number in Ev.
    + now apply int_if_whole_total in Ev.
Qed.

(** X16: coercion to NUMBER leaves an int and a bool as they are, turns a
    float into an int or leaves it, and turns every text into an int or a
    float: every token the number pattern finds is a text [float] reads, so
    for these answers the exception handler of [_enforce_answer_type] is
    never reached. *)
Theorem _enforce_answer_type_number rt :
  (forall n, _enforce_answer_type rt (PInt n) NUMBER = Ok (PInt n))
  /\ (forall b, _enforce_answer_type rt (PBool b) NUMBER = Ok (PBool b))
  /\ (forall x, exists v,
         _enforce_answer_type rt (PFloat x) NUMBER = Ok v
         /\ is_number v = true)
  /\ (forall s, exists v,
         _enforce_answer_type rt (PStr s) NUMBER = Ok v
         /\ is_number v = true).
Proof.
  split; [reflexivity|]. split; [reflexivity|]. split; [intros x | intros s].
  - unfold _enforce_answer_type. cbn [enforce_body].
    destruct (is_integer x) eqn:E; [|now eexists].
    destruct (int_of_whole_float x E) as (z & ->). now eexists.
  - unfold _enforce_answer_type. cbn [enforce_body].
    destruct (number_of_text s) as (v & -> & Hv). now exists v.
Qed.

(** X6: the answer parsed for a NUMBER request is always an int or a
    float, whatever the response text, and its provisional confidence is
    0.8: the handler that falls back to the text with confidence 0.5 is
    never reached. *)
Theorem _parse_llm_response_number response_text :
  is_number (response_answer (_parse_llm_response response_text NUMBER)) = true
  /\ confidence (_parse_llm_response response_text NUMBER)
     = nearest_float false 8 10.
Proof.
  unfold _parse_llm_response.
  destruct (number_of_text (strip response_text)) as (v & -> & Hv).
  now split.
Qed.

End NumberFacts.

(** ** app/llm.py: models, prompt, validation *)
Section LLMEngineFacts.
Import Py Types Effects Utils LLM LLMEngine.

(** *** [validate_answer] *)

(** X11: [validate_answer] never raises, and it fails open: with no model
    loaded it approves the answer without any call; when the answer cannot
    be rendered for the prompt it approves it without any call; and when
    the call to the first model fails it approves the answer too. *)
Theorem validate_answer_fails_open rt w models question answer expected_type s :
  exists verdict s',
    validate_answer rt w models question answer expected_type s
    = (Ok verdict, s')
    /\ (models = [] -> verdict = true /\ s' = s)
    /\ (forall e, str rt answer = Raise e -> verdict = true /\ s' = s)
    /\ (forall model rest answer_text e,
          models = model :: rest ->
          str rt answer = Ok answer_text ->
          generated w (model_name model)
                    (validation_prompt question answer_text expected_type)
                    (events s) = Raise e ->
          verdict = true).
Proof.
  unfold validate_answer, try_except, bind at 1, lift.
  destruct (str rt answer) as [answer_text|e0].
  2:{ exists true, s. cbn. repeat split; congruence. }
  destruct models as [|model rest].
  - exists true, s. cbn. repeat split; congruence.
  - unfold bind, generate_content, perform. cbn [events session].
    destruct (generated w (model_name model)
                (validation_prompt question answer_text expected_type)
                (events s))
      as [g|e] eqn:E.
    + eexists _, _. split; [reflexivity|]. split; [discriminate|].
      split; [discriminate|].
      intros m r t e H Ht Hg. injection H as Hm _. subst m.
      injection Ht as <-. congruence.
    + eexists _, _. split; [reflexivity|]. split; [discriminate|].
      split; [discriminate|]. reflexivity.
Qed.

(** *** [setup_models] *)

Section SetupFacts.
Variable settings : ModelSettings.
Variable constructs : string -> bool.

(** A model loaded from the configuration. *)
Definition is_configured (names : list string) (m : Model) : Prop :=
  In (model_name m, role m) (model_configs settings)
  /\ In (full_model_name (model_name m)) names
  /\ constructs (model_name m) = true.

Lemma load_configured_fold names configs acc :
  let step := fun models (config : string * string) =>
       let (model_name, role) := config in
       if existsb (String.eqb (full_model_name model_name)) names
       then if constructs model_name
            then (models ++ [mkModel model_name role])%list
            else models
       else models in
  exists loaded,
    fold_left step configs acc = (acc ++ loaded)%list
    /\ List.length loaded <= List.length configs
    /\ Forall (fun m => In (model_name m, role m) configs
                        /\ In (full_model_name (model_name m)) names
                        /\ constructs (model_name m) = true) loaded.
Proof.
  cbn zeta. revert acc. induction configs as [|[name r] configs IH]; intros acc.
  - exists []. cbn. now rewrite app_nil_r.
  - cbn [fold_left].
    destruct (existsb (String.eqb (full_model_name name)) names) eqn:Ea;
      [destruct (constructs name) eqn:Ec|].
    + destruct (IH (acc ++ [mkModel name r])%list) as (l & E & Hl & F).
      exists (mkModel name r :: l). rewrite E, <- app_assoc.
      split; [reflexivity|]. split; [cbn; lia|]. constructor.
      * cbn. split; [now left|]. split; [|exact Ec].
        apply existsb_exists in Ea. destruct Ea as (x & Hx & Ex).
        apply String.eqb_eq in Ex. now subst x.
      * eapply Forall_impl; [|exact F]. cbn. intros m (H1 & H2). auto.
    + destruct (IH acc) as (l & E & Hl & F). exists l. rewrite E.
      split; [reflexivity|]. split; [cbn; lia|].
      eapply Forall_impl; [|exact F]. cbn. intros m (H1 & H2). auto.
    + destruct (IH acc) as (l & E & Hl & F). exists l. rewrite E.
      split; [reflexivity|]. split; [cbn; lia|].
      eapply Forall_impl; [|exact F]. cbn. intros m (H1 & H2). auto.
Qed.

Lemma load_emergency_one names :
  load_emergency constructs names = []
  \/ exists name,
       load_emergency constructs names = [mkModel name "emergency"]
       /\ In name names
       /\ contains "gemini" name = true /\ contains "flash" name = true
       /\ constructs name = true.
Proof.
  induction names as [|n names IH]; [now left|].
  cbn [load_emergency].
  destruct (contains "gemini" n && contains "flash" n) eqn:E.
  - destruct (constructs n) eqn:Ec.
    + right. exists n. apply andb_true_iff in E. cbn. tauto.
    + destruct IH as [IH | (name & IH & Hin & H)]; [now left|].
      right. exists name. cbn. tauto.
  - destruct IH as [IH | (name & IH & Hin & H)]; [now left|].
    right. exists name. cbn. tauto.
Qed.

Lemma load_configured_spec names :
  List.length (load_configured settings constructs names)
  <= S (List.length (GEMINI_MODEL_FALLBACKS settings))
  /\ Forall (is_configured names) (load_configured settings constructs names).
Proof.
  unfold load_configured.
  destruct (load_configured_fold names (model_configs settings) [])
    as (loaded & E & Hlen & F).
  cbn zeta in E. rewrite E. cbn [List.app]. split; [|exact F].
  unfold model_configs in Hlen. cbn [List.length] in Hlen.
  now rewrite length_map in Hlen.
Qed.

(** X8: when [setup_models] returns, the engine has at least one model and
    at most one per configured name; its models are configured ones that
    the service lists -- or, when none of those could be loaded, one single
    emergency model whose listed name holds both gemini and flash. *)
Theorem setup_models_loaded names models :
  setup_models settings (Ok names) constructs = Ok models ->
  models <> []
  /\ List.length models <= S (List.length (GEMINI_MODEL_FALLBACKS settings))
  /\ (Forall (is_configured names) models
      \/ exists name,
           models = [mkModel name "emergency"] /\ In name names
           /\ contains "gemini" name = true /\ contains "flash" name = true
           /\ constructs name = true).
Proof.
  unfold setup_models.
  destruct (load_configured_spec names) as [Hlen F].
  destruct (load_configured settings constructs names) as [|m l] eqn:E.
  - destruct (load_emergency_one names) as [-> | (name & -> & H)];
      [discriminate|].
    intros H0. injection H0 as <-. split; [discriminate|].
    split; [cbn; lia|]. right. now exists name.
  - intros H0. injection H0 as <-. split; [discriminate|]. split; [exact Hlen|].
    now left.
Qed.

(** X9: with none of the configured models listed, the engine that
    [setup_models] leaves has one model, and the window of every attempt
    after the first is empty. *)
Theorem setup_models_emergency_window names models attempt :
  (forall config, In config (model_configs settings) ->
     existsb (String.eqb (full_model_name (fst config))) names = false) ->
  setup_models settings (Ok names) constructs = Ok models ->
  (1 <= attempt)%Z ->
  List.length models = 1 /\ models_to_try models attempt = [].
Proof.
  intros Hnone Hset Hatt.
  assert (Hcfg : load_configured settings constructs names = []).
  { destruct (load_configured_spec names) as [_ F].
    destruct (load_configured settings constructs names) as [|m l]; [reflexivity|].
    inversion F as [|? ? (Hin & Hav & _) _]; subst.
    specialize (Hnone _ Hin). cbn [fst] in Hnone.
    assert (Ht : existsb (String.eqb (full_model_name (model_name m))) names
                 = true).
    { apply existsb_exists. eexists. split; [exact Hav | apply String.eqb_refl]. }
    congruence. }
  unfold setup_models in Hset. rewrite Hcfg in Hset.
  destruct (load_emergency_one names) as [E | (name & E & _)];
    rewrite E in Hset; [discriminate|].
  injection Hset as <-. split; [reflexivity|].
  unfold models_to_try.
  destruct (attempt =? 0)%Z eqn:E0; [apply Z.eqb_eq in E0; lia|].
  destruct (attempt =? 1)%Z; reflexivity.
Qed.

End SetupFacts.
End LLMEngineFacts.

(** ** app/llm.py: the prompt *)
Section PromptFacts.
Import Py Types LLM LLMEngine.

Lemma contains_in_line indent part line sep lines :
  line = indent ++ part -> In line lines ->
  contains part (join sep lines) = true.
Proof.
  intros -> Hin. apply (contains_trans _ (indent ++ part)).
  - apply contains_spec. exists indent, EmptyString. now rewrite append_nil_r.
  - now apply contains_join.
Qed.

Ltac line_of indent :=
  eapply (contains_in_line indent); [reflexivity | cbn [In]; tauto].

(** X10: the prompt carries the question, the context and the required
    output type as they are; from the second attempt on it carries the
    note with the number of the attempt; and for a question with a yes/no
    phrase it carries the yes/no instruction as point 4, next to the
    instruction of the expected type as point 3 (for STRING the yes/no
    one). *)
Theorem _build_prompt_carries request attempt :
  let prompt := _build_prompt request attempt in
  contains ("QUESTION: " ++ question request) prompt = true
  /\ contains ("CONTEXT AND DATA: " ++ context request) prompt = true
  /\ contains ("Required output type: " ++ type_value (request_type request)) prompt
     = true
  /\ ((0 < attempt)%Z ->
      contains ("NOTE: This is attempt " ++ str_of_int (attempt + 1)
                ++ ". Previous attempts were incorrect.") prompt = true)
  /\ (any_in yes_no_phrases (lower (question request)) = true ->
      contains "4. You MUST respond with ONLY 'yes' or 'no'. Do not use numbers, do not use true/false."
               prompt = true
      /\ contains ("3. " ++ type_instruction true (request_type request)) prompt
         = true).
Proof.
  cbn zeta. unfold _build_prompt.
  split; [line_of "        "|].
  split; [line_of "        "|].
  split; [line_of "        "|].
  split.
  - intros Hpos. apply Z.ltb_lt in Hpos. rewrite Hpos.
    match goal with |- contains ?p _ = true =>
      apply (contains_trans _ ("        5. " ++ String LF
               ("NOTE: This is attempt " ++ str_of_int (attempt + 1)
                ++ ". Previous attempts were incorrect. Please reconsider carefully and double-check your reasoning.")))
    end.
    + apply contains_spec.
      exists ("        5. " ++ String LF EmptyString),
        " Please reconsider carefully and double-check your reasoning.".
      cbn [append]. do 12 f_equal. now rewrite !append_assoc_s.
    + apply contains_join. cbn [In]. tauto.
  - intros Hyn. rewrite Hyn. split; line_of "        ".
Qed.

End PromptFacts.

(** ** app/solver.py: the answer of an attempt *)
Section SolverMore.
Import Py Types Effects Utils Parser LLM Submitter Solver.

Variable rt : Runtime.
Variable w : World.
Variable settings : Settings.Settings.
Variable x : Extractors.
Variable models : list Model.
Variable _build_prompt : LLMReasoningRequest -> Z -> string.
Variable request : QuizRequest.
Variable start_time : Q.

(** *** The fallback *)




(** *** JSON questions *)

(** What the JSON branch of [_parse_llm_response] answers. *)
Definition invalid_json : pyval := PDict [("error", PStr "Invalid JSON format")].

Lemma models_to_try_empty attempt :
  List.length models < 3 -> (2 <= attempt)%Z -> models_to_try models attempt = [].
Proof.
  intros Hlen Hatt. unfold models_to_try.
  destruct (attempt =? 0)%Z eqn:E0; [apply Z.eqb_eq in E0; lia|].
  destruct (attempt =? 1)%Z eqn:E1; [apply Z.eqb_eq in E1; lia|].
  unfold slice_from. apply skipn_all2. lia.
Qed.

(** [result.answer] on [None]. *)
Definition no_answer : exn :=
  Exn "AttributeError" "'NoneType' object has no attribute 'answer'".





(** *** An empty window *)

(** X13: with fewer than three models, an attempt of index 2 or more
    cannot be reasoned about: [_reason_about_answer] raises AttributeError
    before any call to the outside, and so does the loop of
    [_solve_with_retries] from that attempt on, whatever the verdicts
    before. *)
Theorem attempts_from_empty_window u q ctx todo attempt last s :
  List.length models < 3 -> (2 <= attempt)%Z ->
  _reason_about_answer rt w models _build_prompt q ctx attempt s
  = (Raise no_answer, s)
  /\ attempts_from rt w settings models _build_prompt request u q ctx
                   (S todo) attempt last s
     = (Raise no_answer, s).
Proof.
  intros Hlen Hatt.
  assert (H : _reason_about_answer rt w models _build_prompt q ctx attempt s
              = (Raise no_answer, s)).
  { unfold _reason_about_answer.
    rewrite (bind_ok _ _ s None s); [reflexivity|].
    unfold reason_about_question. apply async_retry_returns.
    unfold reason_about_question_body.
    now rewrite (models_to_try_empty attempt Hlen Hatt). }
  split; [exact H|].
  cbn [attempts_from]. now apply bind_raise.
Qed.

End SolverMore.

(** ** app/solver.py: the attempts on a question *)
Section AttemptsMore.
Import Py Types Effects Utils Parser LLM Submitter Solver.

Variable rt : Runtime.
Variable w : World.
Variable settings : Settings.Settings.
Variable models : list Model.
Variable _build_prompt : LLMReasoningRequest -> Z -> string.
Variable request : QuizRequest.

Lemma posts_app (h1 h2 : history) :
  posts (h1 ++ h2)%list = posts h1 + posts h2.
Proof. unfold posts. now rewrite filter_app, length_app. Qed.

Lemma pauses_app (h1 h2 : history) :
  pauses (h1 ++ h2)%list = (pauses h1 ++ pauses h2)%list.
Proof.
  induction h1 as [|ev h1 IH]; [reflexivity|].
  destruct ev; cbn; now rewrite ?IH.
Qed.

Lemma posts_generate_calls prompt window : posts (generate_calls prompt window) = 0.
Proof. induction window; [reflexivity | exact IHwindow]. Qed.

Lemma pauses_generate_calls prompt window : pauses (generate_calls prompt window) = [].
Proof. induction window; [reflexivity | exact IHwindow]. Qed.

(** What a step may add to the record: at most [n] posts, and no
    pauses but at most [j] of [RETRY_DELAY]. *)
Definition within (n j : nat) (delta : history) : Prop :=
  posts delta <= n
  /\ exists i, i <= j /\ pauses delta = repeat (Settings.RETRY_DELAY settings) i.

Lemma within_app n1 j1 n2 j2 d1 d2 :
  within n1 j1 d1 -> within n2 j2 d2 -> within (n1 + n2) (j1 + j2) (d1 ++ d2)%list.
Proof.
  intros [H1 (i1 & L1 & P1)] [H2 (i2 & L2 & P2)]. split.
  - rewrite posts_app. lia.
  - exists (i1 + i2). split; [lia|]. now rewrite pauses_app, P1, P2, repeat_app.
Qed.

Lemma within_weaken n j n' j' d : within n j d -> n <= n' -> j <= j' -> within n' j' d.
Proof.
  intros [H (i & L & P)] Hn Hj. split; [lia|]. exists i. split; [lia | exact P].
Qed.

Lemma within_nil : within 0 0 [].
Proof. split; [reflexivity|]. now exists 0. Qed.

(** The request that [_reason_about_answer] hands to the engine. *)
Definition reasoning_request (q : ParsedQuestion) (ctx : string) (attempt : Z)
  : LLMReasoningRequest :=
  {| question := question_text q; context := ctx;
     request_type := expected_type q; attempt_number := attempt + 1 |}.

(** The fallback does not look at the number of the attempt. *)
Lemma _fallback_reasoning_attempt q ctx attempt attempt' :
  _fallback_reasoning rt (reasoning_request q ctx attempt)
  = _fallback_reasoning rt (reasoning_request q ctx attempt').
Proof. reflexivity. Qed.

Section FallbackReturns.
Variable q : ParsedQuestion.
Variable ctx : string.
(** The fallback returns for the question and its context: no run of
    digits of the context is beyond what [int] converts. *)
Hypothesis fallback_returns :
  forall e, _fallback_reasoning rt (reasoning_request q ctx 0) <> Raise e.

Lemma _reason_about_answer_within attempt s :
  exists delta,
    events (snd (_reason_about_answer rt w models _build_prompt q ctx attempt s))
    = (events s ++ delta)%list
    /\ within 0 0 delta.
Proof.
  unfold _reason_about_answer. fold (reasoning_request q ctx attempt).
  destruct (reason_about_question_run rt w models _build_prompt
              (reasoning_request q ctx attempt) attempt s)
    as (r & s' & k & failed & E & _ & _ & _ & Hev & _ & F).
  cbn zeta in Hev.
  assert (failed = 0) as ->.
  { destruct (_fallback_reasoning rt (reasoning_request q ctx attempt))
      as [f|e] eqn:Ef.
    - now destruct (F f eq_refl).
    - rewrite (_fallback_reasoning_attempt q ctx attempt 0) in Ef.
      now apply fallback_returns in Ef. }
  cbn [failed_runs List.app] in Hev.
  unfold bind at 1. rewrite E.
  eexists. split.
  - destruct r as [[r0|]|e]; cbn [snd ret raise]; [|exact Hev|exact Hev].
    unfold bind, lift, ret.
    destruct (str rt (response_answer r0)); [|exact Hev].
    destruct (_enforce_answer_type rt (response_answer r0) (expected_type q))
      as [v|e]; [|exact Hev].
    destruct (str rt v); exact Hev.
  - split; [now rewrite posts_generate_calls|].
    exists 0. split; [lia|]. now rewrite pauses_generate_calls.
Qed.

Lemma _submit_answer_within u a s :
  exists delta,
    events (snd (_submit_answer rt w request u q a s)) = (events s ++ delta)%list
    /\ within 1 0 delta.
Proof.
  unfold _submit_answer. unfold bind, lift.
  match goal with |- context [answer_submission w ?a ?b ?c ?d] =>
    destruct (answer_submission w a b c d) as [sub|e] end.
  2:{ exists []. cbn. rewrite app_nil_r. split; [reflexivity|].
      eapply within_weaken; [apply within_nil | lia | lia]. }
  match goal with |- context [str rt ?v] =>
    destruct (str rt v) as [t|e] end.
  2:{ exists []. cbn. rewrite app_nil_r. split; [reflexivity|].
      eapply within_weaken; [apply within_nil | lia | lia]. }
  destruct (submit_answer_run rt w sub (submit_url q) s)
    as (v & s' & E & _ & [Hev | Hev]); rewrite E; cbn [snd]; rewrite Hev.
  - exists []. rewrite app_nil_r. split; [reflexivity|].
    eapply within_weaken; [apply within_nil | lia | lia].
  - eexists. split; [reflexivity|]. split; [cbn; lia|]. now exists 0.
Qed.

(** The attempts from [attempt] on, [todo] of them being left: at most
    [todo] posts, at most [todo - 1] pauses, all of [RETRY_DELAY]; and a
    verdict that is not correct comes back only when every pause was taken. *)
Lemma attempts_from_within u :
  forall todo attempt last s,
    (attempt + Z.of_nat todo = Settings.MAX_QUIZ_ATTEMPTS settings)%Z ->
    exists delta i,
      events (snd (attempts_from rt w settings models _build_prompt request
                                 u q ctx todo attempt last s))
      = (events s ++ delta)%list
      /\ posts delta <= todo
      /\ i <= todo - 1
      /\ pauses delta = repeat (Settings.RETRY_DELAY settings) i
      /\ (forall r,
            fst (attempts_from rt w settings models _build_prompt request
                               u q ctx todo attempt last s) = Ok (Some r) ->
            correct r = false -> i = todo - 1)
      /\ (fst (attempts_from rt w settings models _build_prompt request
                             u q ctx todo attempt last s) = Ok None ->
          todo = 0).
Proof.
  induction todo as [|todo IH]; intros attempt last s Hinv.
  - exists [], 0. cbn. rewrite app_nil_r. repeat split; lia.
  - remember (attempts_from rt w settings models _build_prompt request
                            u q ctx (S todo) attempt last s) as run eqn:Erun.
    cbn [attempts_from] in Erun. unfold bind at 1 in Erun.
    destruct (_reason_about_answer_within attempt s)
      as (d1 & E1 & P1 & i1 & L1 & Q1).
    assert (i1 = 0) by lia. subst i1. cbn [repeat] in Q1.
    destruct (_reason_about_answer rt w models _build_prompt q ctx attempt s)
      as [[a|e] s1]; cbn [snd] in E1.
    2:{ subst run. exists d1, 0. cbn [snd fst]. rewrite Q1.
        repeat split; try lia; try assumption; congruence. }
    unfold bind at 1 in Erun.
    destruct (_submit_answer_within u a s1) as (d2 & E2 & P2 & i2 & L2 & Q2).
    assert (i2 = 0) by lia. subst i2. cbn [repeat] in Q2.
    destruct (_submit_answer rt w request u q a s1) as [[r|e] s2];
      cbn [snd] in E2.
    2:{ subst run. exists (d1 ++ d2)%list, 0. cbn [snd fst].
        rewrite E2, E1, app_assoc, posts_app, pauses_app, Q1, Q2.
        repeat split; try lia; congruence. }
    destruct (correct r) eqn:Hr.
    { subst run. exists (d1 ++ d2)%list, 0. cbn [snd fst ret].
      rewrite E2, E1, app_assoc, posts_app, pauses_app, Q1, Q2.
      split; [reflexivity|]. split; [lia|]. split; [lia|].
      split; [reflexivity|]. split; [|discriminate].
      intros r0 H0 H1. injection H0 as <-. congruence. }
    unfold bind at 1 in Erun.
    destruct (attempt <? Settings.MAX_QUIZ_ATTEMPTS settings - 1)%Z eqn:Hlt.
    + apply Z.ltb_lt in Hlt.
      unfold sleep, perform in Erun. cbn [events session] in Erun.
      destruct (IH (attempt + 1)%Z (Some r)
                  (mkState (events s2 ++ [Sleep (Settings.RETRY_DELAY settings)])%list
                           (session s2)))
        as (d3 & i3 & E3 & P3 & L3 & Q3 & R3 & N3); [lia|].
      rewrite <- Erun in E3, R3, N3.
      exists ((d1 ++ d2) ++ [Sleep (Settings.RETRY_DELAY settings)] ++ d3)%list,
        (S i3).
      split; [rewrite E3; cbn [events]; rewrite E2, E1; now rewrite <- !app_assoc|].
      rewrite !posts_app, !pauses_app, Q1, Q2, Q3.
      split; [cbn; lia|]. split; [lia|]. split; [reflexivity|]. split.
      * intros r0 H0 H1. specialize (R3 r0 H0 H1). lia.
      * intros H0. specialize (N3 H0). lia.
    + apply Z.ltb_ge in Hlt. cbn [ret] in Erun.
      assert (todo = 0) by lia. subst todo.
      destruct (IH (attempt + 1)%Z (Some r) s2)
        as (d3 & i3 & E3 & P3 & L3 & Q3 & R3 & N3); [lia|].
      rewrite <- Erun in E3, R3, N3.
      exists ((d1 ++ d2) ++ d3)%list, 0.
      split; [rewrite E3, E2, E1; now rewrite <- !app_assoc|].
      assert (i3 = 0) by lia. subst i3.
      rewrite !posts_app, !pauses_app, Q1, Q2, Q3.
      split; [cbn; lia|]. split; [lia|]. split; [reflexivity|]. split; [lia|].
      rewrite Erun. cbn [attempts_from ret fst]. discriminate.
Qed.

End FallbackReturns.

(** X14: for a question and context on which the fallback of the engine
    returns, [_solve_with_retries] posts at most MAX_QUIZ_ATTEMPTS answers;
    it sleeps only between two attempts, RETRY_DELAY each time, so at most
    MAX_QUIZ_ATTEMPTS - 1 times; it returns a verdict that is not correct
    only after all attempts were made; and it returns [None] only when
    MAX_QUIZ_ATTEMPTS allows no attempt. *)
Theorem _solve_with_retries_bounded u q ctx s :
  (forall e, _fallback_reasoning rt (reasoning_request q ctx 0) <> Raise e) ->
  let run := _solve_with_retries rt w settings models _build_prompt request
                                 u q ctx s in
  let limit := Z.to_nat (Settings.MAX_QUIZ_ATTEMPTS settings) in
  exists delta i,
    events (snd run) = (events s ++ delta)%list
    /\ posts delta <= limit
    /\ i <= limit - 1
    /\ pauses delta = repeat (Settings.RETRY_DELAY settings) i
    /\ (forall r, fst run = Ok (Some r) -> correct r = false -> i = limit - 1)
    /\ (fst run = Ok None -> limit = 0).
Proof.
  intros Hfb. cbn zeta. unfold _solve_with_retries.
  destruct (Z.le_gt_cases 0 (Settings.MAX_QUIZ_ATTEMPTS settings)) as [Hpos | Hneg].
  - apply attempts_from_within; [exact Hfb | lia].
  - replace (Z.to_nat (Settings.MAX_QUIZ_ATTEMPTS settings)) with 0 by lia.
    exists [], 0. cbn. rewrite app_nil_r. repeat split; lia.
Qed.

End AttemptsMore.

(** ** app/solver.py: the fetches of a page *)
Section ResourcesMore.
Import Py Types Effects Utils Parser LLM Submitter Solver.

Variable rt : Runtime.
Variable w : World.

Lemma for_resources_fetches headers urls :
  forall acc s, exists parts s',
    for_resources rt w headers urls acc s = (Ok parts, s')
    /\ session s' = session s
    /\ events s' = (events s ++ map (fun u => Fetch u headers) urls)%list.
Proof.
  induction urls as [|u rest IH]; intros acc s.
  - exists acc, s. cbn. now rewrite app_nil_r.
  - cbn [for_resources]. unfold bind at 1.
    unfold resource_parts, try_except, bind, fetch_resource, perform, ret.
    cbn [events session].
    destruct (fetched w u headers (events s)) as [r|e];
      match goal with |- context [for_resources rt w headers rest ?a ?st] =>
        destruct (IH a st) as (parts & s' & E & Hs & Hev)
      end;
      exists parts, s'; rewrite E; cbn [events session] in *;
      (split; [reflexivity|]); (split; [exact Hs|]);
      rewrite Hev; cbn [map]; now rewrite <- app_assoc.
Qed.

(** X17: [_process_resources] never raises and leaves the session as it
    was.  Without resources it calls nothing.  Otherwise it asks the
    fallback browser for the page once and then fetches every resource once,
    in the order of the list, each with the same headers: those found on
    the page, or none when the page could not be loaded. *)
Theorem _process_resources_fetches current_url urls s :
  exists ctx s',
    _process_resources rt w current_url urls s = (Ok ctx, s')
    /\ session s' = session s
    /\ match urls with
       | [] => ctx = "No external resources required." /\ s' = s
       | _ =>
           exists headers,
             events s'
             = (events s
                ++ FallbackGet current_url
                   :: map (fun u => Fetch u headers) urls)%list
             /\ headers
                = match fallback_page w current_url (events s) with
                  | Ok page_content =>
                      extract_api_headers (visible_text page_content)
                  | Raise _ => []
                  end
       end.
Proof.
  unfold _process_resources. destruct urls as [|u rest].
  - exists "No external resources required.", s. cbn. auto.
  - unfold bind at 1.
    unfold try_except, bind at 1, fallback_get_page_content, perform, ret.
    cbn [events session].
    set (headers := match fallback_page w current_url (events s) with
                    | Ok page_content =>
                        extract_api_headers (visible_text page_content)
                    | Raise _ => []
                    end).
    set (s0 := mkState (events s ++ [FallbackGet current_url])%list (session s)).
    assert (E0 : (let (r, s') :=
                    match fallback_page w current_url (events s) with
                    | Ok a => (Ok (extract_api_headers (visible_text a)), s0)
                    | Raise e => (Raise e, s0)
                    end in
                  match r with
                  | Ok a => (Ok a, s')
                  | Raise _ => (Ok [], s')
                  end) = (Ok headers, s0)).
    { subst headers. destruct (fallback_page w current_url (events s));
        reflexivity. }
    rewrite E0.
    destruct (for_resources_fetches headers (u :: rest)
                ["EXTERNAL RESOURCES:"] s0) as (parts & s' & E & Hs & Hev).
    unfold bind. rewrite E.
    eexists _, s'. split; [reflexivity|]. split; [exact Hs|].
    exists headers. split; [|reflexivity].
    rewrite Hev. subst s0. cbn [events]. now rewrite <- app_assoc.
Qed.

End ResourcesMore.

(** ** app/solver.py: the end of a chain *)
Section ChainMore.
Import Py Types Effects Utils Parser LLM Submitter Solver.

Variable rt : Runtime.
Variable w : World.
Variable settings : Settings.Settings.
Variable x : Extractors.
Variable models : list Model.
Variable _build_prompt : LLMReasoningRequest -> Z -> string.
Variable request : QuizRequest.
Variable start_time : Q.

(** *** Cleanup *)

(** The order in which [_cleanup] closes the collaborators. *)
Definition closing_order : list component :=
  [Browser; FallbackBrowser; Fetcher; Effects.Submitter].

Ltac closes k :=
  eexists k, _; cbn; rewrite <- ?app_assoc;
  repeat split; try lia; try reflexivity; try congruence.

Lemma _cleanup_run s :
  exists k s',
    _cleanup w s = (Ok tt, s')
    /\ 1 <= k <= 4
    /\ events s' = (events s ++ map Close (firstn k closing_order))%list
    /\ (forall e, closed w Browser (events s) = Raise e ->
                  k = 1 /\ session s' = session s).
Proof.
  unfold _cleanup, try_except, bind, close_session, Effects.close, perform,
    get_session_flag, set_session_flag, ret.
  cbn [events session].
  destruct (closed w Browser (events s)) as [[]|e1] eqn:E1; [cbn|closes 1].
  match goal with
  | |- context [closed w FallbackBrowser ?h] =>
      destruct (closed w FallbackBrowser h) as [[]|e2]; [cbn|closes 2]
  end.
  match goal with
  | |- context [closed w Fetcher ?h] =>
      destruct (closed w Fetcher h) as [[]|e3]; [cbn|closes 3]
  end.
  destruct (session s) eqn:Hs; [cbn|closes 3].
  match goal with
  | |- context [closed w Effects.Submitter ?h] =>
      destruct (closed w Effects.Submitter h) as [[]|e4]; closes 4
  end.
Qed.

(** X19: [_cleanup] never raises.  It closes the browser, the fallback
    browser, the fetcher and, when the submitter holds a session, that
    session, in this order, and it stops at the first close that raises:
    nothing behind it is closed, and the submitter keeps its session.  When
    no close raises, everything is closed and the submitter holds no
    session. *)
Theorem _cleanup_stops_at_first_failure s :
  let h1 := (events s ++ [Close Browser])%list in
  let h2 := (h1 ++ [Close FallbackBrowser])%list in
  let h3 := (h2 ++ [Close Fetcher])%list in
  exists s',
    _cleanup w s = (Ok tt, s')
    /\ match closed w Browser (events s) with
       | Raise _ => events s' = h1 /\ session s' = session s
       | Ok _ =>
           match closed w FallbackBrowser h1 with
           | Raise _ => events s' = h2 /\ session s' = session s
           | Ok _ =>
               match closed w Fetcher h2 with
               | Raise _ => events s' = h3 /\ session s' = session s
               | Ok _ =>
                   if session s then
                     events s' = (h3 ++ [Close Effects.Submitter])%list
                     /\ session s'
                        = match closed w Effects.Submitter h3 with
                          | Ok _ => false
                          | Raise _ => true
                          end
                   else events s' = h3 /\ session s' = false
               end
           end
       end.
Proof.
  cbn zeta.
  unfold _cleanup, close_session, Effects.close.
  unfold try_except, bind, perform, get_session_flag, set_session_flag, ret.
  cbn [events session].
  destruct (closed w Browser (events s)) as [[]|e1];
    [|eexists; split; [reflexivity|]; now split].
  destruct (closed w FallbackBrowser (events s ++ [Close Browser])%list)
    as [[]|e2]; [|eexists; split; [reflexivity|]; now split].
  destruct (closed w Fetcher
              ((events s ++ [Close Browser]) ++ [Close FallbackBrowser])%list)
    as [[]|e3]; [|eexists; split; [reflexivity|]; now split].
  destruct (session s) eqn:Hs; cbn [events session];
    [|eexists; split; [reflexivity|]; now split].
  destruct (closed w Effects.Submitter
              (((events s ++ [Close Browser]) ++ [Close FallbackBrowser])
               ++ [Close Fetcher])%list) as [[]|e4];
    eexists; (split; [reflexivity|]); now split.
Qed.

(** *** The chain always ends with the cleanup *)

Lemma adds_only_weaken {A} (P Q : event -> Prop) (m : M A) :
  (forall ev, P ev -> Q ev) -> adds_only P m -> adds_only Q m.
Proof.
  intros HPQ Hm s. destruct (Hm s) as (d & E & F). exists d.
  split; [exact E|]. eapply Forall_impl; [|exact F]. exact HPQ.
Qed.

Definition any_event (ev : event) : Prop := True.

Lemma while_loop_grows fuel u :
  adds_only any_event
    (while_loop rt w settings x models _build_prompt request start_time fuel u).
Proof.
  revert u. induction fuel as [|fuel IH]; intros u; cbn [while_loop].
  - apply adds_only_ret.
  - destruct u as [u|]; [|apply adds_only_ret].
    destruct (is_set (Some u)); [|apply adds_only_ret].
    apply adds_only_bind.
    { unfold _is_timed_out, now. apply adds_only_bind.
      - now apply adds_only_perform.
      - intros ?. apply adds_only_ret. }
    intros [|]; [apply adds_only_ret|].
    apply adds_only_bind.
    { apply (adds_only_weaken not_clock); [easy|]. apply solve_page_no_clock. }
    intros [|u']; [apply adds_only_ret | apply IH].
Qed.

(** X20: [solve_chain] never raises, whatever happens in the loop, and
    the last calls it makes are those of [_cleanup], the closing of the
    browser first. *)
Theorem solve_chain_always_cleans_up fuel s :
  exists r s' before k,
    solve_chain rt w settings x models _build_prompt request start_time fuel s
    = (Ok r, s')
    /\ 1 <= k <= 4
    /\ events s'
       = (events s ++ before ++ map Close (firstn k closing_order))%list.
Proof.
  unfold solve_chain.
  set (body := try_except _ _).
  assert (Hbody : exists r s1 before,
             body s = (Ok r, s1) /\ events s1 = (events s ++ before)%list).
  { assert (Hgrow : adds_only any_event body).
    { subst body. apply adds_only_try_except.
      - apply adds_only_bind; [apply while_loop_grows|].
        intros ?. apply adds_only_ret.
      - intros ?. apply adds_only_ret. }
    destruct (Hgrow s) as (d & E & _).
    assert (Hok : exists r s1, body s = (Ok r, s1)).
    { subst body. unfold try_except.
      match goal with |- context [match ?m s with _ => _ end] =>
        destruct (m s) as [[r|e] s1] end; unfold ret; eauto. }
    destruct Hok as (r & s1 & Hok). rewrite Hok in E. cbn in E. eauto. }
  destruct Hbody as (r & s1 & before & Eb & Ev).
  rewrite (bind_ok _ _ _ _ _ Eb).
  destruct (_cleanup_run s1) as (k & s' & Ec & Hk & Hev & _).
  rewrite (bind_ok _ _ _ _ _ Ec).
  exists r, s', before, k. split; [reflexivity|]. split; [exact Hk|].
  rewrite Hev, Ev. now rewrite <- app_assoc.
Qed.

(** *** The question of a page *)

(** What the parser makes of a loaded page: the question, or nothing when
    it raises. *)
Definition parsed (u : string) (page_content : PageContent)
  : option ParsedQuestion :=
  match parse_page_content x u page_content with
  | Ok question => Some question
  | Raise _ => None
  end.

(** X29: [_get_question_content] never raises and leaves the session as it
    was.  It asks the browser for the page, and the fallback browser only
    when the browser fails; it returns the question parsed from the page it
    got, and [None] when both browsers fail or when the parser raises. *)
Theorem _get_question_content_never_raises u s :
  exists question s',
    _get_question_content w x u s = (Ok question, s')
    /\ session s' = session s
    /\ match browser_page w u (events s) with
       | Ok page_content =>
           events s' = (events s ++ [PageGet u])%list
           /\ question = parsed u page_content
       | Raise _ =>
           events s' = (events s ++ [PageGet u; FallbackGet u])%list
           /\ question
              = match fallback_page w u (events s ++ [PageGet u])%list with
                | Ok page_content => parsed u page_content
                | Raise _ => None
                end
       end.
Proof.
  unfold _get_question_content, parsed.
  unfold bind at 1, try_except at 1, bind at 1, browser_get_page_content,
    perform at 1.
  cbn [events session].
  destruct (browser_page w u (events s)) as [page_content|e1].
  - cbn [ret]. unfold try_except, bind, lift, ret.
    destruct (parse_page_content x u page_content);
      eexists _, _; (split; [reflexivity|]); cbn; auto.
  - unfold try_except at 1, bind at 1, fallback_get_page_content, perform.
    cbn [events session].
    destruct (fallback_page w u (events s ++ [PageGet u])%list)
      as [page_content|e2].
    + cbn [ret]. unfold try_except, bind, lift, ret.
      destruct (parse_page_content x u page_content);
        eexists _, _; (split; [reflexivity|]); cbn;
        rewrite <- app_assoc; auto.
    + eexists _, _. split; [reflexivity|]. cbn. rewrite <- app_assoc. auto.
Qed.

(** *** A page that cannot be loaded *)

(** X18: within the budget (180 seconds counts as within), a page that
    neither browser can load ends the loop quietly: the browser is tried,
    then the fallback browser, and the loop is left with [current_url] as
    it was -- no resource is fetched, no backend is called, nothing is
    posted, nothing is raised. *)
Theorem while_loop_page_unavailable fuel u s e1 e2 :
  u <> EmptyString ->
  (time_time w (events s) - start_time <= 180)%Q ->
  browser_page w u (events s ++ [Clock])%list = Raise e1 ->
  fallback_page w u (events s ++ [Clock; PageGet u])%list = Raise e2 ->
  while_loop rt w settings x models _build_prompt request start_time
             (S fuel) (Some u) s
  = (Ok (Some (Some u)),
     mkState (events s ++ [Clock; PageGet u; FallbackGet u])%list (session s)).
Proof.
  intros Hu Ht Hb Hf. cbn [while_loop is_set].
  destruct (String.eqb u EmptyString) eqn:E; [apply String.eqb_eq in E; contradiction|].
  cbn [negb].
  unfold _is_timed_out, now. unfold bind at 1. unfold bind at 1.
  unfold perform at 1. cbn [events session].
  apply Qle_bool_iff in Ht. rewrite Ht. cbn [ret negb].
  unfold solve_page, _get_question_content, bind, try_except,
    browser_get_page_content, fallback_get_page_content, perform.
  cbn [events session]. rewrite Hb. cbn [events session].
  rewrite <- !app_assoc. cbn [List.app]. rewrite Hf.
  cbn. now rewrite <- ?app_assoc.
Qed.

End ChainMore.

(** ** app/parser.py: the headers *)
Section HeaderShape.
Import Py Types Parser.

(** X22: every header that [extract_api_headers] returns is one of
    Authorization, X-API-Key and Content-Type; its value is the stored form
    of a match; and the value of Authorization names the Bearer scheme. *)
Theorem extract_api_headers_shape text name v :
  dict_get (extract_api_headers text) name = Some v ->
  In name ["Authorization"; "X-API-Key"; "Content-Type"]
  /\ (exists m, v = header_value name m)
  /\ (name = "Authorization" -> contains "bearer" (lower v) = true).
Proof.
  intros H.
  assert (Hin : In name ["Authorization"; "X-API-Key"; "Content-Type"]).
  { destruct (String.eqb name "Authorization") eqn:E1;
      [apply String.eqb_eq in E1; subst; cbn; tauto|].
    destruct (String.eqb name "X-API-Key") eqn:E2;
      [apply String.eqb_eq in E2; subst; cbn; tauto|].
    destruct (String.eqb name "Content-Type") eqn:E3;
      [apply String.eqb_eq in E3; subst; cbn; tauto|].
    apply String.eqb_neq in E1, E2, E3. exfalso.
    unfold extract_api_headers, patterns in H. cbn [fold_left] in H.
    rewrite !for_pattern_fold_other in H by assumption. discriminate H. }
  split; [exact Hin|].
  assert (Hm : exists m, v = header_value name m).
  { cbn [In] in Hin. destruct Hin as [<- | [<- | [<- | []]]].
    - rewrite (extract_api_headers_last_matching text "Authorization"
                 authorization_patterns) in H by (cbn; tauto).
      now apply last_matching_value in H.
    - rewrite (extract_api_headers_last_matching text "X-API-Key"
                 api_key_patterns) in H by (cbn; tauto).
      now apply last_matching_value in H.
    - rewrite (extract_api_headers_last_matching text "Content-Type"
                 content_type_patterns) in H by (cbn; tauto).
      now apply last_matching_value in H. }
  split; [exact Hm|].
  intros ->. destruct Hm as (m & ->). apply header_value_bearer.
Qed.
End HeaderShape.

(** ** app/parser.py: the question text *)
Section QuestionTextFacts.
Import Py Types Text QuizParser.

Lemma lstrip_stops s : stops is_space (lstrip s) = true.
Proof.
  induction s as [|c s IH]; [reflexivity|]. cbn [lstrip].
  destruct (is_space c) eqn:E; [exact IH|]. cbn. now rewrite E.
Qed.

Lemma rstrip_head c s :
  is_space c = false -> exists r, rstrip (String c s) = String c r.
Proof.
  intros Hc. cbn [rstrip]. destruct (rstrip s); [rewrite Hc|]; eauto.
Qed.

Lemma lstrip_fixed s : stops is_space s = true -> lstrip s = s.
Proof.
  destruct s as [|c s]; [reflexivity|]. cbn. intros H.
  apply negb_true_iff in H. now rewrite H.
Qed.

Lemma rstrip_rstrip s : rstrip (rstrip s) = rstrip s.
Proof.
  induction s as [|c s IH]; [reflexivity|]. cbn [rstrip].
  destruct (rstrip s) as [|c' r] eqn:E.
  - destruct (is_space c) eqn:Hc; [reflexivity|]. cbn. now rewrite Hc.
  - cbn [rstrip]. cbn [rstrip] in IH. rewrite IH. reflexivity.
Qed.

Lemma rstrip_stops s : stops is_space s = true -> stops is_space (rstrip s) = true.
Proof.
  destruct s as [|c s]; [reflexivity|]. cbn [stops]. intros H.
  apply negb_true_iff in H. destruct (rstrip_head c s H) as (r & ->).
  cbn. now rewrite H.
Qed.

(** [strip] is idempotent. *)
Lemma strip_strip s : strip (strip s) = strip s.
Proof.
  unfold strip.
  rewrite (lstrip_fixed (rstrip (lstrip s))).
  - apply rstrip_rstrip.
  - apply rstrip_stops, lstrip_stops.
Qed.

Lemma lstrip_suffix s : exists a, s = a ++ lstrip s.
Proof.
  induction s as [|c s (a & IH)]; [now exists EmptyString|]. cbn [lstrip].
  destruct (is_space c).
  - exists (String c a). cbn. now rewrite <- IH.
  - now exists EmptyString.
Qed.

Lemma rstrip_prefix s : exists b, s = rstrip s ++ b.
Proof.
  induction s as [|c s (b & IH)]; [now exists EmptyString|]. cbn [rstrip].
  destruct (rstrip s) as [|c' r] eqn:E.
  - destruct (is_space c).
    + exists (String c s). reflexivity.
    + exists b. cbn. cbn in IH. now rewrite <- IH.
  - exists b. cbn in *. congruence.
Qed.

(** The stripped text is a part of the text. *)
Lemma strip_part s : exists a b, s = a ++ strip s ++ b.
Proof.
  unfold strip. destruct (lstrip_suffix s) as (a & Ha).
  destruct (rstrip_prefix (lstrip s)) as (b & Hb).
  exists a, b. now rewrite <- Hb.
Qed.

Lemma contains_strip_part sub s :
  contains sub (strip s) = true -> contains sub s = true.
Proof.
  rewrite !contains_spec. intros (p & q & E).
  destruct (strip_part s) as (a & b & Hs).
  exists (a ++ p), (q ++ b). rewrite Hs at 1. rewrite E.
  now rewrite !append_assoc_s.
Qed.

(** No line of [split] holds the separator. *)
Lemma split_lines sep s :
  Forall (fun line => contains (one sep) line = false) (str_split sep s).
Proof.
  induction s as [|c s IH]; cbn [str_split].
  - now constructor.
  - destruct (Ascii.eqb c sep) eqn:E.
    + constructor; [reflexivity | exact IH].
    + destruct (str_split sep s) as [|line lines]; [now constructor; [cbn; rewrite Ascii.eqb_sym, E|]|].
      inversion IH as [|? ? H1 H2]; subst. constructor; [|exact H2].
      cbn [contains starts_with one]. rewrite Ascii.eqb_sym, E. exact H1.
Qed.

Lemma Forall_firstn_keeps {A} (P : A -> Prop) n (l : list A) :
  Forall P l -> Forall P (firstn n l).
Proof.
  revert l. induction n as [|n IH]; intros l H; [constructor|].
  destruct l as [|a l]; [constructor|]. inversion H; subst.
  cbn. constructor; auto.
Qed.

(** What [_extract_question_text] keeps of a line. *)
Definition kept_line (l : string) : Prop :=
  l <> EmptyString /\ strip l = l /\ starts_with "{" l = false
  /\ contains (one LF) l = false /\ contains "your-email" l = false.

Lemma question_line_keeps lines :
  Forall (fun line => contains (one LF) line = false) lines ->
  forall flag clean,
    Forall kept_line clean ->
    Forall kept_line (snd (fold_left question_line lines (flag, clean))).
Proof.
  induction lines as [|line lines IH]; intros Hl flag clean Hc; [exact Hc|].
  inversion Hl as [|? ? Hline Hrest]; subst.
  cbn [fold_left]. unfold question_line at 2.
  destruct (starts_with "{" (strip line)) eqn:Hbrace; cbn [orb].
  { rewrite andb_false_l. now apply IH. }
  destruct (contains "your-email" line) eqn:Hmail.
  { rewrite andb_false_l. now apply IH. }
  destruct (flag && starts_with "}" (strip line)); [now apply IH|].
  destruct flag; cbn [negb andb]; [now apply IH|].
  destruct (String.eqb (strip line) EmptyString) eqn:He; cbn [negb];
    [now apply IH|].
  apply IH; [exact Hrest|]. apply Forall_app. split; [exact Hc|].
  constructor; [|constructor].
  unfold kept_line. split; [|split; [|split; [|split]]].
  - intros E. rewrite E in He. discriminate.
  - apply strip_strip.
  - exact Hbrace.
  - destruct (contains (one LF) (strip line)) eqn:E; [|reflexivity].
    apply contains_strip_part in E. congruence.
  - destruct (contains "your-email" (strip line)) eqn:E; [|reflexivity].
    apply contains_strip_part in E. congruence.
Qed.

(** X23: the question text has at most ten lines; each of them is a line
    of the page text without the white space around it, is not empty, does
    not begin with a brace and does not hold the placeholder your-email. *)
Theorem _extract_question_text_lines text :
  exists lines,
    _extract_question_text text = join (one LF) lines
    /\ List.length lines <= 10
    /\ Forall kept_line lines.
Proof.
  unfold _extract_question_text.
  eexists. split; [reflexivity|]. split.
  - rewrite length_firstn. lia.
  - apply Forall_firstn_keeps.
    apply question_line_keeps; [apply split_lines | constructor].
Qed.

End QuestionTextFacts.

(** ** app/parser.py: URLs *)
Section UrlFacts.
Import Py Types Text QuizParser.

Variable urljoin : string -> string -> result string.
Variable list_of_set : list string -> list string.
Variable base_url : string.

Lemma for_match_likely matches url :
  submit_url_in_matches urljoin base_url matches = Some url ->
  exists u, _is_likely_submit_url u = true
            /\ url = _normalize_url urljoin base_url u.
Proof.
  induction matches as [|m rest IH]; cbn [submit_url_in_matches]; [discriminate|].
  destruct (_is_likely_submit_url _) eqn:E; [|exact IH].
  intros H. injection H as <-. eauto.
Qed.

Lemma for_pattern_likely patterns text url :
  submit_url_in_patterns urljoin base_url patterns text = Some url ->
  exists u, _is_likely_submit_url u = true
            /\ url = _normalize_url urljoin base_url u.
Proof.
  induction patterns as [|p rest IH]; cbn [submit_url_in_patterns]; [discriminate|].
  destruct (submit_url_in_matches urljoin base_url (findall p text)) eqn:E; [|exact IH].
  intros H. injection H as <-. now apply for_match_likely in E.
Qed.

Lemma for_url_likely urls url :
  submit_url_in_urls urljoin base_url urls = Some url ->
  exists u, In u urls /\ _is_likely_submit_url u = true
            /\ url = _normalize_url urljoin base_url u.
Proof.
  induction urls as [|m rest IH]; cbn [submit_url_in_urls]; [discriminate|].
  destruct (_is_likely_submit_url m) eqn:E.
  - intros H. injection H as <-. exists m. cbn. auto.
  - intros H. destruct (IH H) as (u & Hin & Hu). exists u. cbn. tauto.
Qed.

Lemma starts_with_take p rest n :
  length p <= n -> starts_with p (take n (p ++ rest)) = true.
Proof.
  revert n. induction p as [|c p IH]; intros n H; [reflexivity|].
  destruct n as [|n]; cbn in *; [lia|].
  rewrite Ascii.eqb_refl. apply IH. lia.
Qed.

(** Every text that [url_pattern] finds begins with http. *)
Lemma url_pattern_http s g n :
  match_at url_pattern s = Some (g, n) -> starts_with "http" g = true.
Proof.
  unfold match_at, url_pattern, url_chars.
  cbn [before group after match_atoms lit List.app].
  intros H.
  repeat (apply match_one_sound in H; destruct H as (? & ? & -> & ? & H)).
  apply match_opt_sound in H. destruct H as (a1 & s1 & -> & _ & _ & H).
  repeat (apply match_one_sound in H; destruct H as (? & ? & -> & ? & H)).
  apply match_star_sound in H. destruct H as (a2 & s2 & -> & _ & H).
  injection H as <- _.
  repeat match goal with
         | E : is_char _ _ = true |- _ =>
             apply Ascii.eqb_eq in E; subst
         end.
  apply (starts_with_take "http").
  cbn [length]. rewrite !length_append. cbn [length].
  rewrite ?length_append.
  destruct (length s2) as [|[|[|[|l]]]]; lia.
Qed.

(** X24: the submit URL is the URL of the page itself, or it comes from a
    candidate that mentions submit, answer, check, verify or solution: the
    candidate itself when it begins with http, its [urljoin] with the URL
    of the page otherwise -- and when that [urljoin] raises, so does
    [_extract_submit_url]. *)
Theorem _extract_submit_url_likely text html :
  _extract_submit_url urljoin base_url text html = Ok base_url
  \/ exists u,
       _is_likely_submit_url u = true
       /\ _extract_submit_url urljoin base_url text html
          = if starts_with "http" u then Ok u else urljoin base_url u.
Proof.
  unfold _extract_submit_url.
  destruct (submit_url_in_patterns urljoin base_url url_patterns text) as [url|] eqn:E.
  - right. apply for_pattern_likely in E. destruct E as (u & Hu & ->). eauto.
  - destruct (submit_url_in_urls urljoin base_url (findall url_pattern text))
      as [url|] eqn:E'; [|now left].
    right. apply for_url_likely in E'. destruct E' as (u & _ & Hu & ->). eauto.
Qed.

(** X25: every resource that [_extract_resources] returns begins with
    http, is a resource URL, and mentions none of submit, answer and check:
    a relative link is never a resource.  (Of [list(set(l))] only this is
    used: it yields elements of [l].) *)
Theorem _extract_resources_absolute text html u :
  (forall l x, In x (list_of_set l) -> In x l) ->
  In u (_extract_resources list_of_set text html) ->
  starts_with "http" u = true
  /\ _is_resource_url u = true
  /\ any_in ["submit"; "answer"; "check"] (lower u) = false.
Proof.
  intros Hset Hin. unfold _extract_resources in Hin. apply Hset in Hin.
  assert (H : starts_with "http" u = true /\ _is_resource_url u = true).
  { apply in_app_or in Hin. destruct Hin as [Hin | Hin];
      apply filter_In in Hin; destruct Hin as [Hin Hf].
    - split; [|exact Hf].
      pose proof (findall_sound url_pattern
                    (fun g => starts_with "http" g = true) text
                    url_pattern_http) as F.
      rewrite Forall_forall in F. now apply F.
    - now apply andb_true_iff in Hf. }
  destruct H as [H1 H2]. repeat split; try assumption.
  unfold _is_resource_url in H2. apply andb_true_iff in H2.
  destruct H2 as [_ H2]. now apply negb_true_iff in H2.
Qed.

End UrlFacts.

(** ** app/parser.py: the text of a page *)
Section HtmlTextFacts.
Import Py Types Text QuizParser.

(** Every white-space character of the text is a plain space, and what
    follows it is not white space. *)
Fixpoint single_spaced (s : string) : bool :=
  match s with
  | EmptyString => true
  | String c s' =>
      (if is_space c then Ascii.eqb c " " && stops is_space s' else true)
      && single_spaced s'
  end.

Lemma sub_from_skip m repl a s :
  sub_from m repl (length a) (a ++ s) = sub_from m repl 0 s.
Proof. induction a as [|c a IH]; [now destruct s | exact IH]. Qed.

(** A match of [\s+]: the longest run of white space, when the text begins
    with one. *)
Lemma match_length_spaces c s :
  if is_space c then
    exists a s', s = a ++ s' /\ all_in is_space a = true
                 /\ stops is_space s' = true
                 /\ match_length spaces (String c s) = Some (S (length a))
  else match_length spaces (String c s) = None.
Proof.
  unfold match_length, match_at, spaces.
  cbn [before group after match_atoms match_one].
  destruct (is_space c) eqn:E; [|reflexivity].
  match goal with |- context [match_star is_space s ?k] =>
    destruct (match_star_total is_space s k) as (a & s' & Hs & Ha & Hst & Hm)
  end.
  { discriminate. }
  exists a, s'. rewrite Hm. cbn [option_map snd]. repeat split; try assumption.
  f_equal. rewrite Hs. cbn [length]. rewrite length_append. lia.
Qed.

Lemma sub_spaces_single n :
  forall s, length s <= n ->
    single_spaced (re_sub spaces " " s) = true
    /\ (stops is_space s = true ->
        stops is_space (re_sub spaces " " s) = true).
Proof.
  unfold re_sub. induction n as [|n IH]; intros s Hn.
  - destruct s; [now split | cbn in Hn; lia].
  - destruct s as [|c s]; [now split|].
    cbn [sub_from]. pose proof (match_length_spaces c s) as Hm.
    destruct (is_space c) eqn:Ec.
    + destruct Hm as (a & s' & Hs & Ha & Hst & ->).
      rewrite Hs, sub_from_skip.
      destruct (IH s') as [H1 H2].
      { cbn in Hn. rewrite Hs, length_append in Hn. lia. }
      split.
      * cbn. rewrite H1, (H2 Hst). reflexivity.
      * cbn. now rewrite Ec.
    + rewrite Hm. destruct (IH s) as [H1 H2]; [cbn in Hn; lia|].
      split.
      * cbn. now rewrite Ec, H1.
      * intros _. cbn. now rewrite Ec.
Qed.

Lemma single_spaced_lstrip s :
  single_spaced s = true -> single_spaced (lstrip s) = true.
Proof.
  induction s as [|c s IH]; [reflexivity|]. cbn [lstrip].
  destruct (is_space c) eqn:E; [|easy].
  cbn. rewrite E. intros H. apply andb_true_iff in H. now apply IH.
Qed.

Lemma single_spaced_rstrip s :
  single_spaced s = true -> single_spaced (rstrip s) = true.
Proof.
  induction s as [|c s IH]; [reflexivity|].
  cbn [single_spaced]. intros H. apply andb_true_iff in H.
  destruct H as [Hc Hs]. specialize (IH Hs). cbn [rstrip].
  destruct (rstrip s) as [|c' r] eqn:E.
  - destruct (is_space c) eqn:Ec; [reflexivity|]. cbn. now rewrite Ec.
  - cbn [single_spaced]. cbn [single_spaced] in IH. rewrite IH, andb_true_r.
    destruct (is_space c) eqn:Ec; [|reflexivity].
    apply andb_true_iff in Hc. destruct Hc as [Hsp Hst]. rewrite Hsp.
    pose proof (rstrip_stops s Hst) as Hr. rewrite E in Hr. exact Hr.
Qed.

Lemma single_spaced_chars s c :
  single_spaced s = true -> In c (list_ascii_of_string s) ->
  is_space c = true -> c = " "%char.
Proof.
  induction s as [|d s IH]; cbn; [contradiction|].
  intros H [-> | Hin] Hc; apply andb_true_iff in H; destruct H as [Hd Hs].
  - rewrite Hc in Hd. apply andb_true_iff in Hd. destruct Hd as [Hd _].
    now apply Ascii.eqb_eq in Hd.
  - now apply IH.
Qed.

Lemma single_spaced_pairs s :
  single_spaced s = true -> contains "  " s = false.
Proof.
  induction s as [|d s IH]; [reflexivity|].
  cbn [single_spaced]. intros H. apply andb_true_iff in H.
  destruct H as [Hd Hs]. cbn [contains]. rewrite (IH Hs), orb_false_r.
  cbn [starts_with]. destruct (Ascii.eqb " " d) eqn:E; [|reflexivity].
  destruct s as [|e s]; [reflexivity|]. cbn [starts_with andb].
  destruct (Ascii.eqb " " e) eqn:E'; [|reflexivity]. exfalso.
  apply Ascii.eqb_eq in E, E'. subst d e. vm_compute in Hd. discriminate Hd.
Qed.

(** X26: the text extracted from markup has no white space at its ends,
    no two spaces in a row, and no white-space character but the plain
    space. *)
Theorem _extract_text_from_html_clean html :
  let text := _extract_text_from_html html in
  strip text = text
  /\ contains "  " text = false
  /\ (forall c, In c (list_ascii_of_string text) -> is_space c = true ->
                c = " "%char).
Proof.
  cbn zeta. unfold _extract_text_from_html.
  set (u := re_sub tag " " _).
  assert (H : single_spaced (strip (re_sub spaces " " u)) = true).
  { unfold strip. apply single_spaced_rstrip, single_spaced_lstrip.
    now apply (sub_spaces_single (length u) u). }
  split; [apply strip_strip|]. split.
  - now apply single_spaced_pairs.
  - intros c. now apply single_spaced_chars.
Qed.

End HtmlTextFacts.

(** ** app/parser.py: base64 in scripts *)
Section Base64Facts.
Import Py Types Text QuizParser.

Lemma match_one_hit {R} p c s (k : string -> option R) :
  p c = true -> match_one p (String c s) k = k s.
Proof. cbn. now intros ->. Qed.

Lemma match_one_miss {R} p s (k : string -> option R) :
  stops p s = true -> match_one p s k = None.
Proof.
  destruct s as [|c s]; [reflexivity|]. cbn. intros H.
  apply negb_true_iff in H. now rewrite H.
Qed.

Lemma match_opt_miss {R} p s (k : string -> option R) :
  stops p s = true -> match_opt p s k = k s.
Proof. intros H. unfold match_opt. now rewrite match_one_miss. Qed.

(** [n] atoms of one class take [n] characters of the class. *)
Lemma match_ones {R} p n atoms a s (k : string -> option R) :
  all_in p a = true -> length a = n ->
  match_atoms (repeat (Atom p One) n ++ atoms)%list (a ++ s) k
  = match_atoms atoms s k.
Proof.
  revert a. induction n as [|n IH]; intros a Ha Hn.
  - destruct a; [reflexivity | discriminate].
  - destruct a as [|c a]; [discriminate|].
    cbn in Ha. apply andb_true_iff in Ha. destruct Ha as [Hc Ha].
    cbn [repeat List.app match_atoms append]. rewrite (match_one_hit _ _ _ _ Hc).
    apply IH; [exact Ha | now injection Hn].
Qed.

Lemma findall_from_hit r c s g n :
  match_at r (String c s) = Some (g, n) ->
  findall_from r 0 (String c s) = g :: findall_from r (n - 1) s.
Proof. intros H. cbn [findall_from]. now rewrite H. Qed.

Lemma findall_from_miss r c s :
  match_at r (String c s) = None ->
  findall_from r 0 (String c s) = findall_from r 0 s.
Proof. intros H. cbn [findall_from]. now rewrite H. Qed.

Lemma findall_from_skip r a s k :
  findall_from r (length a + k) (a ++ s) = findall_from r k s.
Proof. induction a as [|c a IH]; [reflexivity | exact IH]. Qed.

Lemma findall_from_end r s k :
  match_at r EmptyString = None -> length s <= k -> findall_from r k s = [].
Proof.
  intros H. revert k. induction s as [|c s IH]; intros k Hk.
  - destruct k; cbn; [now rewrite H | reflexivity].
  - destruct k as [|k]; cbn in Hk; [lia|]. cbn [findall_from]. apply IH. lia.
Qed.

Lemma take_drop n s : take n s ++ drop n s = s.
Proof.
  revert s. induction n as [|n IH]; intros s; [now destruct s|].
  destruct s as [|c s]; [reflexivity|]. cbn. now rewrite IH.
Qed.

Lemma all_in_take p n s : all_in p s = true -> all_in p (take n s) = true.
Proof.
  revert s. induction n as [|n IH]; intros s H; [now destruct s|].
  destruct s as [|c s]; [reflexivity|]. cbn in *.
  apply andb_true_iff in H. destruct H as [-> H]. now apply IH.
Qed.

Lemma all_in_drop p n s : all_in p s = true -> all_in p (drop n s) = true.
Proof.
  revert s. induction n as [|n IH]; intros s H; [now destruct s|].
  destruct s as [|c s]; [reflexivity|]. cbn in *.
  apply andb_true_iff in H. destruct H as [_ H]. now apply IH.
Qed.

Lemma all_in_impl (p q : ascii -> bool) s :
  (forall c, p c = true -> q c = true) -> all_in p s = true -> all_in q s = true.
Proof.
  intros Hpq. induction s as [|c s IH]; [reflexivity|]. cbn.
  intros H. apply andb_true_iff in H. destruct H as [Hc H].
  now rewrite (Hpq c Hc), IH.
Qed.

(** *** The characters of an encoded text *)

Lemma base64_char_b2a v : base64_char (b2a v) = true.
Proof.
  unfold b2a. generalize (N.to_nat v). intros n.
  do 64 (destruct n as [|n]; [reflexivity|]). reflexivity.
Qed.

Lemma base64_char_b64encode data : all_in base64_char (b64encode data) = true.
Proof.
  induction data as [|a|a b|a b c r IH] using bytes_ind3;
    cbn [b64encode all_in]; rewrite ?base64_char_b2a; try reflexivity.
  exact IH.
Qed.

Lemma base64_char_no_quote c :
  base64_char c = true -> none_of [SQUOTE; DQUOTE] c = true.
Proof.
  intros H.
  pose proof (by_cases1
                (fun c => implb (base64_char c) (none_of [SQUOTE; DQUOTE] c))
                ltac:(vm_compute; reflexivity) c) as E.
  cbn beta in E. now rewrite H in E.
Qed.

(** *** One call of [atob] *)

Section Atob.
Variable e : string.
Hypothesis e_chars : all_in base64_char e = true.
Hypothesis e_long : 20 <= length e.

(** The call [atob('e')]. *)
Definition atob_call : string := "atob('" ++ e ++ "')".

Lemma atob_pattern_finds : findall atob_pattern atob_call = [e].
Proof.
  unfold findall, atob_call. cbn [append].
  assert (Hm : match_at atob_pattern
                 (String "a" (String "t" (String "o" (String "b" (String "("
                    (String "'" (e ++ "')")))))))
               = Some (e, 8 + length e)).
  { unfold match_at, atob_pattern.
    cbn [before group after match_atoms lit List.app].
    rewrite !match_one_hit by reflexivity.
    destruct e as [|c e'] eqn:Ee; [cbn in e_long; lia|].
    cbn [all_in] in e_chars. apply andb_true_iff in e_chars.
    destruct e_chars as [Hc He'].
    cbn [append].
    rewrite (match_one_hit _ c) by now apply base64_char_no_quote.
    erewrite match_star_greedy;
      [reflexivity
      | apply (all_in_impl base64_char); [apply base64_char_no_quote | exact He']
      | | reflexivity].
    rewrite !match_one_hit by reflexivity.
    f_equal. f_equal.
    - change (String c (e' ++ "')")) with (String c e' ++ "')").
      apply take_consumed.
    - cbn [length]. rewrite length_append. cbn [length]. lia. }
  rewrite (findall_from_hit _ _ _ _ _ Hm).
  rewrite findall_from_end; [reflexivity | reflexivity|].
  cbn [length]. rewrite length_append. cbn [length]. lia.
Qed.

Lemma base64_pattern_needs_quote c s :
  quote_char c = false -> match_at base64_pattern (String c s) = None.
Proof.
  intros H. unfold match_at, base64_pattern. cbn [before match_atoms match_one].
  now rewrite H.
Qed.

Lemma base64_pattern_finds : findall base64_pattern atob_call = [e].
Proof.
  unfold findall, atob_call. cbn [append].
  rewrite !findall_from_miss by (now apply base64_pattern_needs_quote).
  assert (Hm : match_at base64_pattern (String "'" (e ++ "')"))
               = Some (e, 2 + length e)).
  { unfold match_at, base64_pattern.
    cbn [before group after]. cbn [match_atoms].
    rewrite match_one_hit by reflexivity.
    rewrite <- (take_drop 20 e) at 1. rewrite append_assoc_s.
    rewrite match_ones;
      [ | now apply all_in_take | apply length_take; exact e_long ].
    cbn [match_atoms].
    erewrite match_star_greedy;
      [reflexivity | now apply all_in_drop | | reflexivity].
    rewrite !match_opt_miss by reflexivity.
    rewrite match_one_hit by reflexivity.
    f_equal. f_equal.
    - apply take_consumed.
    - cbn [length]. rewrite length_append. cbn [length]. lia. }
  rewrite (findall_from_hit _ _ _ _ _ Hm).
  replace (2 + length e - 1) with (length (e ++ "'") + 0)
    by (rewrite length_append; cbn [length]; lia).
  replace (e ++ "')") with ((e ++ "'") ++ ")")
    by now rewrite append_assoc_s.
  rewrite findall_from_skip. reflexivity.
Qed.

End Atob.

Lemma decoded_matches_encoded t :
  decoded_matches [b64encode (encode t)] = [code_points t].
Proof.
  unfold decoded_matches. cbn [flat_map].
  now rewrite b64decode_b64encode, decode_encode.
Qed.

(** X27: a call of atob on an encoded text of 20 characters or more is
    decoded twice, once by each pattern of [extract_base64_content]: the
    result is the text, a line feed, and the text again. *)
Theorem extract_base64_content_twice t :
  20 <= length (b64encode (encode t)) ->
  extract_base64_content (atob_call (b64encode (encode t)))
  = (code_points t ++ 10%N :: code_points t)%list.
Proof.
  intros Hlong. unfold extract_base64_content.
  rewrite atob_pattern_finds, base64_pattern_finds;
    try apply base64_char_b64encode; try exact Hlong.
  rewrite !decoded_matches_encoded. reflexivity.
Qed.

End Base64Facts.

(** ** app/fetcher.py: the choice of the processor *)
Section FetcherFacts.
Import Py Text Fetcher.
Context {R : Type}.
Variable self : Processors R.

(** None of the rules of [fetch_resource] applies to the response. *)
Definition no_rule_applies (content_type url : string) : bool :=
  negb (contains "csv" content_type || ends_with ".csv" url)
  && negb (contains "pdf" content_type || ends_with ".pdf" url)
  && negb (contains "json" content_type || ends_with ".json" url)
  && negb (contains "spreadsheet" content_type || contains "excel" content_type
           || ends_with_any [".xlsx"; ".xls"] url)
  && negb (contains "image" content_type
           || ends_with_any [".png"; ".jpg"; ".jpeg"; ".gif"] url)
  && negb (contains "html" content_type || ends_with ".html" url
           || contains "/table-page" url || contains "/secret-page" url)
  && negb (contains "xml" content_type || ends_with ".xml" url)
  && negb (contains "text" content_type || ends_with ".txt" url).

(** X28: when no rule of [fetch_resource] applies to the response, the
    resource goes to [_auto_detect_process], and there only two outcomes are
    left: the image processor for a URL that ends in .bmp, the text
    processor otherwise.  The other branches of [_auto_detect_process] are
    never taken. *)
Theorem fetch_resource_auto_detect content_type content url :
  no_rule_applies content_type url = true ->
  fetch_resource_dispatch self content_type content url
  = _auto_detect_process self content url
  /\ _auto_detect_process self content url
     = (if ends_with ".bmp" url then _process_image self content
        else _process_text self content).
Proof.
  unfold no_rule_applies, fetch_resource_dispatch, _auto_detect_process, ends_with_any.
  cbn [existsb].
  destruct (contains "csv" content_type), (ends_with ".csv" url),
    (contains "pdf" content_type), (ends_with ".pdf" url),
    (contains "json" content_type), (ends_with ".json" url),
    (contains "spreadsheet" content_type), (contains "excel" content_type),
    (ends_with ".xlsx" url), (ends_with ".xls" url);
    cbn; try discriminate.
  destruct (contains "image" content_type), (ends_with ".png" url),
    (ends_with ".jpg" url), (ends_with ".jpeg" url), (ends_with ".gif" url);
    cbn; try discriminate.
  destruct (contains "html" content_type), (ends_with ".html" url),
    (contains "/table-page" url), (contains "/secret-page" url),
    (contains "xml" content_type), (ends_with ".xml" url),
    (contains "text" content_type), (ends_with ".txt" url);
    cbn; try discriminate.
  intros _. destruct (ends_with ".bmp" url); split; reflexivity.
Qed.

End FetcherFacts.

(** ** The added properties at work *)
Section MoreExamples.
Import Py Types Effects Utils Parser LLM Submitter Solver.
Import Text QuizParser LLMEngine Payload Fetcher.

(** Three posts to an unreachable host under the retry wrapper. *)
Lemma async_retry_backoff_example :
  async_retry 3 1 default_backoff
              (post (offline_world 0 []) "https://quiz.example/submit" PNone)
              start
  = (Raise unreachable,
     mkState (events start
              ++ retry_trace (Post "https://quiz.example/submit" PNone)
                             1 default_backoff 2)%list
             (session start)).
Proof.
  apply (async_retry_backoff 2 1 default_backoff
           (post (offline_world 0 []) "https://quiz.example/submit" PNone)
           (Post "https://quiz.example/submit" PNone) unreachable).
  intros s. reflexivity.
Defined.

(** A scoring endpoint that answers every POST with a plain text. *)
Definition plain_text_world (body : string) : World := {|
  time_time := fun _ => 0%Q;
  browser_page := fun _ _ => Raise unreachable;
  fallback_page := fun _ _ => Raise unreachable;
  fetched := fun _ _ _ => Raise unreachable;
  generated := fun _ _ _ => Raise unreachable;
  posted := fun _ _ _ => Ok (200%Z, body);
  closed := fun _ _ => Ok tt;
  quiz_response := read_verdict;
  answer_submission := fun e s u a => Ok (mkAnswerSubmission e s u a)
|}.

Lemma submit_answer_incorrect_example :
  submit_answer example_runtime (plain_text_world "Incorrect answer")
                submission_42 "https://quiz.example/submit" start
  = (Ok {| correct := true; url := None; reason := Some "Incorrect answer" |},
     mkState (events start
              ++ [Post "https://quiz.example/submit" (payload_of submission_42)])%list
             true).
Proof.
  apply (submit_answer_incorrect_counts_as_correct
           example_runtime (plain_text_world "Incorrect answer")
           submission_42 "https://quiz.example/submit" start "Incorrect answer").
  - vm_compute. reflexivity.
  - reflexivity.
  - reflexivity.
  - reflexivity.
Defined.

Definition json_question : ParsedQuestion :=
  {| question_text := "Return the data as a JSON object.";
     submit_url := "https://quiz.example/submit";
     resources := [];
     expected_type := JSON;
     instructions := None |}.


(** The answer of that run. *)
Example _reason_about_answer_json_run :
  fst (_reason_about_answer example_runtime scripted_world four_models
         (fun _ _ => "prompt") json_question "ctx" 0 start)
  = Ok invalid_json.
Proof. vm_compute. reflexivity. Qed.

(** The attempts on a question for which the fallback is the default
    response. *)
Lemma _solve_with_retries_bounded_example :
  exists delta i,
    events (snd (_solve_with_retries example_runtime (offline_world 0 [])
                   Settings.defaults four_models (fun _ _ => "prompt")
                   example_request q1 json_question "ctx" start))
    = (events start ++ delta)%list
    /\ posts delta <= 3
    /\ i <= 3 - 1
    /\ pauses delta = repeat 2%Q i
    /\ (forall r,
          fst (_solve_with_retries example_runtime (offline_world 0 [])
                 Settings.defaults four_models (fun _ _ => "prompt")
                 example_request q1 json_question "ctx" start)
          = Ok (Some r) ->
          correct r = false -> i = 3 - 1)
    /\ (fst (_solve_with_retries example_runtime (offline_world 0 [])
               Settings.defaults four_models (fun _ _ => "prompt")
               example_request q1 json_question "ctx" start)
        = Ok None -> 3 = 0).
Proof.
  apply (_solve_with_retries_bounded example_runtime (offline_world 0 [])
           Settings.defaults four_models (fun _ _ => "prompt")
           example_request q1 json_question "ctx" start).
  intros e. vm_compute. discriminate.
Defined.

(** The record of that run: every backend is unreachable, the fallback
    answers 0, the scoring endpoint is unreachable too, and the attempts
    are two seconds apart. *)
Example _solve_with_retries_run :
  pauses (events (snd (_solve_with_retries example_runtime (offline_world 0 [])
                         Settings.defaults four_models (fun _ _ => "prompt")
                         example_request q1 json_question "ctx" start)))
  = [2%Q; 2%Q]
  /\ posts (events (snd (_solve_with_retries example_runtime
                           (offline_world 0 []) Settings.defaults four_models
                           (fun _ _ => "prompt") example_request q1
                           json_question "ctx" start)))
     = 3.
Proof. split; vm_compute; reflexivity. Qed.

Lemma attempts_from_empty_window_example :
  _reason_about_answer example_runtime scripted_world (firstn 2 four_models)
     (fun _ _ => "prompt") json_question "ctx" 2 start
  = (Raise no_answer, start)
  /\ attempts_from example_runtime scripted_world Settings.defaults
       (firstn 2 four_models) (fun _ _ => "prompt") example_request
       q1 json_question "ctx" 1 2 None start
     = (Raise no_answer, start).
Proof.
  apply (attempts_from_empty_window example_runtime scripted_world
           Settings.defaults (firstn 2 four_models) (fun _ _ => "prompt")
           example_request q1 json_question "ctx" 0 2 None start).
  - cbn. lia.
  - lia.
Defined.

Lemma while_loop_page_unavailable_example :
  while_loop example_runtime (offline_world 0 []) Settings.defaults
             example_extractors four_models (fun _ _ => "prompt")
             example_request 0 1 (Some q1) start
  = (Ok (Some (Some q1)),
     mkState (events start ++ [Clock; PageGet q1; FallbackGet q1])%list
             (session start)).
Proof.
  apply (while_loop_page_unavailable example_runtime (offline_world 0 [])
           Settings.defaults example_extractors four_models
           (fun _ _ => "prompt") example_request 0 0 q1 start
           unreachable unreachable).
  - discriminate.
  - vm_compute. discriminate.
  - reflexivity.
  - reflexivity.
Defined.

Lemma _determine_answer_type_prime_number_example :
  _determine_answer_type "Is 7 a prime number? Answer yes or no."
  = if contains "is 97 a prime number"
                (lower "Is 7 a prime number? Answer yes or no.")
       && contains "answer with 'yes' or 'no'"
                   (lower "Is 7 a prime number? Answer yes or no.")
    then STRING else NUMBER.
Proof.
  apply (_determine_answer_type_prime_number
           "Is 7 a prime number? Answer yes or no.").
  vm_compute. reflexivity.
Defined.

Lemma extract_api_headers_shape_example :
  In "Authorization" ["Authorization"; "X-API-Key"; "Content-Type"]
  /\ (exists m, "Bearer abc" = header_value "Authorization" m)
  /\ ("Authorization" = "Authorization" ->
      contains "bearer" (lower "Bearer abc") = true).
Proof.
  apply (extract_api_headers_shape two_tokens "Authorization" "Bearer abc").
  vm_compute. reflexivity.
Defined.

(** The service lists one configured model and a flash model. *)
Definition listed : list string :=
  ["models/gemini-2.5-pro"; "models/gemini-1.5-flash"].

Lemma setup_models_loaded_example :
  [mkModel "gemini-2.5-pro" "fallback"] <> []
  /\ List.length [mkModel "gemini-2.5-pro" "fallback"]
     <= S (List.length (GEMINI_MODEL_FALLBACKS default_models))
  /\ (Forall (is_configured default_models (fun _ => true) listed)
             [mkModel "gemini-2.5-pro" "fallback"]
      \/ exists name,
           [mkModel "gemini-2.5-pro" "fallback"] = [mkModel name "emergency"]
           /\ In name listed
           /\ contains "gemini" name = true /\ contains "flash" name = true
           /\ (fun _ : string => true) name = true).
Proof.
  apply (setup_models_loaded default_models (fun _ => true) listed
           [mkModel "gemini-2.5-pro" "fallback"]).
  vm_compute. reflexivity.
Defined.

Lemma setup_models_emergency_window_example :
  List.length [mkModel "models/gemini-1.5-flash" "emergency"] = 1
  /\ models_to_try [mkModel "models/gemini-1.5-flash" "emergency"] 1 = [].
Proof.
  apply (setup_models_emergency_window default_models (fun _ => true)
           ["models/gemini-1.5-flash"]
           [mkModel "models/gemini-1.5-flash" "emergency"] 1).
  - intros config Hin. cbn in Hin.
    destruct Hin as [<- | [<- | [<- | [<- | []]]]]; reflexivity.
  - vm_compute. reflexivity.
  - lia.
Defined.


(** Processors that answer with their own names. *)
Definition named_processors : Processors string := {|
  _process_csv := fun _ => "csv";
  _process_pdf := fun _ => "pdf";
  _process_json := fun _ => "json";
  _process_excel := fun _ => "excel";
  _process_image := fun _ => "image";
  _process_html := fun _ _ => "html";
  _process_xml := fun _ => "xml";
  _process_text := fun _ => "text"
|}.

Lemma fetch_resource_auto_detect_example :
  fetch_resource_dispatch named_processors "application/octet-stream" EmptyString
                   "https://files.example/scan.bmp"
  = _auto_detect_process named_processors EmptyString
                         "https://files.example/scan.bmp"
  /\ _auto_detect_process named_processors EmptyString
                          "https://files.example/scan.bmp"
     = (if ends_with ".bmp" "https://files.example/scan.bmp"
        then _process_image named_processors EmptyString
        else _process_text named_processors EmptyString).
Proof.
  apply (fetch_resource_auto_detect named_processors
           "application/octet-stream" EmptyString
           "https://files.example/scan.bmp").
  vm_compute. reflexivity.
Defined.

(** A reading of [list(set(l))]: the first occurrence of each element. *)
Definition first_occurrences (l : list string) : list string :=
  rev (nodup string_dec (rev l)).

Lemma first_occurrences_in l x : In x (first_occurrences l) -> In x l.
Proof.
  unfold first_occurrences. intros H.
  apply in_rev, nodup_In, in_rev in H. exact H.
Qed.

Lemma _extract_resources_absolute_example :
  starts_with "http" "https://data.example/a.csv" = true
  /\ _is_resource_url "https://data.example/a.csv" = true
  /\ any_in ["submit"; "answer"; "check"] (lower "https://data.example/a.csv")
     = false.
Proof.
  apply (_extract_resources_absolute first_occurrences
           "Download https://data.example/a.csv and https://data.example/a.csv"
           "<a href='/relative.csv'>x</a>" "https://data.example/a.csv"
           first_occurrences_in).
  vm_compute. tauto.
Defined.

Definition greeting : string := "Hello World! Hello!".

Lemma extract_base64_content_twice_example :
  extract_base64_content (atob_call (b64encode (encode greeting)))
  = (code_points greeting ++ 10%N :: code_points greeting)%list.
Proof.
  apply (extract_base64_content_twice greeting).
  vm_compute. lia.
Defined.

Example first_occurrences_run :
  _extract_resources first_occurrences
    "Download https://data.example/a.csv and https://data.example/a.csv"
    "<a href='/relative.csv'>x</a><a href='http://h.example/api/v1'>y</a>"
  = ["https://data.example/a.csv"; "http://h.example/api/v1"].
Proof. vm_compute. reflexivity. Qed.

(** The text of a small page. *)
Example _extract_text_from_html_run :
  _extract_text_from_html
    ("<p>Hello   <b>big</b>" ++ String LF
       " world</p><script>var x = 1;</script><style>p { }</style>")
  = "Hello big world".
Proof. vm_compute. reflexivity. Qed.

(** A payload example is dropped from the question, up to its closing
    brace; so is everything behind the placeholder. *)
Example _extract_question_text_run :
  _extract_question_text
    (join (one LF)
       [ "Q1: What is 2+2?"; "  "; "Payload:"; " {"; "  k: your-email"; " }";
         "  after  "; "x your-email y"; "lost"; "} closes"; "kept" ])
  = join (one LF) ["Q1: What is 2+2?"; "Payload:"; "after"; "kept"].
Proof. vm_compute. reflexivity. Qed.

(** The first pattern with a likely candidate decides; a relative
    candidate is joined to the URL of the page. *)
Example _extract_submit_url_run :
  _extract_submit_url (fun base url => Ok (base ++ url)) "https://quiz.example"
    "Submit to /submit-now, or url: http://x.example/check" EmptyString
  = Ok "https://quiz.example/submit-now".
Proof. vm_compute. reflexivity. Qed.

(** *** Conversions the interpreter refuses *)

Fixpoint copies (n : nat) (c : ascii) : string :=
  match n with
  | O => EmptyString
  | S n' => String c (copies n' c)
  end.

(** A question the fallback answers with a sum, and a context that holds a
    number of 4301 digits. *)
Definition long_sum_request : LLMReasoningRequest :=
  {| question := "What is the sum of the values?";
     context := "value: " ++ copies 4301 "7";
     request_type := NUMBER;
     attempt_number := 1 |}.

(** Every backend being unreachable, each run of the window ends in the
    fallback, whose [int] raises: the wrapper runs the window three times,
    1 second and 2 seconds apart, and raises the ValueError. *)
Example reason_about_question_fallback_raises :
  reason_about_question example_runtime (offline_world 0 [])
    four_models (fun _ _ => "prompt") long_sum_request 0 start
  = (Raise (digit_limit_to_int 4300 4301),
     mkState [ Generate "gemini-2.0-flash-lite" "prompt";
               Generate "gemini-2.0-flash" "prompt"; Sleep 1;
               Generate "gemini-2.0-flash-lite" "prompt";
               Generate "gemini-2.0-flash" "prompt"; Sleep 2;
               Generate "gemini-2.0-flash-lite" "prompt";
               Generate "gemini-2.0-flash" "prompt" ]
             false).
Proof. vm_compute. reflexivity. Qed.

(** A body of 4301 digits: [json.loads] raises the ValueError of the digit
    limit, no JSONDecodeError, and the verdict is negative. *)
Example submit_answer_digits_body :
  fst (submit_answer example_runtime (plain_text_world (copies 4301 "1"))
         submission_42 "https://quiz.example/submit" start)
  = Ok {| correct := false; url := None;
          reason := Some (exn_text (digit_limit_to_int 4300 4301)) |}.
Proof. vm_compute. reflexivity. Qed.

End MoreExamples.
